(** * Technical SEO audit automation: a shallow embedding and its properties

    The development follows the Python sources:
    - [seo_audit_automation.py]: class [SEOAuditAutomation] (export loader,
      issue detector, aggregator, report writers);
    - [workflow.py]: class [SEOWorkflow];
    - [screaming_frog_api.py]: class [ScreamingFrogAPI];
    - [screaming_frog_automation.py]: class [ScreamingFrogAutomation];
    - [full_workflow.py]: class [EndToEndSEOWorkflow].

    Tables are pandas data frames.  A frame is modelled by its column names
    and its rows of cells; the pandas operations the detector calls
    ([df[col]], boolean indexing, [dropna], [value_counts], [head], ...)
    are modelled one by one in module [Pandas], with the exceptions they
    raise on a missing column ([KeyError]) and on an order comparison of a
    text cell with a number ([TypeError]).  Text is a [string] of
    characters, numbers read from a CSV file are exact rationals, and the
    scores computed by Python's true division are IEEE-754 binary64 floats
    (Rocq's primitive floats).

    What lies outside the programs is a parameter: the remote tool is a
    [World] of replies and latencies, the machine and the libraries of the
    workflows (directories, files, JSON, charts, spreadsheets, mail, the
    crawler's process) are a [Platform] of answers, and the clock is read
    into arguments.  [str.format] is modelled character by character.

    Left out: what is printed and logged; JSON values nested in an object
    or an array of a reply, and JSON numbers with a fraction; the column
    types pandas infers
    (the [.str] accessor is taken on a column of text and missing values, on
    a numeric column pandas raises [AttributeError]); characters outside
    ASCII in file names; [ScreamingFrogAPI.export_crawl]; the [main]
    functions and their command lines. *)

From Stdlib Require Import ZArith QArith Qcanon List String Ascii Bool Lia.
From Stdlib Require Import Permutation Sorted Floats.
From Stdlib Require Import DecimalString.
From stdpp Require Import gmap strings list.

Local Open Scope string_scope.

(** ** Exceptions and results *)

Inductive exn : Type :=
| KeyError (key : string)
| TypeError
| ZeroDivisionError
| OSError
| UnicodeDecodeError.

Inductive result (A : Type) : Type :=
| Ok (a : A)
| Err (e : exn).
Arguments Ok {A} a.
Arguments Err {A} e.

Definition rbind {A B} (r : result A) (k : A -> result B) : result B :=
  match r with
  | Ok a => k a
  | Err e => Err e
  end.

Fixpoint mapM {A B} (f : A -> result B) (l : list A) : result (list B) :=
  match l with
  | [] => Ok []
  | x :: l' =>
      rbind (f x) (fun y => rbind (mapM f l') (fun ys => Ok (y :: ys)))
  end.

(** ** Stable sorting, as Python's [sorted] does it

    [sorted(l, key=k, reverse=True)] is a stable sort: the result is in
    descending key order and elements whose keys compare equal keep their
    order in [l].  [lt x y] stands for [k x < k y]; on keys that [<] orders
    totally, as the scores of this program, every stable sort gives the list
    computed here by insertion. *)

Section StableSort.
Context {A : Type} (lt : A -> A -> bool).

Fixpoint insert_desc (x : A) (l : list A) : list A :=
  match l with
  | [] => [x]
  | y :: l' => if lt x y then y :: insert_desc x l' else x :: y :: l'
  end.

Fixpoint sorted_desc (l : list A) : list A :=
  match l with
  | [] => []
  | x :: l' => insert_desc x (sorted_desc l')
  end.
End StableSort.

(** ** The pandas operations used by the detector *)

Module Pandas.

Inductive cell : Type :=
| NaN                 (* a missing value; what an empty CSV field becomes *)
| Num (q : Qc)
| Str (s : string).

#[global] Instance cell_eq_dec : EqDecision cell.
Proof. solve_decision. Defined.

Definition Series := list cell.

(** A frame: the column names and the rows in file order.  A row holds one
    cell for each column; where it is shorter the cells at its end are
    missing. *)
Record DataFrame : Type := {
  columns : list string;
  rows : list (list cell)
}.

(** An integer as the number of a cell. *)
Definition num (z : Z) : Qc := Q2Qc (inject_Z z).

(** The position of a column (the first of that name). *)

Fixpoint col_index (c : string) (cols : list string) : option nat :=
  match cols with
  | [] => None
  | c' :: cols' =>
      if String.eqb c c' then Some 0%nat else S <$> col_index c cols'
  end.

(** [c in df.columns] *)
Definition in_columns (c : string) (df : DataFrame) : bool :=
  existsb (String.eqb c) (columns df).

(** The cell of a row at a position. *)
Definition cell_at (i : nat) (row : list cell) : cell := nth i row NaN.

(** [df[c]]: the column as a series; [KeyError] when there is none. *)
Definition getitem (df : DataFrame) (c : string) : result Series :=
  match col_index c (columns df) with
  | None => Err (KeyError c)
  | Some i => Ok (map (cell_at i) (rows df))
  end.

(** [df[mask]]: the rows where the boolean series is true. *)
Fixpoint select {A} (mask : list bool) (l : list A) : list A :=
  match mask, l with
  | b :: mask', x :: l' => if b then x :: select mask' l' else select mask' l'
  | _, _ => []
  end.

Definition getitem_mask (df : DataFrame) (mask : list bool) : DataFrame :=
  {| columns := columns df; rows := select mask (rows df) |}.

Definition is_nan (c : cell) : bool :=
  match c with NaN => true | _ => false end.

(** [s.isna()] *)
Definition isna (s : Series) : list bool := map is_nan s.

(** [df.dropna(subset=[c])] *)
Definition dropna (df : DataFrame) (c : string) : result DataFrame :=
  rbind (getitem df c) (fun s =>
    Ok (getitem_mask df (map negb (isna s)))).

(** An order comparison of one cell with a number: false on a missing
    value, [TypeError] on text. *)
Definition cmp_num (p : Qc -> bool) (c : cell) : result bool :=
  match c with
  | NaN => Ok false
  | Num q => Ok (p q)
  | Str _ => Err TypeError
  end.

Definition num_le (a b : Qc) : bool := Qle_bool a b.
Definition num_lt (a b : Qc) : bool := negb (Qle_bool b a).

(** [s.between(lo, hi)], that is [(s >= lo) & (s <= hi)] *)
Definition between (s : Series) (lo hi : Qc) : result (list bool) :=
  mapM (cmp_num (fun q => num_le lo q && num_le q hi)) s.

(** [s > x] *)
Definition gt (s : Series) (x : Qc) : result (list bool) :=
  mapM (cmp_num (fun q => num_lt x q)) s.

(** [s.str.len()]: the length of a text cell, missing otherwise. *)
Definition str_len (s : Series) : Series :=
  map (fun c => match c with
                | Str t => Num (num (Z.of_nat (String.length t)))
                | _ => NaN
                end) s.

(** [s == v] *)
Definition eq_value (s : Series) (v : cell) : list bool :=
  map (fun c => negb (is_nan c) && bool_decide (c = v)) s.

(** [df.empty]: some axis has length zero. *)
Definition empty (df : DataFrame) : bool :=
  (length (columns df) =? 0)%nat || (length (rows df) =? 0)%nat.

(** [len(df)] *)
Definition len (df : DataFrame) : nat := length (rows df).

(** [s.head(n).tolist()] *)
Definition head (n : nat) (s : Series) : list cell := take n s.

(** The distinct values of a list, in order of first appearance. *)
Fixpoint uniques (l : list cell) : list cell :=
  match l with
  | [] => []
  | x :: l' => x :: List.filter (fun y => negb (bool_decide (y = x))) (uniques l')
  end.

Definition occurrences (x : cell) (l : list cell) : nat :=
  length (List.filter (fun y => bool_decide (y = x)) l).

(** [s.value_counts()]: each distinct non-missing value with the number of
    times it occurs, most frequent first.  Values with the same count are
    listed in order of first appearance; pandas does not document the
    order of such ties, and no statement below rests on which order it
    is. *)
Definition value_counts (s : Series) : list (cell * nat) :=
  let present := List.filter (fun c => negb (is_nan c)) s in
  sorted_desc (fun a b => (snd a <? snd b)%nat)
    (map (fun v => (v, occurrences v present)) (uniques present)).

End Pandas.
Import Pandas.

(** ** Issue records, the rule catalog and the auditor's state *)

Record issue : Type := {
  type : string;
  title : string;
  description : string;
  count : nat;
  examples : list cell;
  impact : Z;
  effort : Z;
  priority_score : float;
  recommendation : string
}.

Record score : Type := {
  score_impact : Z;
  score_effort : Z;
  score_category : string
}.

(** The class constant [ISSUE_SCORES]. *)
Definition ISSUE_SCORES : list (string * score) :=
  [ ("broken_links", {| score_impact := 10; score_effort := 5; score_category := "critical" |});
    ("server_errors", {| score_impact := 10; score_effort := 6; score_category := "critical" |});
    ("redirect_chains", {| score_impact := 9; score_effort := 4; score_category := "critical" |});
    ("duplicate_titles", {| score_impact := 8; score_effort := 3; score_category := "critical" |});
    ("missing_meta_descriptions", {| score_impact := 7; score_effort := 2; score_category := "high" |});
    ("missing_h1", {| score_impact := 7; score_effort := 2; score_category := "high" |});
    ("duplicate_content", {| score_impact := 8; score_effort := 6; score_category := "high" |});
    ("slow_pages", {| score_impact := 7; score_effort := 7; score_category := "high" |});
    ("title_too_long", {| score_impact := 5; score_effort := 2; score_category := "medium" |});
    ("description_too_long", {| score_impact := 5; score_effort := 2; score_category := "medium" |});
    ("low_word_count", {| score_impact := 6; score_effort := 5; score_category := "medium" |});
    ("missing_alt_text", {| score_impact := 5; score_effort := 4; score_category := "medium" |});
    ("multiple_h1", {| score_impact := 3; score_effort := 2; score_category := "low" |});
    ("missing_meta_keywords", {| score_impact := 2; score_effort := 1; score_category := "low" |});
    ("excessive_outlinks", {| score_impact := 3; score_effort := 4; score_category := "low" |});
    ("low_text_html_ratio", {| score_impact := 3; score_effort := 5; score_category := "low" |}) ].

(** [d[k]] on a dictionary written as a list of items. *)
Fixpoint dict_get {V} (d : list (string * V)) (k : string) : result V :=
  match d with
  | [] => Err (KeyError k)
  | (k', v) :: d' => if String.eqb k k' then Ok v else dict_get d' k
  end.

(** Python's [int] to [float] conversion, for integers below 2^63 in
    absolute value. *)
Definition float_of_int (z : Z) : float :=
  if (z <? 0)%Z then PrimFloat.opp (PrimFloat.of_uint63 (Uint63.of_Z (- z)))
  else PrimFloat.of_uint63 (Uint63.of_Z z).

(** The binary64 quotient of two integers, correctly rounded. *)
Definition quotient (a b : Z) : float :=
  PrimFloat.div (float_of_int a) (float_of_int b).

(** [a / b] on two integers. *)
Definition true_div (a b : Z) : result float :=
  if (b =? 0)%Z then Err ZeroDivisionError else Ok (quotient a b).

Inductive category : Type := Critical | High | Medium | Low.

(** The dictionary [self.issues]; its four keys are created by [__init__]
    in this order and never change. *)
Record buckets : Type := {
  critical : list issue;
  high : list issue;
  medium : list issue;
  low : list issue
}.

Definition categories : list category := [Critical; High; Medium; Low].

Definition bucket (c : category) (b : buckets) : list issue :=
  match c with
  | Critical => critical b
  | High => high b
  | Medium => medium b
  | Low => low b
  end.

Definition set_bucket (c : category) (l : list issue) (b : buckets) : buckets :=
  match c with
  | Critical => {| critical := l; high := high b; medium := medium b; low := low b |}
  | High => {| critical := critical b; high := l; medium := medium b; low := low b |}
  | Medium => {| critical := critical b; high := high b; medium := l; low := low b |}
  | Low => {| critical := critical b; high := high b; medium := medium b; low := l |}
  end.

Definition no_issues : buckets :=
  {| critical := []; high := []; medium := []; low := [] |}.

Record summary_dict : Type := {
  total_issues : nat;
  critical_count : nat;
  high_count : nat;
  medium_count : nat;
  low_count : nat;
  date : string;
  highest_impact_issues : list issue
}.

(** An instance of [SEOAuditAutomation].  [files] is a dictionary in
    insertion order, [summary] is [None] for the empty dictionary that
    [__init__] stores. *)
Record SEOAuditAutomation : Type := {
  export_dir : string;
  files : list (string * string);
  data : gmap string DataFrame;
  issues : buckets;
  summary : option summary_dict
}.

(** [SEOAuditAutomation(export_dir)] *)
Definition init (dir : string) : SEOAuditAutomation :=
  {| export_dir := dir; files := []; data := ∅; issues := no_issues; summary := None |}.

Definition with_issues (b : buckets) (self : SEOAuditAutomation) : SEOAuditAutomation :=
  {| export_dir := export_dir self; files := files self; data := data self;
     issues := b; summary := summary self |}.

(** ** Methods: a state and exception monad over the instance

    A method call takes the instance and ends either by returning or by
    raising; in both cases the instance keeps what was stored before. *)

Definition M (A : Type) : Type :=
  SEOAuditAutomation -> result A * SEOAuditAutomation.

Definition ret {A} (a : A) : M A := fun self => (Ok a, self).

Definition bind {A B} (m : M A) (k : A -> M B) : M B :=
  fun self =>
    match m self with
    | (Ok a, self') => k a self'
    | (Err e, self') => (Err e, self')
    end.

Definition lift {A} (r : result A) : M A := fun self => (r, self).

Definition get_data : M (gmap string DataFrame) := fun self => (Ok (data self), self).

Definition get_issues : M buckets := fun self => (Ok (issues self), self).

(** [self.issues[c].append(i)] *)
Definition append_issue (c : category) (i : issue) : M unit :=
  fun self =>
    (Ok tt, with_issues (set_bucket c (bucket c (issues self) ++ [i]) (issues self)) self).

Declare Scope method_scope.
Delimit Scope method_scope with method.
Notation "x <- m ;; k" := (bind m (fun x => k))
  (at level 100, m at next level, right associativity) : method_scope.
Notation "m ;; k" := (bind m (fun _ => k))
  (at level 100, right associativity) : method_scope.
Local Open Scope method_scope.

(** The issue dictionary a check builds: the three score entries are read
    from [ISSUE_SCORES] under the check's own identifier. *)
Definition new_issue (ty ttl desc : string) (cnt : nat) (ex : list cell)
    (rec : string) : result issue :=
  rbind (dict_get ISSUE_SCORES ty) (fun sc =>
  rbind (true_div (score_impact sc) (score_effort sc)) (fun p =>
    Ok {| type := ty; title := ttl; description := desc; count := cnt;
          examples := ex; impact := score_impact sc; effort := score_effort sc;
          priority_score := p; recommendation := rec |})).

(** ** The issue detector: one method per check *)

Definition analyze_broken_links : M unit :=
  d <- get_data ;;
  match d !! "response_codes" with
  | None => ret tt
  | Some df =>
      status <- lift (getitem df "Status Code") ;;
      mask <- lift (between status (num 400) (num 499)) ;;
      let client_errors := getitem_mask df mask in
      (if negb (empty client_errors) then
         addr <- lift (getitem client_errors "Address") ;;
         i <- lift (new_issue "broken_links" "Broken Links (4xx)"
                      "Pages returning client error status codes"
                      (len client_errors) (head 5 addr)
                      "Fix or redirect broken links to maintain user experience and link equity") ;;
         append_issue Critical i
       else ret tt) ;;
      status <- lift (getitem df "Status Code") ;;
      mask <- lift (between status (num 500) (num 599)) ;;
      let server_errors := getitem_mask df mask in
      if negb (empty server_errors) then
        addr <- lift (getitem server_errors "Address") ;;
        i <- lift (new_issue "server_errors" "Server Errors (5xx)"
                     "Pages returning server error status codes"
                     (len server_errors) (head 5 addr)
                     "Investigate server issues and fix the root cause to ensure page availability") ;;
        append_issue Critical i
      else ret tt
  end.

Definition analyze_redirect_chains : M unit :=
  d <- get_data ;;
  match d !! "redirect_chains" with
  | None => ret tt
  | Some df =>
      if in_columns "Redirect Chain" df then
        col <- lift (getitem df "Redirect Chain") ;;
        mask <- lift (gt col (num 1)) ;;
        let chains := getitem_mask df mask in
        if negb (empty chains) then
          addr <- lift (getitem chains "Address") ;;
          i <- lift (new_issue "redirect_chains" "Redirect Chains"
                       "URLs with multiple redirects in sequence"
                       (len chains) (head 5 addr)
                       "Reduce redirect chains to a single redirect to improve page speed and reduce crawl budget waste") ;;
          append_issue Critical i
        else ret tt
      else ret tt
  end.

(** The loop [for title in duplicate_titles[:5]] with its accumulator
    [examples]: two addresses per title, in the order of the titles. *)
Fixpoint duplicate_examples (df : DataFrame) (titles : list cell) : result (list cell) :=
  match titles with
  | [] => Ok []
  | t :: titles' =>
      rbind (getitem df "Title 1") (fun col =>
      rbind (getitem (getitem_mask df (eq_value col t)) "Address") (fun urls =>
      rbind (duplicate_examples df titles') (fun rest =>
        Ok (head 2 urls ++ rest)%list)))
  end.

(** [title_counts[title_counts > 1].index.tolist()] *)
Definition duplicated (title_counts : list (cell * nat)) : list cell :=
  map fst (List.filter (fun tc => (1 <? snd tc)%nat) title_counts).

Definition analyze_duplicate_titles : M unit :=
  d <- get_data ;;
  match d !! "page_titles" with
  | None => ret tt
  | Some df =>
      df <- lift (dropna df "Title 1") ;;
      col <- lift (getitem df "Title 1") ;;
      let title_counts := value_counts col in
      let duplicate_titles := duplicated title_counts in
      if negb (length duplicate_titles =? 0)%nat then
        ex <- lift (duplicate_examples df (take 5 duplicate_titles)) ;;
        i <- lift (new_issue "duplicate_titles" "Duplicate Page Titles"
                     "Multiple pages using the same title"
                     (length duplicate_titles) (take 5 ex)
                     "Create unique page titles to improve SEO and user experience") ;;
        append_issue Critical i
      else ret tt
  end.

Definition analyze_missing_meta_descriptions : M unit :=
  d <- get_data ;;
  match d !! "meta_description" with
  | None => ret tt
  | Some df =>
      col <- lift (getitem df "Meta Description 1") ;;
      let missing := getitem_mask df (isna col) in
      if negb (empty missing) then
        addr <- lift (getitem missing "Address") ;;
        i <- lift (new_issue "missing_meta_descriptions" "Missing Meta Descriptions"
                     "Pages without meta descriptions"
                     (len missing) (head 5 addr)
                     "Add compelling meta descriptions to improve click-through rates from search results") ;;
        append_issue High i
      else ret tt
  end.

Definition analyze_missing_h1 : M unit :=
  d <- get_data ;;
  match d !! "h1" with
  | None => ret tt
  | Some df =>
      col <- lift (getitem df "H1-1") ;;
      let missing := getitem_mask df (isna col) in
      if negb (empty missing) then
        addr <- lift (getitem missing "Address") ;;
        i <- lift (new_issue "missing_h1" "Missing H1 Tags"
                     "Pages without H1 headings"
                     (len missing) (head 5 addr)
                     "Add H1 tags to all pages to improve content hierarchy and relevance signals") ;;
        append_issue High i
      else ret tt
  end.

Definition analyze_slow_pages : M unit :=
  d <- get_data ;;
  match d !! "page_speed" with
  | None => ret tt
  | Some df =>
      let threshold := num 3 in
      if in_columns "Page Load Time (Seconds)" df then
        col <- lift (getitem df "Page Load Time (Seconds)") ;;
        mask <- lift (gt col threshold) ;;
        let slow_pages := getitem_mask df mask in
        if negb (empty slow_pages) then
          addr <- lift (getitem slow_pages "Address") ;;
          i <- lift (new_issue "slow_pages" "Slow-Loading Pages"
                       "Pages with load time greater than 3.0 seconds"
                       (len slow_pages) (head 5 addr)
                       "Optimize page speed by reducing file sizes, implementing caching, and minimizing render-blocking resources") ;;
          append_issue High i
        else ret tt
      else ret tt
  end.

Definition analyze_title_length : M unit :=
  d <- get_data ;;
  match d !! "page_titles" with
  | None => ret tt
  | Some df =>
      df <- lift (dropna df "Title 1") ;;
      let max_length := num 60 in
      col <- lift (getitem df "Title 1") ;;
      mask <- lift (gt (str_len col) max_length) ;;
      let long_titles := getitem_mask df mask in
      if negb (empty long_titles) then
        addr <- lift (getitem long_titles "Address") ;;
        i <- lift (new_issue "title_too_long" "Page Titles Too Long"
                     "Page titles longer than 60 characters"
                     (len long_titles) (head 5 addr)
                     "Shorten page titles to under 60 characters to avoid truncation in search results") ;;
        append_issue Medium i
      else ret tt
  end.

Definition analyze_description_length : M unit :=
  d <- get_data ;;
  match d !! "meta_description" with
  | None => ret tt
  | Some df =>
      df <- lift (dropna df "Meta Description 1") ;;
      let max_length := num 160 in
      col <- lift (getitem df "Meta Description 1") ;;
      mask <- lift (gt (str_len col) max_length) ;;
      let long_descriptions := getitem_mask df mask in
      if negb (empty long_descriptions) then
        addr <- lift (getitem long_descriptions "Address") ;;
        i <- lift (new_issue "description_too_long" "Meta Descriptions Too Long"
                     "Meta descriptions longer than 160 characters"
                     (len long_descriptions) (head 5 addr)
                     "Shorten meta descriptions to under 160 characters to avoid truncation in search results") ;;
        append_issue Medium i
      else ret tt
  end.

Definition analyze_missing_alt_text : M unit :=
  d <- get_data ;;
  match d !! "images" with
  | None => ret tt
  | Some df =>
      col <- lift (getitem df "Alt Text") ;;
      let missing_alt := getitem_mask df (isna col) in
      if negb (empty missing_alt) then
        addr <- lift (getitem missing_alt "Address") ;;
        i <- lift (new_issue "missing_alt_text" "Images Missing Alt Text"
                     "Images without alternative text"
                     (len missing_alt) (head 5 addr)
                     "Add descriptive alt text to all images to improve accessibility and image search visibility") ;;
        append_issue Medium i
      else ret tt
  end.

Definition analyze_multiple_h1 : M unit :=
  d <- get_data ;;
  match d !! "h1" with
  | None => ret tt
  | Some df =>
      if in_columns "H1-2" df then
        multiple_h1 <- lift (dropna df "H1-2") ;;
        if negb (empty multiple_h1) then
          addr <- lift (getitem multiple_h1 "Address") ;;
          i <- lift (new_issue "multiple_h1" "Multiple H1 Tags"
                       "Pages with more than one H1 heading"
                       (len multiple_h1) (head 5 addr)
                       "Use a single H1 tag per page to maintain clear content hierarchy") ;;
          append_issue Low i
        else ret tt
      else ret tt
  end.

(** ** The aggregator *)

Definition priority_lt (x y : issue) : bool :=
  PrimFloat.ltb (priority_score x) (priority_score y).

Definition impact_lt (x y : issue) : bool :=
  (impact x <? impact y)%Z.

(** [sorted(l, key=lambda x: x.get("priority_score", 0), reverse=True)] *)
Definition sort_by_priority (l : list issue) : list issue :=
  sorted_desc priority_lt l.

(** The loop [for category in self.issues] of [run_analysis]. *)
Definition sort_issues : M unit :=
  fun self =>
    (Ok tt,
     with_issues
       (fold_left (fun b c => set_bucket c (sort_by_priority (bucket c b)) b)
                  categories (issues self))
       self).

Definition all_issues (b : buckets) : list issue :=
  flat_map (fun c => bucket c b) categories.

Definition _get_highest_impact_issues (n : nat) : M (list issue) :=
  fun self =>
    let sorted_issues := sorted_desc impact_lt (all_issues (issues self)) in
    (Ok (take n sorted_issues), self).

Definition set_summary (s : summary_dict) : M unit :=
  fun self =>
    (Ok tt,
     {| export_dir := export_dir self; files := files self; data := data self;
        issues := issues self; summary := Some s |}).

(** The ten calls at the head of [run_analysis]. *)
Definition run_checks : M unit :=
  analyze_broken_links ;;
  analyze_redirect_chains ;;
  analyze_duplicate_titles ;;
  analyze_missing_meta_descriptions ;;
  analyze_missing_h1 ;;
  analyze_slow_pages ;;
  analyze_title_length ;;
  analyze_description_length ;;
  analyze_missing_alt_text ;;
  analyze_multiple_h1.

(** [run_analysis]; [today] is what [datetime.now().strftime("%Y-%m-%d")]
    answers. *)
Definition run_analysis (today : string) : M unit :=
  run_checks ;;
  sort_issues ;;
  b <- get_issues ;;
  top <- _get_highest_impact_issues 3 ;;
  set_summary
    {| total_issues := list_sum (map (fun c => length (bucket c b)) categories);
       critical_count := length (critical b);
       high_count := length (high b);
       medium_count := length (medium b);
       low_count := length (low b);
       date := today;
       highest_impact_issues := top |}.

(** ** The export loader

    Python's [str] methods used by [load_files], on strings of ASCII
    characters. *)

Definition lower_ascii (c : ascii) : ascii :=
  let n := nat_of_ascii c in
  if (65 <=? n)%nat && (n <=? 90)%nat then ascii_of_nat (n + 32) else c.

Definition upper_ascii (c : ascii) : ascii :=
  let n := nat_of_ascii c in
  if (97 <=? n)%nat && (n <=? 122)%nat then ascii_of_nat (n - 32) else c.

(** [s.lower()] *)
Fixpoint lower (s : string) : string :=
  match s with
  | EmptyString => EmptyString
  | String c s' => String (lower_ascii c) (lower s')
  end.

(** [s.capitalize()] *)
Definition capitalize (s : string) : string :=
  match s with
  | EmptyString => EmptyString
  | String c s' => String (upper_ascii c) (lower s')
  end.

(** [pat in s] *)
Fixpoint contains (pat s : string) : bool :=
  String.prefix pat s ||
  match s with
  | EmptyString => false
  | String _ s' => contains pat s'
  end.

(** [s.endswith(suffix)] *)
Definition endswith (s suffix : string) : bool :=
  let n := String.length s in
  let k := String.length suffix in
  (k <=? n)%nat && String.eqb (String.substring (n - k) k s) suffix.

(** [s.replace(old, new)] for a non-empty [old]: [skip] counts the
    characters of the occurrence of [old] being dropped. *)
Fixpoint replace_from (old new : string) (skip : nat) (s : string) : string :=
  match s with
  | EmptyString => EmptyString
  | String c s' =>
      match skip with
      | S skip' => replace_from old new skip' s'
      | O =>
          if String.prefix old s
          then String.append new (replace_from old new (String.length old - 1) s')
          else String c (replace_from old new 0 s')
      end
  end.

Definition replace (old new s : string) : string := replace_from old new 0 s.

(** [os.path.join(dir, name)] for a relative [name], POSIX separators. *)
Definition path_join (dir name : string) : string :=
  if String.eqb dir "" then name
  else if endswith dir "/" then String.append dir name
  else String.append dir (String.append "/" name).

(** [d[k] = v] on a dictionary in insertion order. *)
Fixpoint dict_set {V} (d : list (string * V)) (k : string) (v : V) : list (string * V) :=
  match d with
  | [] => [(k, v)]
  | (k', v') :: d' =>
      if String.eqb k k' then (k, v) :: d' else (k', v') :: dict_set d' k v
  end.

(** What the loader reads from the machine: [os.listdir] answers the names
    in a directory or raises, [pd.read_csv(path, encoding=e)] answers a
    frame or raises. *)
Record FileSystem : Type := {
  listdir : string -> result (list string);
  read_csv : string -> string -> result DataFrame
}.

Definition expected_files : list string :=
  [ "internal_all.csv"; "internal_html.csv"; "response_codes.csv";
    "page_titles.csv"; "meta_description.csv"; "h1.csv"; "images.csv";
    "redirect_chains.csv"; "all_inlinks.csv"; "page_speed.csv" ].

(** The loop [for expected in expected_files] with its [break]. *)
Fixpoint match_expected (expected : list string) (filename file_path : string)
    (fl : list (string * string)) : list (string * string) :=
  match expected with
  | [] => fl
  | e :: expected' =>
      if contains (lower e) (lower filename)
      then dict_set fl (replace ".csv" "" e) file_path
      else match_expected expected' filename file_path fl
  end.

(** The loop [for filename in os.listdir(self.export_dir)]. *)
Definition discover (dir : string) (names : list string)
    (fl : list (string * string)) : list (string * string) :=
  fold_left
    (fun fl filename =>
       if endswith filename ".csv"
       then match_expected expected_files filename (path_join dir filename) fl
       else fl)
    names fl.

(** One turn of the loop [for key, file_path in self.files.items()]: the
    nested [try] blocks around the two [pd.read_csv] calls. *)
Definition load_one (fs : FileSystem) (d : gmap string DataFrame)
    (item : string * string) : gmap string DataFrame :=
  let (key, file_path) := item in
  match read_csv fs file_path "utf-8" with
  | Ok df => <[key := df]> d
  | Err _ =>
      match read_csv fs file_path "latin1" with
      | Ok df => <[key := df]> d
      | Err _ => d
      end
  end.

(** [load_files]: the body of the outer [try], then its [except] clause. *)
Definition load_files (fs : FileSystem) (self : SEOAuditAutomation)
    : bool * SEOAuditAutomation :=
  match listdir fs (export_dir self) with
  | Ok names =>
      let fl := discover (export_dir self) names (files self) in
      (true,
       {| export_dir := export_dir self; files := fl;
          data := fold_left (load_one fs) fl (data self);
          issues := issues self; summary := summary self |})
  | Err _ => (false, self)
  end.

(** ** The spreadsheet report of [workflow.py] *)

Inductive xl_value : Type :=
| XlStr (s : string)
| XlInt (n : Z)
| XlNat (n : nat)
| XlFloat (f : float)
| XlCell (c : cell).

Record sheet : Type := {
  sheet_name : string;
  header : list string;
  body : list (list xl_value)
}.

Definition category_name (c : category) : string :=
  match c with
  | Critical => "critical"
  | High => "high"
  | Medium => "medium"
  | Low => "low"
  end.

(** The dictionary appended to [issue_data] for one issue and one example. *)
Definition issue_row (i : issue) (example : cell) : list xl_value :=
  [ XlStr (title i); XlCell example; XlInt (impact i); XlInt (effort i);
    XlFloat (priority_score i); XlStr (recommendation i) ].

(** The two nested loops that fill [issue_data]. *)
Definition issue_data (l : list issue) : list (list xl_value) :=
  flat_map (fun i => map (issue_row i) (examples i)) l.

Definition issue_header : list string :=
  [ "Issue Type"; "URL"; "Impact (1-10)"; "Effort (1-10)"; "Priority Score";
    "Recommendation" ].

(** One turn of the loop [for category in categories]: the sheets it adds
    to the workbook. *)
Definition category_sheets (b : buckets) (c : category) : list sheet :=
  if negb (length (bucket c b) =? 0)%nat then
    let rows := issue_data (bucket c b) in
    if negb (length rows =? 0)%nat then
      [ {| sheet_name := capitalize (category_name c);
           header := issue_header; body := rows |} ]
    else []
  else [].

Definition summary_sheet (domain : string) (s : summary_dict) : sheet :=
  {| sheet_name := "Summary";
     header := ["Metric"; "Value"];
     body :=
       [ [XlStr "Domain"; XlStr domain];
         [XlStr "Audit Date"; XlStr (date s)];
         [XlStr "Total Issues"; XlNat (total_issues s)];
         [XlStr "Critical Issues"; XlNat (critical_count s)];
         [XlStr "High Priority Issues"; XlNat (high_count s)];
         [XlStr "Medium Priority Issues"; XlNat (medium_count s)];
         [XlStr "Low Priority Issues"; XlNat (low_count s)] ] |}.

(** [generate_excel_report]: the workbook written for the report
    [{summary, issues}] read back from the JSON file. *)
Definition generate_excel_report (domain : string) (s : summary_dict)
    (b : buckets) : list sheet :=
  summary_sheet domain s :: flat_map (category_sheets b) categories.

(** ** Integers as text *)

(** [str(n)] for an integer *)
Definition str_int (n : Z) : string := NilZero.string_of_int (Z.to_int n).

(** ** Exceptions of every class, and how a call ends *)

Inductive exception : Type :=
| Exn (e : exn)                 (* an exception of the audit's own code *)
| ValueError (message : string)
| IndexError (message : string)
| AttributeError                (* a method asked of a value that has none *)
| OverflowError
| OtherError (class : string).  (* any other class, raised by a library *)

Inductive outcome (A : Type) : Type :=
| Returns (a : A)
| Raises (e : exception).
Arguments Returns {A} a.
Arguments Raises {A} e.

Definition obind {A B} (o : outcome A) (k : A -> outcome B) : outcome B :=
  match o with
  | Returns a => k a
  | Raises e => Raises e
  end.

Definition of_result {A} (r : result A) : outcome A :=
  match r with
  | Ok a => Returns a
  | Err e => Raises (Exn e)
  end.

Declare Scope outcome_scope.
Delimit Scope outcome_scope with outcome.
Notation "x <- o ;; k" := (obind o (fun x => k))
  (at level 100, o at next level, right associativity) : outcome_scope.
Notation "o ;; k" := (obind o (fun _ => k))
  (at level 100, right associativity) : outcome_scope.

(** ** The crawler's HTTP control API *)

Module ScreamingFrogAPI.

(** A value inside a JSON object or array.  The client compares such a
    value with strings, tests it for truth and renders it in a URL. *)
Inductive json : Type :=
| JNull
| JBool (b : bool)
| JNum (n : Z)
| JStr (s : string).

#[global] Instance json_eq_dec : EqDecision json.
Proof. solve_decision. Defined.

(** What [response.json()] makes of the body of a reply: an object, an
    array, or a value that is neither.  Nothing makes the remote tool
    answer with an object. *)
Inductive reply_body : Type :=
| JObject (fields : list (string * json))
| JArray (items : list json)
| JScalar (v : json).

(** A response of the remote tool: its status code and its body. *)
Record response : Type := {
  status_code : Z;
  json_body : reply_body
}.

(** The remote tool and the clock, as the client sees them: what the [k]-th
    HTTP call of a run gives for a method and a URL, and the seconds that
    call takes.  [None] stands for a call that raises
    [requests.exceptions.RequestException], the class of every exception
    [requests] raises (no connection, time-out, a body that is not JSON). *)
Record World : Type := {
  requests_call : nat -> string -> string -> option response;
  latency : nat -> Z
}.

(** An instance of [ScreamingFrogAPI]. *)
Record client : Type := {
  api_url : string
}.

(** [_make_request]: Python's [None] for an unsupported method, a status
    code other than 200 and a request exception, and for the body [null],
    which [response.json()] reads as [None]. *)
Definition _make_request (self : client) (w : World) (k : nat)
    (endpoint method : string) : option reply_body :=
  let url := String.append (api_url self) (String.append "/" endpoint) in
  if String.eqb method "GET" || String.eqb method "POST" then
    match requests_call w k method url with
    | Some r =>
        if (status_code r =? 200)%Z then
          match json_body r with
          | JScalar JNull => None
          | b => Some b
          end
        else None
    | None => None
    end
  else None.

(** [get_crawl_status] *)
Definition get_crawl_status (self : client) (w : World) (k : nat)
    (crawl_id : string) : option reply_body :=
  _make_request self w k (String.append "crawl/" crawl_id) "GET".

(** [bool(v)] *)
Definition truthy (v : json) : bool :=
  match v with
  | JNull => false
  | JBool b => b
  | JNum n => negb (n =? 0)%Z
  | JStr s => negb (String.eqb s EmptyString)
  end.

(** [bool(response)] for what [_make_request] returns: [None], an empty
    object, an empty array and a false value are false. *)
Definition true_reply (response : option reply_body) : bool :=
  match response with
  | None => false
  | Some (JObject d) => negb (length d =? 0)%nat
  | Some (JArray l) => negb (length l =? 0)%nat
  | Some (JScalar v) => truthy v
  end.

(** [d.get(key, default)] on a dictionary *)
Fixpoint dict_get_default (d : list (string * json)) (key : string) (default : json) : json :=
  match d with
  | [] => default
  | (k, v) :: d' => if String.eqb key k then v else dict_get_default d' key default
  end.

(** [response.get(key, default)]: only a dictionary has the method. *)
Definition get (response : reply_body) (key : string) (default : json) : outcome json :=
  match response with
  | JObject d => Returns (dict_get_default d key default)
  | _ => Raises AttributeError
  end.

(** The longest sleep, in seconds: a time is a signed 64-bit number of
    nanoseconds. *)
Definition sleep_max : Z := 9223372036.

(** [time.sleep(secs)] for an integer, by its result: [OverflowError] when
    the length does not fit a time, [ValueError] when it is negative. *)
Definition time_sleep (secs : Z) : outcome unit :=
  if (secs <? - sleep_max)%Z || (sleep_max <? secs)%Z then Raises OverflowError
  else if (secs <? 0)%Z then Raises (ValueError "sleep length must be non-negative")
  else Returns tt.

Definition failure_statuses : list json :=
  [JStr "FAILED"; JStr "STOPPED"; JStr "INTERRUPTED"].

(** The [while True] loop of [wait_for_crawl_completion].  [polls] is the
    number of requests made so far, [now] the clock; the answer is what
    the method returns or raises, with the number of requests made, or
    [None] when [fuel] turns of the loop were not enough. *)
Fixpoint wait_loop (self : client) (w : World) (crawl_id : string)
    (check_interval timeout start_time : Z)
    (fuel polls : nat) (now : Z) : option (outcome bool * nat) :=
  match fuel with
  | O => None
  | S fuel' =>
      let elapsed_time := (now - start_time)%Z in
      if (timeout <? elapsed_time)%Z then Some (Returns false, polls)
      else
        let status := get_crawl_status self w polls crawl_id in
        let now := (now + latency w polls)%Z in
        if negb (true_reply status) then Some (Returns false, S polls)
        else
          match status with
          | None => Some (Returns false, S polls)
          | Some status =>
              match get status "status" (JStr "") with
              | Raises e => Some (Raises e, S polls)
              | Returns crawl_status =>
                  if bool_decide (crawl_status = JStr "FINISHED")
                  then Some (Returns true, S polls)
                  else if bool_decide (crawl_status ∈ failure_statuses)
                  then Some (Returns false, S polls)
                  else
                    match time_sleep check_interval with
                    | Raises e => Some (Raises e, S polls)
                    | Returns _ =>
                        wait_loop self w crawl_id check_interval timeout start_time
                          fuel' (S polls) (now + check_interval)%Z
                    end
              end
          end
  end.

(** [wait_for_crawl_completion], entered when the clock reads [now]. *)
Definition wait_for_crawl_completion (self : client) (w : World)
    (crawl_id : string) (check_interval timeout : Z)
    (fuel : nat) (now : Z) : option (outcome bool * nat) :=
  wait_loop self w crawl_id check_interval timeout now fuel 0 now.

(** The defaults of its signature, in seconds. *)
Definition default_check_interval : Z := 10.
Definition default_timeout : Z := 3600.

(** *** The other calls of the client *)

(** [str(v)], as an f-string renders a value. *)
Definition str (v : json) : string :=
  match v with
  | JNull => "None"
  | JBool true => "True"
  | JBool false => "False"
  | JNum n => str_int n
  | JStr s => s
  end.

(** [key in d] for a dictionary *)
Definition has_key (d : list (string * json)) (key : string) : bool :=
  existsb (fun item => String.eqb key (fst item)) d.

(** [response.get("status") == "OK"] on a dictionary *)
Definition status_ok (response : list (string * json)) : bool :=
  bool_decide (dict_get_default response "status" JNull = JStr "OK").

(** [check_status]: request [k] of the run.  Its [try] has a bare
    [except]: the [AttributeError] of a reply that is no object makes it
    return [False], and no exception leaves it. *)
Definition check_status (self : client) (w : World) (k : nat) : bool :=
  match _make_request self w k "status" "GET" with
  | Some (JObject response) => status_ok response
  | _ => false
  end.

(** The dictionary [data] that [start_crawl] posts; [maxUrls] is [None] when
    the key is not set. *)
Record crawl_data : Type := {
  crawl_url : string;
  includeSubdomains : bool;
  followExternalNofollow : bool;
  maxUrls : option Z
}.

(** [response and "id" in response], then [response["id"]].  On an array
    [in] looks for an item equal to ["id"] and on a string for the
    substring; neither can be indexed by a string, and a number or [True]
    cannot be searched: [TypeError]. *)
Definition crawl_id_of (response : option reply_body) : outcome json :=
  if negb (true_reply response) then Returns JNull
  else
    match response with
    | None => Returns JNull
    | Some (JObject d) =>
        if has_key d "id" then Returns (dict_get_default d "id" JNull)
        else Returns JNull
    | Some (JArray l) =>
        if existsb (fun v => bool_decide (v = JStr "id")) l
        then Raises (Exn TypeError)
        else Returns JNull
    | Some (JScalar (JStr s)) =>
        if contains "id" s then Raises (Exn TypeError) else Returns JNull
    | Some (JScalar _) => Raises (Exn TypeError)
    end.

(** [start_crawl]: the crawl id, [JNull] for Python's [None], with the data
    posted.  [max_urls] is [None] or an integer. *)
Definition start_crawl (self : client) (w : World) (k : nat) (url : string)
    (max_urls : option Z) (include_subdomains follow_external_nofollow : bool)
    : outcome json * crawl_data :=
  let data :=
    {| crawl_url := url;
       includeSubdomains := include_subdomains;
       followExternalNofollow := follow_external_nofollow;
       maxUrls := match max_urls with
                  | Some n => if (n =? 0)%Z then None else Some n
                  | None => None
                  end |} in
  let response := _make_request self w k "crawl" "POST" in
  (crawl_id_of response, data).

(** The tabs [export_individual_tabs] exports. *)
Definition tabs : list string :=
  [ "Internal:All"; "Internal:HTML"; "Response Codes"; "Page Titles";
    "Meta Description"; "H1"; "Images"; "Redirect Chains"; "All Inlinks";
    "Page Speed" ].

(** The dictionary [data] of an export request. *)
Record export_data : Type := {
  export_id : json;
  export_format : string;
  export_path : string;
  export_tabs : list string
}.

(** [tab.replace(":", "_").replace(" ", "_").lower()] *)
Definition tab_filename (tab : string) : string :=
  lower (replace " " "_" (replace ":" "_" tab)).

(** The file name of a tab's export: the f-string
    [{tab_filename}.{export_format}]. *)
Definition tab_file (export_format tab : string) : string :=
  String.append (tab_filename tab) (String.append "." export_format).

(** [not response or response.get("status") != "OK"]: whether the export
    has failed. *)
Definition export_failed (response : option reply_body) : outcome bool :=
  if negb (true_reply response) then Returns true
  else
    match response with
    | None => Returns true
    | Some response =>
        match get response "status" JNull with
        | Raises e => Raises e
        | Returns v => Returns (negb (bool_decide (v = JStr "OK")))
        end
    end.

(** The loop [for tab in tabs] of [export_individual_tabs], entered with
    [k] requests made and the flag [success]: the flag at the end, or the
    exception that ends the loop, with the data posted, in order. *)
Fixpoint export_loop (self : client) (w : World) (crawl_id : json)
    (output_dir export_format : string) (tabs : list string) (k : nat)
    (success : bool) : outcome bool * list export_data :=
  match tabs with
  | [] => (Returns success, [])
  | tab :: tabs' =>
      let file_path := path_join output_dir (tab_file export_format tab) in
      let data :=
        {| export_id := crawl_id; export_format := export_format;
           export_path := file_path; export_tabs := [tab] |} in
      let response := _make_request self w k "export" "POST" in
      match export_failed response with
      | Raises e => (Raises e, [data])
      | Returns failed =>
          let success := if failed then false else success in
          let (answer, posted) :=
            export_loop self w crawl_id output_dir export_format tabs' (S k) success in
          (answer, data :: posted)
      end
  end.

(** [export_individual_tabs], entered with [k] requests made; [makedirs]
    stands for [os.makedirs(path, exist_ok=True)], which returns or
    raises. *)
Definition export_individual_tabs (makedirs : string -> result unit)
    (self : client) (w : World) (k : nat) (crawl_id : json)
    (output_dir export_format : string) : outcome bool * list export_data :=
  match makedirs output_dir with
  | Err e => (Raises (Exn e), [])
  | Ok _ => export_loop self w crawl_id output_dir export_format tabs k true
  end.

(** The remote tool as it is after [n] requests. *)
Definition after (n : nat) (w : World) : World :=
  {| requests_call := fun k => requests_call w (n + k);
     latency := fun k => latency w (n + k) |}.

(** [run_full_crawl_and_export], entered when the clock reads [now] and no
    request has been made: what it returns or raises, with the number of
    requests made; [None] when [fuel] turns of the waiting loop were not
    enough. *)
Definition run_full_crawl_and_export (makedirs : string -> result unit)
    (self : client) (w : World) (fuel : nat) (now : Z)
    (url output_dir : string) (max_urls : option Z) (export_format : string)
    : option (outcome bool * nat) :=
  if negb (check_status self w 0) then Some (Returns false, 1%nat)
  else
    match fst (start_crawl self w 1 url max_urls false false) with
    | Raises e => Some (Raises e, 2%nat)
    | Returns crawl_id =>
        if negb (truthy crawl_id) then Some (Returns false, 2%nat)
        else
          match wait_for_crawl_completion self (after 2 w) (str crawl_id)
                  default_check_interval default_timeout fuel
                  (now + latency w 0 + latency w 1)%Z with
          | None => None
          | Some (Raises e, polls) => Some (Raises e, (2 + polls)%nat)
          | Some (Returns false, polls) => Some (Returns false, (2 + polls)%nat)
          | Some (Returns true, polls) =>
              match makedirs output_dir with
              | Err e => Some (Raises (Exn e), (2 + polls)%nat)
              | Ok _ =>
                  let (answer, posted) :=
                    export_individual_tabs makedirs self w (2 + polls) crawl_id
                      output_dir export_format in
                  Some (answer, (2 + polls + length posted)%nat)
              end
          end
    end.

End ScreamingFrogAPI.

(** * The report writers and the workflows

    [generate_report], [generate_charts] and [generate_html_report] of
    [seo_audit_automation.py], class [SEOWorkflow] of [workflow.py], class
    [ScreamingFrogAutomation] of [screaming_frog_automation.py] and class
    [EndToEndSEOWorkflow] of [full_workflow.py]. *)

(** ** What the programs ask of the machine and of their libraries

    Every field stands for calls the programs make and this development does
    not look into; an answer is the one the machine gives when the program
    asks.  The programs ask the same question twice only where their own
    actions in between leave the answer as it was. *)

(** The object [json.dump] writes and [json.load] reads back. *)
Record report : Type := {
  report_summary : option summary_dict;
  report_issues : buckets
}.

(** What [generate_charts] draws: the bar of each category and, for each of
    the top issues, its title, impact and effort. *)
Record chart : Type := {
  chart_file : string;
  category_bars : list (string * nat);
  top_bars : list (string * Z * Z)
}.

(** The message [send_email_report] builds; an attachment is a file name
    with the bytes read from the file. *)
Record message : Type := {
  msg_from : string;
  msg_to : string;
  msg_subject : string;
  msg_body : string;
  msg_attachments : list (string * string)
}.

(** A value handed to [str.format]. *)
Inductive pyvalue : Type :=
| PyStr (s : string)
| PyInt (n : Z).

Record Platform : Type := {
  (* [os.makedirs(path, exist_ok=True)] *)
  os_makedirs : string -> outcome unit;
  (* [os.path.exists(path)] *)
  os_path_exists : string -> bool;
  (* [os.name] *)
  os_name : string;
  (* [os.listdir] and [pd.read_csv] *)
  file_system : FileSystem;
  (* [shutil.copy2(src, dst)] *)
  shutil_copy2 : string -> string -> outcome unit;
  (* [open(path, "w")] and [json.dump(report, f)] *)
  json_dump : string -> report -> outcome unit;
  (* [open(path, "r")] and [json.load(f)] *)
  json_load : string -> outcome report;
  (* [open(path, "w")] and [f.write(text)] *)
  write_text : string -> string -> outcome unit;
  (* [open(path, "rb")] and [f.read()] *)
  read_bytes : string -> outcome string;
  (* [plt.subplots(2, 1, figsize=(12, 10))] *)
  plt_subplots : outcome unit;
  (* the drawing calls on the axes, [plt.savefig] and [plt.close] *)
  plt_savefig : chart -> outcome unit;
  (* [pd.ExcelWriter(path, engine='xlsxwriter')] *)
  excel_writer : string -> outcome unit;
  (* the [to_excel] and formatting calls, and [writer.close()] *)
  excel_close : string -> list sheet -> outcome unit;
  (* [smtplib.SMTP(server, port)], [starttls], [login(user, password)],
     [send_message(msg)], [quit] *)
  smtp_send : string -> Z -> string -> string -> message -> outcome unit;
  (* [subprocess.Popen(cmd)], reading its output to the end, and
     [process.wait()]: the return code *)
  subprocess_run : list string -> outcome Z;
  (* what [str.format] makes of a value, for a replacement field that says
     more than a name: the rest of the field name, the conversion, the
     format specification *)
  format_field : pyvalue -> string -> option ascii -> string -> outcome string
}.

(** ** Python's [str.format]

    The format string is read from left to right, as CPython 3.8 and later
    do: literal text, doubled braces, and replacement fields
    [{name!conversion:spec}].  The values are the keyword arguments; no
    positional argument is given. *)

Local Open Scope char_scope.

(** Where the reader is in the format string. *)
Inductive reading : Type :=
| Literal                                         (* in literal text *)
| Opening                                         (* after a [{] *)
| Closing                                         (* after a [}] *)
| FieldName (name : string) (bracket : bool)      (* in a field name *)
| Conversion (name : string)                      (* after the [!] *)
| Converted (name : string) (conversion : ascii)  (* after the conversion *)
| Spec (name : string) (conversion : option ascii) (spec : string)
       (depth : nat).                             (* in a specification *)

Local Close Scope char_scope.

Definition snoc (s : string) (c : ascii) : string :=
  String.append s (String c EmptyString).

Definition is_digit (c : ascii) : bool :=
  let n := nat_of_ascii c in (48 <=? n)%nat && (n <=? 57)%nat.

Fixpoint all_digits (s : string) : bool :=
  match s with
  | EmptyString => true
  | String c s' => is_digit c && all_digits s'
  end.

(** The number a string of digits writes. *)
Fixpoint digits_value (acc : Z) (s : string) : Z :=
  match s with
  | EmptyString => acc
  | String c s' => digits_value (acc * 10 + Z.of_nat (nat_of_ascii c - 48)) s'
  end.

(** The first part of a field name, up to the first [.] or [[], and what
    follows it. *)
Fixpoint split_name (s : string) : string * string :=
  match s with
  | EmptyString => (EmptyString, EmptyString)
  | String c s' =>
      if Ascii.eqb c "."%char || Ascii.eqb c "["%char then (EmptyString, s)
      else let (first, rest) := split_name s' in (String c first, rest)
  end.

(** [kwargs.get(key)] *)
Fixpoint kwarg (kwargs : list (string * pyvalue)) (key : string) : option pyvalue :=
  match kwargs with
  | [] => None
  | (k, v) :: kwargs' => if String.eqb key k then Some v else kwarg kwargs' key
  end.

(** [str(v)] *)
Definition py_str (v : pyvalue) : string :=
  match v with
  | PyStr s => s
  | PyInt n => str_int n
  end.

(** The largest index of a sequence, [sys.maxsize] on a 64-bit machine. *)
Definition PY_SSIZE_T_MAX : Z := 9223372036854775807.

(** The text of a replacement field, once it is read to its closing brace.
    An empty name or a number asks for a positional argument, and there is
    none; any other name is looked up in the keyword arguments. *)
Definition replacement (os : Platform) (kwargs : list (string * pyvalue))
    (name : string) (conversion : option ascii) (spec : string)
    : outcome string :=
  let (first, rest) := split_name name in
  if String.eqb first EmptyString then
    Raises (IndexError "Replacement index 0 out of range for positional args tuple")
  else if all_digits first then
    if (PY_SSIZE_T_MAX <? digits_value 0 first)%Z
    then Raises (ValueError "Too many decimal digits in format string")
    else Raises (IndexError "Replacement index out of range for positional args tuple")
  else
    match kwarg kwargs first with
    | None => Raises (Exn (KeyError first))
    | Some v =>
        match rest, conversion, spec with
        | EmptyString, None, EmptyString => Returns (py_str v)
        | _, _, _ => format_field os v rest conversion spec
        end
    end.

(** What reading one more character does: go on in a new state with the
    text made so far, fill in a replacement field and go on with literal
    text, or fail. *)
Inductive step : Type :=
| Goto (state : reading) (out : string)
| Replace (name : string) (conversion : option ascii) (spec : string)
| Fail (message : string).

(** A character of a field name, outside brackets. *)
Definition name_step (name out : string) (c : ascii) : step :=
  if Ascii.eqb c "{"%char then Fail "unexpected '{' in field name"
  else if Ascii.eqb c "["%char then Goto (FieldName (snoc name c) true) out
  else if Ascii.eqb c "}"%char then Replace name None EmptyString
  else if Ascii.eqb c ":"%char then Goto (Spec name None EmptyString 1) out
  else if Ascii.eqb c "!"%char then Goto (Conversion name) out
  else Goto (FieldName (snoc name c) false) out.

Definition read (state : reading) (out : string) (c : ascii) : step :=
  let opens := Ascii.eqb c "{"%char in
  let closes := Ascii.eqb c "}"%char in
  match state with
  | Literal =>
      if opens then Goto Opening out
      else if closes then Goto Closing out
      else Goto Literal (snoc out c)
  | Opening =>
      if opens then Goto Literal (snoc out c)
      else name_step EmptyString out c
  | Closing =>
      if closes then Goto Literal (snoc out c)
      else Fail "Single '}' encountered in format string"
  | FieldName name true =>
      Goto (FieldName (snoc name c) (negb (Ascii.eqb c "]"%char))) out
  | FieldName name false => name_step name out c
  | Conversion name => Goto (Converted name c) out
  | Converted name conversion =>
      if closes then Replace name (Some conversion) EmptyString
      else if Ascii.eqb c ":"%char
      then Goto (Spec name (Some conversion) EmptyString 1) out
      else Fail "expected ':' after conversion specifier"
  | Spec name conversion spec depth =>
      if opens then Goto (Spec name conversion (snoc spec c) (S depth)) out
      else if closes then
        match depth with
        | 0%nat | 1%nat => Replace name conversion spec
        | S depth' => Goto (Spec name conversion (snoc spec c) depth') out
        end
      else Goto (Spec name conversion (snoc spec c) depth) out
  end.

(** The end of the format string. *)
Definition finish (state : reading) (out : string) : outcome string :=
  match state with
  | Literal => Returns out
  | Opening => Raises (ValueError "Single '{' encountered in format string")
  | Closing => Raises (ValueError "Single '}' encountered in format string")
  | FieldName _ _ => Raises (ValueError "expected '}' before end of string")
  | Conversion _ =>
      Raises (ValueError "end of string while looking for conversion specifier")
  | Converted _ _ => Raises (ValueError "unmatched '{' in format spec")
  | Spec _ _ _ _ => Raises (ValueError "unmatched '{' in format spec")
  end.

(** The reader: [out] is the text made so far. *)
Fixpoint format_from (os : Platform) (kwargs : list (string * pyvalue))
    (state : reading) (out : string) (s : string) : outcome string :=
  match s with
  | EmptyString => finish state out
  | String c s' =>
      match read state out c with
      | Goto state' out' => format_from os kwargs state' out' s'
      | Replace name conversion spec =>
          (text <- replacement os kwargs name conversion spec ;;
           format_from os kwargs Literal (String.append out text) s')%outcome
      | Fail message => Raises (ValueError message)
      end
  end.

(** [template.format] with keyword arguments *)
Definition format (os : Platform) (template : string)
    (kwargs : list (string * pyvalue)) : outcome string :=
  format_from os kwargs Literal EmptyString template.

(** ** The report writers of [SEOAuditAutomation] *)

Local Open Scope outcome_scope.

(** The characters a Rocq string cannot spell. *)
Definition dq : string := String (ascii_of_nat 34) EmptyString.
Definition newline : string := String (ascii_of_nat 10) EmptyString.

(** [self.summary[key]]: the summary is the empty dictionary until
    [run_analysis] has stored one with all its keys. *)
Definition summary_get (self : SEOAuditAutomation) (key : string)
    : outcome summary_dict :=
  match summary self with
  | Some s => Returns s
  | None => Raises (Exn (KeyError key))
  end.

(** [generate_report]; [timestamp] is what
    [datetime.now().strftime("%Y%m%d_%H%M%S")] answers. *)
Definition generate_report (os : Platform) (timestamp output_dir : string)
    (self : SEOAuditAutomation) : outcome string :=
  os_makedirs os output_dir ;;
  let report_file :=
    path_join output_dir
      (String.concat EmptyString ["seo_audit_report_"; timestamp; ".json"]) in
  let report :=
    {| report_summary := summary self; report_issues := issues self |} in
  json_dump os report_file report ;;
  Returns report_file.

(** [generate_charts] *)
Definition generate_charts (os : Platform) (timestamp output_dir : string)
    (self : SEOAuditAutomation) : outcome string :=
  os_makedirs os output_dir ;;
  let charts_file :=
    path_join output_dir
      (String.concat EmptyString ["seo_audit_charts_"; timestamp; ".png"]) in
  plt_subplots os ;;
  s <- summary_get self "critical_count" ;;
  let top_issues := highest_impact_issues s in
  plt_savefig os
    {| chart_file := charts_file;
       category_bars :=
         [ ("Critical", critical_count s); ("High", high_count s);
           ("Medium", medium_count s); ("Low", low_count s) ];
       top_bars := map (fun i => (title i, impact i, effort i)) top_issues |} ;;
  Returns charts_file.

(** The template of the HTML report. *)
Definition html_template : string :=
  String.concat dq
   [ "
        <!DOCTYPE html>
        <html lang=";
     "en";
     ">
        <head>
            <meta charset=";
     "UTF-8";
     ">
            <meta name=";
     "viewport";
     " content=";
     "width=device-width, initial-scale=1.0";
     ">
            <title>SEO Audit Report</title>
            <style>
                body { font-family: Arial, sans-serif; line-height: 1.6; margin: 0; padding: 20px; color: #333; }
                .container { max-width: 1200px; margin: 0 auto; }
                h1 { color: #2c3e50; border-bottom: 2px solid #eee; padding-bottom: 10px; }
                h2 { color: #3498db; margin-top: 30px; }
                h3 { color: #2c3e50; }
                .summary { background-color: #f8f9fa; padding: 15px; border-radius: 5px; margin: 20px 0; }
                .summary-grid { display: grid; grid-template-columns: repeat(4, 1fr); gap: 10px; }
                .summary-item { text-align: center; padding: 15px; border-radius: 5px; }
                .critical { background-color: #f8d7da; color: #721c24; }
                .high { background-color: #fff3cd; color: #856404; }
                .medium { background-color: #d1ecf1; color: #0c5460; }
                .low { background-color: #d4edda; color: #155724; }
                .issue { margin-bottom: 30px; padding: 15px; border-radius: 5px; border-left: 5px solid #ddd; }
                .issue.critical { border-left-color: #dc3545; }
                .issue.high { border-left-color: #ffc107; }
                .issue.medium { border-left-color: #17a2b8; }
                .issue.low { border-left-color: #28a745; }
                .score-bar { display: flex; margin: 10px 0; }
                .score-impact, .score-effort { height: 20px; color: white; text-align: center; line-height: 20px; }
                .score-impact { background-color: #007bff; }
                .score-effort { background-color: #28a745; }
                .examples { background-color: #f8f9fa; padding: 10px; border-radius: 5px; font-family: monospace; overflow-x: auto; }
                .examples code { white-space: nowrap; }
                footer { margin-top: 30px; text-align: center; color: #6c757d; font-size: 0.9em; }
            </style>
        </head>
        <body>
            <div class=";
     "container";
     ">
                <h1>Technical SEO Audit Report</h1>
                <p>Generated on: {date}</p>
                
                <div class=";
     "summary";
     ">
                    <h2>Summary</h2>
                    <div class=";
     "summary-grid";
     ">
                        <div class=";
     "summary-item critical";
     ">
                            <h3>Critical Issues</h3>
                            <p>{critical_count}</p>
                        </div>
                        <div class=";
     "summary-item high";
     ">
                            <h3>High Priority</h3>
                            <p>{high_count}</p>
                        </div>
                        <div class=";
     "summary-item medium";
     ">
                            <h3>Medium Priority</h3>
                            <p>{medium_count}</p>
                        </div>
                        <div class=";
     "summary-item low";
     ">
                            <h3>Low Priority</h3>
                            <p>{low_count}</p>
                        </div>
                    </div>
                </div>
                
                {issues_html}
                
                <footer>
                    <p>This report was automatically generated by SEO Audit Automation Tool</p>
                </footer>
            </div>
        </body>
        </html>
        " ].

(** [sep.join(l)]: [TypeError] on an item that is not text. *)
Fixpoint join (sep : string) (l : list cell) : result string :=
  match l with
  | [] => Ok EmptyString
  | Str s :: l' =>
      match l' with
      | [] => Ok s
      | _ :: _ =>
          rbind (join sep l') (fun rest =>
            Ok (String.append s (String.append sep rest)))
      end
  | _ :: _ => Err TypeError
  end.

(** The f-string added to [issues_html] for one issue. *)
Definition issue_html (category_key : string) (i : issue) : outcome string :=
  joined <- of_result (join "<br>" (examples i)) ;;
  Returns (
  String.concat EmptyString
   [ "
                    <div class=";
     dq; "issue "; category_key; dq;
     ">
                        <h3>";
     title i; " ("; str_int (Z.of_nat (count i));
     " instances)</h3>
                        <p>";
     description i;
     "</p>
                        
                        <div class=";
     dq; "score-bar"; dq;
     ">
                            <div class=";
     dq; "score-impact"; dq; " style="; dq; "width: ";
     str_int (impact i * 10); "%;"; dq; ">Impact: "; str_int (impact i);
     "/10</div>
                        </div>
                        <div class=";
     dq; "score-bar"; dq;
     ">
                            <div class=";
     dq; "score-effort"; dq; " style="; dq; "width: ";
     str_int (effort i * 10); "%;"; dq; ">Effort: "; str_int (effort i);
     "/10</div>
                        </div>
                        
                        <h4>Recommendation:</h4>
                        <p>";
     recommendation i;
     "</p>
                        
                        <h4>Examples:</h4>
                        <div class=";
     dq; "examples"; dq;
     ">
                            <code>";
     joined;
     "</code>
                        </div>
                    </div>
                    " ]).

Definition category_title (c : category) : string :=
  match c with
  | Critical => "Critical Issues"
  | High => "High Priority Issues"
  | Medium => "Medium Priority Issues"
  | Low => "Low Priority Issues"
  end.

(** The loop [for issue in self.issues[category_key]]. *)
Fixpoint issues_html_of (category_key : string) (l : list issue)
    (issues_html : string) : outcome string :=
  match l with
  | [] => Returns issues_html
  | i :: l' =>
      block <- issue_html category_key i ;;
      issues_html_of category_key l' (String.append issues_html block)
  end.

(** The loop [for category_key, category_title in categories]. *)
Fixpoint issues_html_for (cs : list category) (b : buckets)
    (issues_html : string) : outcome string :=
  match cs with
  | [] => Returns issues_html
  | c :: cs' =>
      match bucket c b with
      | [] => issues_html_for cs' b issues_html
      | l =>
          let issues_html :=
            String.append issues_html
              (String.concat EmptyString ["<h2>"; category_title c; "</h2>"; newline]) in
          issues_html <- issues_html_of (category_name c) l issues_html ;;
          issues_html_for cs' b issues_html
      end
  end.

(** [generate_html_report] *)
Definition generate_html_report (os : Platform) (timestamp output_dir : string)
    (self : SEOAuditAutomation) : outcome string :=
  os_makedirs os output_dir ;;
  let report_file :=
    path_join output_dir
      (String.concat EmptyString ["seo_audit_report_"; timestamp; ".html"]) in
  issues_html <- issues_html_for categories (issues self) EmptyString ;;
  s <- summary_get self "date" ;;
  html_content <-
    format os html_template
      [ ("date", PyStr (date s));
        ("critical_count", PyInt (Z.of_nat (critical_count s)));
        ("high_count", PyInt (Z.of_nat (high_count s)));
        ("medium_count", PyInt (Z.of_nat (medium_count s)));
        ("low_count", PyInt (Z.of_nat (low_count s)));
        ("issues_html", PyStr issues_html) ] ;;
  write_text os report_file html_content ;;
  Returns report_file.

(** The clock readings of one audit: the date [run_analysis] stores and the
    time stamps of the three report files. *)
Record audit_clock : Type := {
  analysis_date : string;
  json_stamp : string;
  charts_stamp : string;
  html_stamp : string
}.

(** [os.path.join(a, b)], POSIX: an absolute [b] stands alone. *)
Definition os_path_join (a b : string) : string :=
  if String.prefix "/" b then b else path_join a b.

(** [os.path.basename(path)], POSIX: what follows the last [/]. *)
Fixpoint basename (path : string) : string :=
  match path with
  | EmptyString => EmptyString
  | String c path' =>
      if existsb (Ascii.eqb "/"%char) (list_ascii_of_string path')
      then basename path'
      else if Ascii.eqb c "/"%char then path' else path
  end.

(** ** [workflow.py]: class [SEOWorkflow] *)

Module SEOWorkflow.

Record workflow : Type := {
  domain : string;
  exports_path : string;
  timestamp : string;
  output_path : string;
  reports_path : string;
  report_files : list (string * string)
}.

Definition set_report_files (files : list (string * string)) (self : workflow)
    : workflow :=
  {| domain := domain self; exports_path := exports_path self;
     timestamp := timestamp self; output_path := output_path self;
     reports_path := reports_path self; report_files := files |}.

(** [SEOWorkflow(domain, exports_path, output_path)]; [now] is the time
    stamp read from the clock, [output_path] is [None] when not given. *)
Definition __init__ (os : Platform) (now : string) (domain exports_path : string)
    (output_path : option string) : outcome workflow :=
  let output_path :=
    match output_path with
    | Some p =>
        if String.eqb p EmptyString
        then os_path_join "outputs" (String.concat EmptyString [domain; "_"; now])
        else p
    | None => os_path_join "outputs" (String.concat EmptyString [domain; "_"; now])
    end in
  let reports_path := os_path_join output_path "reports" in
  os_makedirs os output_path ;;
  os_makedirs os reports_path ;;
  Returns {| domain := domain; exports_path := exports_path; timestamp := now;
             output_path := output_path; reports_path := reports_path;
             report_files := [] |}.

(** The loop of [copy_exports]. *)
Fixpoint copy_files (os : Platform) (src_dir dst_dir : string)
    (names : list string) : outcome unit :=
  match names with
  | [] => Returns tt
  | filename :: names' =>
      (if endswith filename ".csv"
       then shutil_copy2 os (os_path_join src_dir filename)
              (os_path_join dst_dir filename)
       else Returns tt) ;;
      copy_files os src_dir dst_dir names'
  end.

(** [copy_exports] *)
Definition copy_exports (os : Platform) (self : workflow) : outcome string :=
  let exports_dest := os_path_join (output_path self) "exports" in
  os_makedirs os exports_dest ;;
  names <- of_result (listdir (file_system os) (exports_path self)) ;;
  copy_files os (exports_path self) exports_dest names ;;
  Returns exports_dest.

(** What [run_audit] returns: [False], or the summary read back from the
    JSON report. *)
Inductive audit_answer : Type :=
| AuditFalse
| AuditSummary (summary : option summary_dict).

(** A method of the workflow ends with the instance it leaves. *)
Definition method (A : Type) : Type := outcome A * workflow.

(** [run_audit] *)
Definition run_audit (os : Platform) (clock : audit_clock) (self : workflow)
    (exports_dir : string) : method audit_answer :=
  let audit := init exports_dir in
  let (loaded, audit) := load_files (file_system os) audit in
  if negb loaded then (Returns AuditFalse, self)
  else
    match run_analysis (analysis_date clock) audit with
    | (Err e, _) => (Raises (Exn e), self)
    | (Ok _, audit) =>
        match generate_report os (json_stamp clock) (reports_path self) audit with
        | Raises e => (Raises e, self)
        | Returns json_report =>
        match generate_charts os (charts_stamp clock) (reports_path self) audit with
        | Raises e => (Raises e, self)
        | Returns charts_file =>
        match generate_html_report os (html_stamp clock) (reports_path self) audit with
        | Raises e => (Raises e, self)
        | Returns html_report =>
            let self :=
              set_report_files
                [("json", json_report); ("charts", charts_file); ("html", html_report)]
                self in
            match json_load os json_report with
            | Raises e => (Raises e, self)
            | Returns data => (Returns (AuditSummary (report_summary data)), self)
            end
        end end end
    end.

(** [generate_excel_report]: the workbook is the one the function of the
    same name above makes of the report read back. *)
Definition generate_excel_report (os : Platform) (self : workflow)
    : method string :=
  match dict_get (report_files self) "json" with
  | Err e => (Raises (Exn e), self)
  | Ok json_path =>
  match json_load os json_path with
  | Raises e => (Raises e, self)
  | Returns data =>
      let excel_path :=
        os_path_join (reports_path self)
          (String.concat EmptyString
             ["seo_audit_"; domain self; "_"; timestamp self; ".xlsx"]) in
      match excel_writer os excel_path with
      | Raises e => (Raises e, self)
      | Returns _ =>
      match report_summary data with
      | None => (Raises (Exn (KeyError "date")), self)
      | Some summary =>
          let book := generate_excel_report (domain self) summary (report_issues data) in
          match excel_close os excel_path book with
          | Raises e => (Raises e, self)
          | Returns _ =>
              (Returns excel_path,
               set_report_files (dict_set (report_files self) "excel" excel_path) self)
          end
      end end
  end end.

(** The loop [for report_type, file_path in self.report_files.items()]:
    the attachments, in order. *)
Fixpoint attachments (os : Platform) (files : list (string * string))
    : outcome (list (string * string)) :=
  match files with
  | [] => Returns []
  | (report_type, file_path) :: files' =>
      if os_path_exists os file_path then
        payload <- read_bytes os file_path ;;
        rest <- attachments os files' ;;
        Returns ((basename file_path, payload) :: rest)
      else attachments os files'
  end.

(** The body of the message. *)
Definition email_body (self : workflow) (summary : summary_dict) : string :=
  String.concat EmptyString
   [ "
        <html>
        <body>
            <h1>SEO Audit Report for ";
     domain self;
     "</h1>
            <p>Date: ";
     date summary;
     "</p>
            
            <h2>Summary of Findings</h2>
            <ul>
                <li><strong>Total Issues:</strong> ";
     str_int (Z.of_nat (total_issues summary));
     "</li>
                <li><strong>Critical Issues:</strong> ";
     str_int (Z.of_nat (critical_count summary));
     "</li>
                <li><strong>High Priority Issues:</strong> ";
     str_int (Z.of_nat (high_count summary));
     "</li>
                <li><strong>Medium Priority Issues:</strong> ";
     str_int (Z.of_nat (medium_count summary));
     "</li>
                <li><strong>Low Priority Issues:</strong> ";
     str_int (Z.of_nat (low_count summary));
     "</li>
            </ul>
            
            <p>Please see the attached reports for details.</p>
            
            <p>This report was automatically generated.</p>
        </body>
        </html>
        " ].

(** [send_email_report] *)
Definition send_email_report (os : Platform) (self : workflow)
    (recipients : list string) (smtp_server : string) (smtp_port : Z)
    (smtp_user smtp_password : string) : outcome bool :=
  json_path <- of_result (dict_get (report_files self) "json") ;;
  data <- json_load os json_path ;;
  summary <- match report_summary data with
             | Some summary => Returns summary
             | None => Raises (Exn (KeyError "date"))
             end ;;
  files <- attachments os (report_files self) ;;
  let msg :=
    {| msg_from := smtp_user;
       msg_to := String.concat ", " recipients;
       msg_subject :=
         String.concat EmptyString
           ["SEO Audit Report for "; domain self; " - "; timestamp self];
       msg_body := email_body self summary;
       msg_attachments := files |} in
  match smtp_send os smtp_server smtp_port smtp_user smtp_password msg with
  | Returns _ => Returns true
  | Raises _ => Returns false
  end.

(** The dictionary [email_config]. *)
Record email_config : Type := {
  recipients : list string;
  smtp_server : string;
  smtp_port : Z;
  smtp_user : string;
  smtp_password : string
}.

(** What [run_workflow] returns: [False], or the report files. *)
Inductive workflow_answer : Type :=
| WorkflowFalse
| ReportFiles (files : list (string * string)).

(** [run_workflow]; [email_config] is [None] when not given. *)
Definition run_workflow (os : Platform) (clock : audit_clock) (self : workflow)
    (send_email : bool) (config : option email_config) : method workflow_answer :=
  match copy_exports os self with
  | Raises e => (Raises e, self)
  | Returns exports_dir =>
  match run_audit os clock self exports_dir with
  | (Raises e, self) => (Raises e, self)
  | (Returns AuditFalse, self) | (Returns (AuditSummary None), self) =>
      (Returns WorkflowFalse, self)
  | (Returns (AuditSummary (Some _)), self) =>
  match generate_excel_report os self with
  | (Raises e, self) => (Raises e, self)
  | (Returns _, self) =>
      match (if send_email then config else None) with
      | Some c =>
          match send_email_report os self (recipients c) (smtp_server c)
                  (smtp_port c) (smtp_user c) (smtp_password c) with
          | Raises e => (Raises e, self)
          | Returns _ => (Returns (ReportFiles (report_files self)), self)
          end
      | None => (Returns (ReportFiles (report_files self)), self)
      end
  end end end.

End SEOWorkflow.

(** ** [screaming_frog_automation.py]: class [ScreamingFrogAutomation] *)

Module ScreamingFrogAutomation.

Record automation : Type := {
  sf_path : string
}.

(** [ScreamingFrogAutomation(sf_path)]; [sf_path] is [None] when not given.
    On a system that is neither Windows nor POSIX the path stays [None] and
    [os.path.exists(None)] raises [TypeError]. *)
Definition __init__ (os : Platform) (sf_path : option string) : outcome automation :=
  match sf_path with
  | Some p => Returns {| sf_path := p |}
  | None =>
      if String.eqb (os_name os) "nt" then
        Returns {| sf_path := "C:\Program Files\Screaming Frog SEO Spider\ScreamingFrogSEOSpiderCli.exe" |}
      else if String.eqb (os_name os) "posix" then
        if os_path_exists os "/Applications/Screaming Frog SEO Spider.app"
        then Returns {| sf_path := "/Applications/Screaming Frog SEO Spider.app/Contents/MacOS/ScreamingFrogSEOSpiderCli" |}
        else Returns {| sf_path := "/usr/bin/screamingfrogseospider" |}
      else Raises (Exn TypeError)
  end.

(** [if config_file and os.path.exists(config_file)]: the two words added
    to the command. *)
Definition config_option (os : Platform) (config_file : option string)
    : list string :=
  match config_file with
  | Some f =>
      if negb (String.eqb f EmptyString) && os_path_exists os f
      then ["--config"; f]
      else []
  | None => []
  end.

(** The [try] block of the three methods up to the test of the return
    code: [true] when the method returns [False] there, on an exception or
    on a return code other than 0. *)
Definition crawl_failed (os : Platform) (cmd : list string) : bool :=
  match subprocess_run os cmd with
  | Returns code => negb (code =? 0)%Z
  | Raises _ => true
  end.

(** [run_crawl] *)
Definition run_crawl (os : Platform) (self : automation)
    (url output_dir : string) (config_file : option string)
    (max_urls : option Z) (crawl_settings : list (string * pyvalue))
    : outcome bool :=
  os_makedirs os output_dir ;;
  let cmd :=
    ([sf_path self; "--headless"; "--crawl"; url; "--output-folder"; output_dir]
     ++ config_option os config_file
     ++ match max_urls with
        | Some n => if (n =? 0)%Z then [] else ["--bulk-max-urls"; str_int n]
        | None => []
        end
     ++ flat_map (fun item => [String.append "--" (fst item); py_str (snd item)])
          crawl_settings)%list in
  if crawl_failed os cmd then Returns false
  else
    match listdir (file_system os) output_dir with
    | Err _ => Returns false
    | Ok names => Returns (existsb (fun file => endswith file ".csv") names)
    end.

(** The tabs exported when none are given. *)
Definition default_export_tabs : list string :=
  [ "Internal:All"; "Internal:HTML"; "Response Codes"; "Page Titles";
    "Meta Description"; "H1"; "H2"; "Images"; "CSS"; "JavaScript";
    "Directives"; "Canonicals"; "Pagination"; "Hreflang"; "Structured Data";
    "Redirect Chains"; "All Inlinks"; "All Outlinks"; "Page Speed" ].

(** The loop that looks for the export of each tab: [None] when
    [os.listdir] raises, else the flag [exports_created]. *)
Fixpoint exports_found (os : Platform) (output_dir : string)
    (export_tabs : list string) (exports_created : bool) : option bool :=
  match export_tabs with
  | [] => Some exports_created
  | tab :: export_tabs' =>
      let tab_name := lower (replace ":" "_" tab) in
      match listdir (file_system os) output_dir with
      | Err _ => None
      | Ok names =>
          let found :=
            existsb (fun file => contains tab_name (lower file) && endswith file ".csv")
              names in
          exports_found os output_dir export_tabs' (found || exports_created)
      end
  end.

(** [run_crawl_with_exports]; [export_tabs] is [None] when not given. *)
Definition run_crawl_with_exports (os : Platform) (self : automation)
    (url output_dir : string) (export_tabs : option (list string))
    (config_file : option string) : outcome bool :=
  let export_tabs :=
    match export_tabs with
    | Some l => l
    | None => default_export_tabs
    end in
  os_makedirs os output_dir ;;
  let cmd :=
    ([sf_path self; "--headless"; "--crawl"; url; "--output-folder"; output_dir]
     ++ config_option os config_file
     ++ flat_map (fun tab => ["--export-tabs"; tab]) export_tabs)%list in
  if crawl_failed os cmd then Returns false
  else
    match exports_found os output_dir export_tabs false with
    | None => Returns false
    | Some exports_created => Returns exports_created
    end.

(** [run_list_crawl] *)
Definition run_list_crawl (os : Platform) (self : automation)
    (url_list_file output_dir : string) (config_file : option string)
    : outcome bool :=
  if negb (os_path_exists os url_list_file) then Returns false
  else
    os_makedirs os output_dir ;;
    let cmd :=
      ([sf_path self; "--headless"; "--list-crawl"; url_list_file;
        "--output-folder"; output_dir]
       ++ config_option os config_file)%list in
    Returns (negb (crawl_failed os cmd)).

End ScreamingFrogAutomation.

(** ** [full_workflow.py]: class [EndToEndSEOWorkflow] *)

Module EndToEndSEOWorkflow.

(** [report_files] is [None] until [run_seo_audit] sets the attribute. *)
Record workflow : Type := {
  domain : string;
  timestamp : string;
  base_dir : string;
  exports_dir : string;
  reports_dir : string;
  sf_automation : ScreamingFrogAutomation.automation;
  report_files : option (list (string * string))
}.

Definition set_report_files (files : list (string * string)) (self : workflow)
    : workflow :=
  {| domain := domain self; timestamp := timestamp self;
     base_dir := base_dir self; exports_dir := exports_dir self;
     reports_dir := reports_dir self; sf_automation := sf_automation self;
     report_files := Some files |}.

(** [EndToEndSEOWorkflow(domain, sf_path)] *)
Definition __init__ (os : Platform) (now : string) (domain : string)
    (sf_path : option string) : outcome workflow :=
  let base_dir :=
    os_path_join "projects" (String.concat EmptyString [domain; "_"; now]) in
  let exports_dir := os_path_join base_dir "exports" in
  let reports_dir := os_path_join base_dir "reports" in
  os_makedirs os base_dir ;;
  os_makedirs os exports_dir ;;
  os_makedirs os reports_dir ;;
  sf <- ScreamingFrogAutomation.__init__ os sf_path ;;
  Returns {| domain := domain; timestamp := now; base_dir := base_dir;
             exports_dir := exports_dir; reports_dir := reports_dir;
             sf_automation := sf; report_files := None |}.

(** The tabs exported when none are given. *)
Definition default_export_tabs : list string :=
  [ "Internal:All"; "Internal:HTML"; "Response Codes"; "Page Titles";
    "Meta Description"; "H1"; "Images"; "Redirect Chains"; "All Inlinks";
    "Page Speed" ].

(** [run_crawl]; [max_urls] is accepted and not used. *)
Definition run_crawl (os : Platform) (self : workflow) (url : string)
    (max_urls : option Z) (config_file : option string)
    (custom_export_tabs : option (list string)) : outcome bool :=
  let export_tabs :=
    match custom_export_tabs with
    | Some (tab :: l) => tab :: l
    | _ => default_export_tabs
    end in
  success <- ScreamingFrogAutomation.run_crawl_with_exports os (sf_automation self)
               url (exports_dir self) (Some export_tabs) config_file ;;
  if negb success then Returns false else Returns true.

(** A method of the workflow ends with the instance it leaves. *)
Definition method (A : Type) : Type := outcome A * workflow.

(** [run_seo_audit] *)
Definition run_seo_audit (os : Platform) (clock : audit_clock) (self : workflow)
    : method SEOWorkflow.audit_answer :=
  let audit := init (exports_dir self) in
  let (loaded, audit) := load_files (file_system os) audit in
  if negb loaded then (Returns SEOWorkflow.AuditFalse, self)
  else
    match run_analysis (analysis_date clock) audit with
    | (Err e, _) => (Raises (Exn e), self)
    | (Ok _, audit) =>
        match generate_report os (json_stamp clock) (reports_dir self) audit with
        | Raises e => (Raises e, self)
        | Returns json_report =>
        match generate_charts os (charts_stamp clock) (reports_dir self) audit with
        | Raises e => (Raises e, self)
        | Returns charts_file =>
        match generate_html_report os (html_stamp clock) (reports_dir self) audit with
        | Raises e => (Raises e, self)
        | Returns html_report =>
            let self :=
              set_report_files
                [("json", json_report); ("charts", charts_file); ("html", html_report)]
                self in
            match json_load os json_report with
            | Raises e => (Raises e, self)
            | Returns data =>
                (Returns (SEOWorkflow.AuditSummary (report_summary data)), self)
            end
        end end end
    end.

(** [run_full_workflow]; [now] is the time stamp the new [SEOWorkflow]
    reads. *)
Definition run_full_workflow (os : Platform) (clock : audit_clock) (now : string)
    (self : workflow) (url : string) (max_urls : option Z)
    (config_file : option string) (send_email : bool)
    (config : option SEOWorkflow.email_config) : method bool :=
  match run_crawl os self url max_urls config_file None with
  | Raises e => (Raises e, self)
  | Returns false => (Returns false, self)
  | Returns true =>
  match run_seo_audit os clock self with
  | (Raises e, self) => (Raises e, self)
  | (Returns SEOWorkflow.AuditFalse, self)
  | (Returns (SEOWorkflow.AuditSummary None), self) => (Returns false, self)
  | (Returns (SEOWorkflow.AuditSummary (Some _)), self) =>
  match SEOWorkflow.__init__ os now (domain self) (exports_dir self)
          (Some (reports_dir self)) with
  | Raises e => (Raises e, self)
  | Returns workflow =>
  match SEOWorkflow.generate_excel_report os workflow with
  | (Raises e, _) => (Raises e, self)
  | (Returns _, workflow) =>
      match (if send_email then config else None) with
      | Some c =>
          match SEOWorkflow.send_email_report os workflow
                  (SEOWorkflow.recipients c) (SEOWorkflow.smtp_server c)
                  (SEOWorkflow.smtp_port c) (SEOWorkflow.smtp_user c)
                  (SEOWorkflow.smtp_password c) with
          | Raises e => (Raises e, self)
          | Returns _ => (Returns true, self)
          end
      | None => (Returns true, self)
      end
  end end end end.

End EndToEndSEOWorkflow.

Local Close Scope outcome_scope.

(** * The vocabulary of the statements *)

(** ** Tables of the detector's methods, for the statements below

    Each method with the table it reads, and with the column its condition
    is on: first the methods that test for that column, then those that read
    it at once. *)

Definition detector_checks : list (string * M unit) :=
  [ ("response_codes", analyze_broken_links);
    ("redirect_chains", analyze_redirect_chains);
    ("page_titles", analyze_duplicate_titles);
    ("meta_description", analyze_missing_meta_descriptions);
    ("h1", analyze_missing_h1);
    ("page_speed", analyze_slow_pages);
    ("page_titles", analyze_title_length);
    ("meta_description", analyze_description_length);
    ("images", analyze_missing_alt_text);
    ("h1", analyze_multiple_h1) ].

Definition guarded_checks : list (string * string * M unit) :=
  [ ("redirect_chains", "Redirect Chain", analyze_redirect_chains);
    ("page_speed", "Page Load Time (Seconds)", analyze_slow_pages);
    ("h1", "H1-2", analyze_multiple_h1) ].

Definition unguarded_checks : list (string * string * M unit) :=
  [ ("response_codes", "Status Code", analyze_broken_links);
    ("page_titles", "Title 1", analyze_duplicate_titles);
    ("meta_description", "Meta Description 1", analyze_missing_meta_descriptions);
    ("h1", "H1-1", analyze_missing_h1);
    ("page_titles", "Title 1", analyze_title_length);
    ("meta_description", "Meta Description 1", analyze_description_length);
    ("images", "Alt Text", analyze_missing_alt_text) ].

(** The comparison and the order of a list sorted on an integer key. *)
Definition key_lt {A} (key : A -> Z) (x y : A) : bool := (key x <? key y)%Z.

Definition key_ge {A} (key : A -> Z) (x y : A) : Prop := (key y <= key x)%Z.

(** The scores a rule of the catalog may carry: integers from 1 to 10, and
    the priority score computed from them by true division. *)
Definition valid_scores (i : issue) : Prop :=
  (1 <= impact i <= 10)%Z /\ (1 <= effort i <= 10)%Z /\
  priority_score i = quotient (impact i) (effort i).

(** [impact / effort] as an exact integer: 2520 is a multiple of every
    effort from 1 to 10. *)
Definition rank (i : issue) : Z := (impact i * 2520 / effort i)%Z.

Definition score_range : list Z := [1; 2; 3; 4; 5; 6; 7; 8; 9; 10]%Z.

Definition quotients_agree (a b c d : Z) : bool :=
  Bool.eqb (PrimFloat.ltb (quotient a b) (quotient c d))
           (a * 2520 / b <? c * 2520 / d)%Z &&
  Bool.eqb (PrimFloat.leb (quotient a b) (quotient c d))
           (a * 2520 / b <=? c * 2520 / d)%Z &&
  Bool.eqb (PrimFloat.eqb (quotient a b) (quotient c d))
           (a * 2520 / b =? c * 2520 / d)%Z.

(** ** What a method may do to the instance

    The detector's methods read [self.data] and append to the buckets of
    [self.issues]; nothing else.  [emits_at d Q sig m] says so for the data
    [d]: on every instance holding [d], [m] ends with the same result and
    appends the same records, in the same order.  [sig] lists, in order, the
    buckets and identifiers of the records [m] may append, and every record
    it does append satisfies [Q]. *)

#[global] Instance category_eq_dec : EqDecision category.
Proof. solve_decision. Defined.

Definition push (b : buckets) (e : category * issue) : buckets :=
  set_bucket (fst e) (bucket (fst e) b ++ [snd e]) b.

Definition extend (b : buckets) (log : list (category * issue)) : buckets :=
  fold_left push log b.

Definition log_bucket (c : category) (log : list (category * issue)) : list issue :=
  map snd (List.filter (fun e => bool_decide (fst e = c)) log).

Definition emits_at {A} (d : gmap string DataFrame)
    (Q : category -> issue -> Prop) (sig : list (category * string))
    (m : M A) : Prop :=
  exists (r : result A) (log : list (category * issue)),
    sublist (map (fun e => (fst e, type (snd e))) log) sig /\
    Forall (fun e => Q (fst e) (snd e)) log /\
    forall self, data self = d ->
      m self = (r, with_issues (extend (issues self) log) self).

(** ** The detector's rules, as the specification words them

    Each rule but [duplicate_titles] names a table, a column and a condition
    on the cell under that column; its examples are the addresses of the
    first five rows, in file order, whose cell meets the condition. *)

(** The cell of a row under a named column. *)
Definition cell_of (df : DataFrame) (c : string) (row : list cell) : cell :=
  match col_index c (columns df) with
  | Some i => cell_at i row
  | None => NaN
  end.

Definition matching_rows (df : DataFrame) (column : string)
    (condition : cell -> bool) : list (list cell) :=
  List.filter (fun row => condition (cell_of df column row)) (rows df).

Definition first_addresses (df : DataFrame) (column : string)
    (condition : cell -> bool) : list cell :=
  take 5 (map (cell_of df "Address") (matching_rows df column condition)).

Definition number_where (p : Qc -> bool) (c : cell) : bool :=
  match c with Num q => p q | _ => false end.

Definition status_in (lo hi : Z) : cell -> bool :=
  number_where (fun q => num_le (num lo) q && num_le q (num hi)).

Definition greater_than (x : Z) : cell -> bool :=
  number_where (fun q => num_lt (num x) q).

Definition is_present (c : cell) : bool := negb (is_nan c).

Definition longer_than (n : nat) (c : cell) : bool :=
  match c with Str t => (n <? String.length t)%nat | _ => false end.

Record rule : Type := {
  rule_table : string;
  rule_column : string;
  rule_condition : cell -> bool
}.

Definition rules : list (string * rule) :=
  [ ("broken_links",
     {| rule_table := "response_codes"; rule_column := "Status Code";
        rule_condition := status_in 400 499 |});
    ("server_errors",
     {| rule_table := "response_codes"; rule_column := "Status Code";
        rule_condition := status_in 500 599 |});
    ("redirect_chains",
     {| rule_table := "redirect_chains"; rule_column := "Redirect Chain";
        rule_condition := greater_than 1 |});
    ("missing_meta_descriptions",
     {| rule_table := "meta_description"; rule_column := "Meta Description 1";
        rule_condition := is_nan |});
    ("missing_h1",
     {| rule_table := "h1"; rule_column := "H1-1"; rule_condition := is_nan |});
    ("slow_pages",
     {| rule_table := "page_speed"; rule_column := "Page Load Time (Seconds)";
        rule_condition := greater_than 3 |});
    ("title_too_long",
     {| rule_table := "page_titles"; rule_column := "Title 1";
        rule_condition := longer_than 60 |});
    ("description_too_long",
     {| rule_table := "meta_description"; rule_column := "Meta Description 1";
        rule_condition := longer_than 160 |});
    ("missing_alt_text",
     {| rule_table := "images"; rule_column := "Alt Text"; rule_condition := is_nan |});
    ("multiple_h1",
     {| rule_table := "h1"; rule_column := "H1-2"; rule_condition := is_present |}) ].

(** The rule [duplicate_titles]: among the rows that have a title, the
    title values that occur more than once, in the order [value_counts]
    lists them; up to two addresses for each of the first five of them,
    and of these the first five. *)
Definition title_values (df : DataFrame) : list cell :=
  map (cell_of df "Title 1") (matching_rows df "Title 1" is_present).

Definition duplicated_titles (df : DataFrame) : list cell :=
  duplicated (value_counts (title_values df)).

Definition duplicate_title_examples (df : DataFrame) : list cell :=
  take 5
    (flat_map
       (fun t =>
          take 2
            (map (cell_of df "Address")
               (List.filter (fun row => bool_decide (cell_of df "Title 1" row = t))
                  (matching_rows df "Title 1" is_present))))
       (take 5 (duplicated_titles df))).

(** What holds of every record the detector creates from the data [d]:
    scores of the catalog, at least one match, at most five examples, and
    the count and examples its rule prescribes. *)
Definition sound_finding (d : gmap string DataFrame) (c : category) (i : issue) : Prop :=
  valid_scores i /\
  (1 <= count i)%nat /\
  (length (examples i) <= 5)%nat /\
  ((type i = "duplicate_titles" /\
    exists df, d !! "page_titles" = Some df /\
      count i = length (duplicated_titles df) /\
      examples i = duplicate_title_examples df)
   \/
   (exists r df, dict_get rules (type i) = Ok r /\
      d !! rule_table r = Some df /\
      count i = length (matching_rows df (rule_column r) (rule_condition r)) /\
      examples i = first_addresses df (rule_column r) (rule_condition r))).

(** The checks in the order [run_analysis] runs them, each with the bucket
    it appends to. *)
Definition check_order : list (category * string) :=
  [ (Critical, "broken_links"); (Critical, "server_errors");
    (Critical, "redirect_chains"); (Critical, "duplicate_titles");
    (High, "missing_meta_descriptions"); (High, "missing_h1");
    (High, "slow_pages");
    (Medium, "title_too_long"); (Medium, "description_too_long");
    (Medium, "missing_alt_text");
    (Low, "multiple_h1") ].

(** ** The aggregator's orders and the instance it leaves *)

Definition priority_ge (a b : issue) : Prop :=
  PrimFloat.leb (priority_score b) (priority_score a) = true.

Definition same_priority (i0 i : issue) : bool :=
  PrimFloat.eqb (priority_score i) (priority_score i0).

Definition impact_ge (a b : issue) : Prop := (impact b <= impact a)%Z.

Definition same_impact (z : Z) (i : issue) : bool := (impact i =? z)%Z.

(** The instance [run_analysis] leaves when the checks have returned with
    the instance [mid]. *)
Definition sorted_buckets (b : buckets) : buckets :=
  fold_left (fun b c => set_bucket c (sort_by_priority (bucket c b)) b) categories b.

Definition summary_of (today : string) (b : buckets) : summary_dict :=
  {| total_issues := list_sum (map (fun c => length (bucket c b)) categories);
     critical_count := length (critical b);
     high_count := length (high b);
     medium_count := length (medium b);
     low_count := length (low b);
     date := today;
     highest_impact_issues := take 3 (sorted_desc impact_lt (all_issues b)) |}.

Definition aggregated (today : string) (mid : SEOAuditAutomation) : SEOAuditAutomation :=
  {| export_dir := export_dir mid; files := files mid; data := data mid;
     issues := sorted_buckets (issues mid);
     summary := Some (summary_of today (sorted_buckets (issues mid))) |}.

(** ** Sheets of a workbook by name *)

Definition sheets_named (name : string) (book : list sheet) : list sheet :=
  List.filter (fun sh => String.eqb (sheet_name sh) name) book.

(** What the two [read_csv] attempts on one file give: the frame of the
    first that succeeds, in the order UTF-8, latin-1. *)
Definition parsed (fs : FileSystem) (file_path : string) : option DataFrame :=
  match read_csv fs file_path "utf-8" with
  | Ok df => Some df
  | Err _ =>
      match read_csv fs file_path "latin1" with
      | Ok df => Some df
      | Err _ => None
      end
  end.

(** The logical export name a file of the directory is taken for: none when
    its name does not end in [.csv] or holds no expected name, else the
    first expected name it holds, without [.csv]. *)
Definition logical_name (filename : string) : option string :=
  if endswith filename ".csv"
  then option_map (replace ".csv" "")
         (List.find (fun e => contains (lower e) (lower filename)) expected_files)
  else None.

(** The files of a listing taken for a logical name, in listing order. *)
Definition matched_for (key : string) (names : list string) : list string :=
  List.filter (fun f => bool_decide (logical_name f = Some key)) names.

(** ** Polls of the waiting loop *)

Import ScreamingFrogAPI.

(** The URL [get_crawl_status] asks. *)
Definition status_url (self : client) (crawl_id : string) : string :=
  String.append (api_url self) (String.append "/" (String.append "crawl/" crawl_id)).

(** A reply that is true and is not an object: [.get] raises on it. *)
Definition no_object (response : option reply_body) : bool :=
  match response with
  | Some (JObject _) => false
  | _ => true_reply response
  end.

(** Poll [k] reports the status [v]: the request succeeds with a non-empty
    object whose ["status"] entry (the empty string when there is none) is
    [v]. *)
Definition reports (self : client) (w : World) (crawl_id : string)
    (k : nat) (v : json) : Prop :=
  exists d, get_crawl_status self w k crawl_id = Some (JObject d) /\ d <> [] /\
            dict_get_default d "status" (JStr "") = v.

(** Poll [k] gives nothing to read: [None], or a body that is false (an
    empty object, an empty array, zero, the empty string, [false]). *)
Definition request_fails (self : client) (w : World) (crawl_id : string)
    (k : nat) : Prop :=
  true_reply (get_crawl_status self w k crawl_id) = false.

(** Poll [k] gives a body that is true and is not an object. *)
Definition unreadable (self : client) (w : World) (crawl_id : string)
    (k : nat) : Prop :=
  no_object (get_crawl_status self w k crawl_id) = true.

Definition terminal (v : json) : Prop :=
  v = JStr "FINISHED" \/ In v failure_statuses.

(** [time.sleep] takes the interval. *)
Definition sleeps (check_interval : Z) : Prop :=
  (0 <= check_interval <= sleep_max)%Z.

(** The clock at the top of turn [k] of the loop, when every earlier poll
    let the loop go on: each turn costs its request and one sleep. *)
Fixpoint clock (w : World) (check_interval now : Z) (k : nat) : Z :=
  match k with
  | O => now
  | S j => (clock w check_interval now j + latency w j + check_interval)%Z
  end.

(** What poll [k] makes the loop do: return a boolean, raise, or sleep and
    go on. *)
Definition verdict (self : client) (w : World) (crawl_id : string)
    (check_interval : Z) (k : nat) : option (outcome bool) :=
  let status := get_crawl_status self w k crawl_id in
  if negb (true_reply status) then Some (Returns false)
  else
    match status with
    | None => Some (Returns false)
    | Some status =>
        match get status "status" (JStr "") with
        | Raises e => Some (Raises e)
        | Returns crawl_status =>
            if bool_decide (crawl_status = JStr "FINISHED") then Some (Returns true)
            else if bool_decide (crawl_status ∈ failure_statuses)
            then Some (Returns false)
            else
              match time_sleep check_interval with
              | Raises e => Some (Raises e)
              | Returns _ => None
              end
        end
    end.

(** ** The records and the catalog *)

(** A record as [new_issue] makes it for the bucket it is appended to: the
    identifier is a key of the catalog, whose entry gives the record's two
    scores and names this bucket as its category. *)
Definition of_catalog (c : category) (i : issue) : Prop :=
  exists sc, dict_get ISSUE_SCORES (type i) = Ok sc /\
    impact i = score_impact sc /\ effort i = score_effort sc /\
    score_category sc = category_name c.

(** The number of checks that append to a bucket. *)
Definition quota (c : category) : nat :=
  length (List.filter (fun e => bool_decide (fst e = c)) check_order).

(** ** Why a run fails *)

(** The columns the checks read without testing for them, each with its
    table. *)
Definition required_columns : list (string * string) :=
  [ ("response_codes", "Status Code"); ("response_codes", "Address");
    ("redirect_chains", "Address");
    ("page_titles", "Title 1"); ("page_titles", "Address");
    ("meta_description", "Meta Description 1"); ("meta_description", "Address");
    ("h1", "H1-1"); ("h1", "Address");
    ("page_speed", "Address");
    ("images", "Alt Text"); ("images", "Address") ].

(** The columns the checks compare with a number. *)
Definition numeric_columns : list (string * string) :=
  [ ("response_codes", "Status Code"); ("redirect_chains", "Redirect Chain");
    ("page_speed", "Page Load Time (Seconds)") ].

(** The columns whose text length the checks take. *)
Definition text_columns : list (string * string) :=
  [ ("page_titles", "Title 1"); ("meta_description", "Meta Description 1") ].

Definition is_text (c : cell) : bool :=
  match c with Str _ => true | _ => false end.

(** A table has text under a column. *)
Definition holds_text (df : DataFrame) (column : string) : bool :=
  existsb (fun row => is_text (cell_of df column row)) (rows df).

(** The exception names a required column that a loaded table lacks. *)
Definition column_missing (d : gmap string DataFrame) (e : exn) : Prop :=
  exists table column df,
    In (table, column) required_columns /\ d !! table = Some df /\
    in_columns column df = false /\ e = KeyError column.

(** The exception is the [TypeError] of comparing text with a number, and a
    loaded table has text under a column the checks compare with a
    number. *)
Definition text_among_numbers (d : gmap string DataFrame) (e : exn) : Prop :=
  exists table column df,
    In (table, column) numeric_columns /\ d !! table = Some df /\
    holds_text df column = true /\ e = TypeError.

(** A condition on every listed column of a loaded table. *)
Definition on_loaded (d : gmap string DataFrame)
    (condition : DataFrame -> string -> bool)
    (listed : list (string * string)) : bool :=
  forallb (fun tc => match d !! fst tc with
                     | Some df => condition df (snd tc)
                     | None => true
                     end) listed.

(** The loaded tables have the required columns. *)
Definition has_required_columns (d : gmap string DataFrame) : bool :=
  on_loaded d (fun df column => in_columns column df) required_columns.

(** The loaded tables have no text where the checks compare with a
    number. *)
Definition numbers_where_compared (d : gmap string DataFrame) : bool :=
  on_loaded d (fun df column => negb (holds_text df column)) numeric_columns.

(** The text columns of the loaded tables hold text.  pandas reads a column
    without any text as a column of numbers, and taking [.str] of such a
    column raises [AttributeError], which the model leaves out. *)
Definition text_where_measured (d : gmap string DataFrame) : bool :=
  on_loaded d (fun df column => implb (in_columns column df) (holds_text df column))
    text_columns.

(** [m], run on an instance holding the tables [d], leaves the tables as
    they are and raises only exceptions that satisfy [P]. *)
Definition fails_only {A} (d : gmap string DataFrame) (P : exn -> Prop)
    (m : M A) : Prop :=
  forall self, data self = d ->
    data (snd (m self)) = d /\ forall e, fst (m self) = Err e -> P e.

(** Every failure is of one of the two kinds. *)
Definition diagnosed (d : gmap string DataFrame) (e : exn) : Prop :=
  column_missing d e \/ text_among_numbers d e.

(** ** Export requests *)

(** The remote tool acknowledges request [k] as an export: the request
    succeeds with a non-empty object whose ["status"] entry is ["OK"]. *)
Definition export_acknowledged (self : client) (w : World) (k : nat) : Prop :=
  exists response,
    _make_request self w k "export" "POST" = Some (JObject response) /\
    response <> [] /\ status_ok response = true.

(** The same, as the loop of [export_individual_tabs] tests it. *)
Definition acknowledged (self : client) (w : World) (k : nat) : bool :=
  match _make_request self w k "export" "POST" with
  | Some (JObject (item :: d)) => status_ok (item :: d)
  | _ => false
  end.

(** The reply to export request [k] is true and is not an object. *)
Definition export_unreadable (self : client) (w : World) (k : nat) : bool :=
  no_object (_make_request self w k "export" "POST").

(** The data [export_individual_tabs] posts for a tab. *)
Definition export_request (crawl_id : json) (output_dir export_format tab : string)
    : export_data :=
  {| export_id := crawl_id; export_format := export_format;
     export_path := path_join output_dir (tab_file export_format tab);
     export_tabs := [tab] |}.

(** ** The reports and the workflows *)

(** An issue has an example that is not text. *)
Definition odd_example (i : issue) : bool :=
  existsb (fun c => negb (is_text c)) (examples i).

(** The instances of [SEOWorkflow] a program can reach: made by the
    constructor, then left by any call of a method that may change the
    instance, on any machine. *)
Inductive reached : SEOWorkflow.workflow -> Prop :=
| reached_init os now domain exports_path output_path self :
    SEOWorkflow.__init__ os now domain exports_path output_path = Returns self ->
    reached self
| reached_run_audit os clock self exports_dir :
    reached self ->
    reached (snd (SEOWorkflow.run_audit os clock self exports_dir))
| reached_generate_excel_report os self :
    reached self ->
    reached (snd (SEOWorkflow.generate_excel_report os self))
| reached_run_workflow os clock self send_email config :
    reached self ->
    reached (snd (SEOWorkflow.run_workflow os clock self send_email config)).

(** The bucket has an issue with at least one example. *)
Definition with_examples (b : buckets) (c : category) : bool :=
  existsb (fun i => negb (length (examples i) =? 0)%nat) (bucket c b).

(** * Sample inputs *)

Module Sample.

Definition response_codes : DataFrame :=
  {| columns := ["Address"; "Status Code"];
     rows := [ [Str "https://example.com/"; Num (num 200)];
               [Str "https://example.com/gone"; Num (num 404)];
               [Str "https://example.com/crash"; Num (num 500)];
               [Str "https://example.com/moved"; Num (num 301)];
               [Str "https://example.com/lost"; Num (num 404)] ] |}.

Definition redirect_chains : DataFrame :=
  {| columns := ["Address"; "Redirect Chain"];
     rows := [ [Str "https://example.com/a"; Num (num 1)];
               [Str "https://example.com/b"; Num (num 3)] ] |}.

Definition long_title : string :=
  "A page title that goes on well past the sixty characters search engines show".

Definition page_titles : DataFrame :=
  {| columns := ["Address"; "Title 1"];
     rows := [ [Str "https://example.com/"; Str "Home"];
               [Str "https://example.com/about"; Str "About"];
               [Str "https://example.com/index"; Str "Home"];
               [Str "https://example.com/untitled"; NaN];
               [Str "https://example.com/long"; Str long_title] ] |}.

Definition meta_description : DataFrame :=
  {| columns := ["Address"; "Meta Description 1"];
     rows := [ [Str "https://example.com/"; Str "The home page"];
               [Str "https://example.com/about"; NaN] ] |}.

Definition h1 : DataFrame :=
  {| columns := ["Address"; "H1-1"; "H1-2"];
     rows := [ [Str "https://example.com/"; Str "Welcome"; Str "Again"];
               [Str "https://example.com/about"; NaN; NaN] ] |}.

Definition page_speed : DataFrame :=
  {| columns := ["Address"; "Page Load Time (Seconds)"];
     rows := [ [Str "https://example.com/"; Num (Q2Qc (5 # 2))];
               [Str "https://example.com/about"; Num (Q2Qc (7 # 2))] ] |}.

(** A table of the [h1] export without its two heading columns. *)
Definition bare_h1 : DataFrame :=
  {| columns := ["Address"]; rows := [ [Str "https://example.com/"] ] |}.

Definition tables : gmap string DataFrame :=
  <["response_codes" := response_codes]>
    (<["redirect_chains" := redirect_chains]>
       (<["page_titles" := page_titles]>
          (<["meta_description" := meta_description]>
             (<["h1" := h1]> (<["page_speed" := page_speed]> ∅))))).

Definition loaded : SEOAuditAutomation :=
  {| export_dir := "exports"; files := []; data := tables;
     issues := no_issues; summary := None |}.

Definition bare : SEOAuditAutomation :=
  {| export_dir := "exports"; files := []; data := <["h1" := bare_h1]> ∅;
     issues := no_issues; summary := None |}.

Definition today : string := "2024-05-01".

Definition analysed : SEOAuditAutomation := snd (run_analysis today loaded).

Definition analysed_twice : SEOAuditAutomation :=
  snd (run_analysis today analysed).

(** A directory with one good export, one that only parses as latin-1,
    one that does not parse, and a file that is no export. *)
Definition disk : FileSystem :=
  {| listdir := fun dir =>
       if String.eqb dir "exports"
       then Ok ["response_codes.csv"; "site_H1.csv"; "images.csv"; "notes.txt"]
       else Err OSError;
     read_csv := fun file_path encoding =>
       if String.eqb file_path "exports/response_codes.csv" then Ok response_codes
       else if String.eqb file_path "exports/site_H1.csv"
               && String.eqb encoding "latin1" then Ok h1
       else Err UnicodeDecodeError |}.

(** A directory with two files taken for the same logical name: the first
    parses, the second does not. *)
Definition disk_twice : FileSystem :=
  {| listdir := fun dir => Ok ["response_codes.csv"; "old_response_codes.csv"];
     read_csv := fun file_path encoding =>
       if String.eqb file_path "exports/response_codes.csv" then Ok response_codes
       else Err UnicodeDecodeError |}.

Definition status_reply (s : string) : option ScreamingFrogAPI.response :=
  Some {| ScreamingFrogAPI.status_code := 200;
          ScreamingFrogAPI.json_body :=
            ScreamingFrogAPI.JObject
              [("status", ScreamingFrogAPI.JStr s);
               ("urlsCrawled", ScreamingFrogAPI.JNum 12)] |}.

Definition api : ScreamingFrogAPI.client :=
  {| ScreamingFrogAPI.api_url := "http://localhost:8777" |}.

(** A crawl that is seen STARTED twice, then FINISHED; each request takes
    one second. *)
Definition crawl : ScreamingFrogAPI.World :=
  {| ScreamingFrogAPI.requests_call := fun k method url =>
       if String.eqb url "http://localhost:8777/crawl/42" then
         match k with
         | 0 | 1 => status_reply "STARTED"
         | _ => status_reply "FINISHED"
         end
       else None;
     ScreamingFrogAPI.latency := fun _ => 1%Z |}.

Definition no_tables : SEOAuditAutomation := init "exports".

(** A bucket of one issue with three examples. *)
Definition three_examples : issue :=
  {| type := "missing_alt_text"; title := "Images Missing Alt Text";
     description := "Images without alternative text"; count := 3;
     examples := [ Str "https://example.com/a.png"; Str "https://example.com/b.png";
                   Str "https://example.com/c.png" ];
     impact := 5; effort := 4; priority_score := quotient 5 4;
     recommendation := "Add descriptive alt text to all images to improve accessibility and image search visibility" |}.

Definition one_medium : buckets :=
  {| critical := []; high := []; medium := [three_examples]; low := [] |}.

(** Tables of which one lacks a column: the run fails half-way. *)
Definition half : SEOAuditAutomation :=
  {| export_dir := "exports"; files := [];
     data := <["response_codes" := response_codes]>
               (<["page_titles" := page_titles]> (<["h1" := bare_h1]> ∅));
     issues := no_issues; summary := None |}.

(** A directory that holds the ten files of a CSV export, of which three
    parse. *)
Definition exported : FileSystem :=
  {| listdir := fun dir =>
       if String.eqb dir "exports"
       then Ok (map (ScreamingFrogAPI.tab_file "csv") ScreamingFrogAPI.tabs)
       else Err OSError;
     read_csv := fun file_path encoding =>
       if String.eqb file_path "exports/response_codes.csv" then Ok response_codes
       else if String.eqb file_path "exports/page_titles.csv" then Ok page_titles
       else if String.eqb file_path "exports/h1.csv" then Ok h1
       else Err UnicodeDecodeError |}.

(** A machine on which every directory can be made. *)
Definition makedirs (path : string) : result unit := Ok tt.

Definition reply (body : list (string * ScreamingFrogAPI.json))
    : option ScreamingFrogAPI.response :=
  Some {| ScreamingFrogAPI.status_code := 200;
          ScreamingFrogAPI.json_body := ScreamingFrogAPI.JObject body |}.

(** A remote tool that answers every request with the list
    [["FINISHED"]]. *)
Definition listing : ScreamingFrogAPI.World :=
  {| ScreamingFrogAPI.requests_call := fun k method url =>
       Some {| ScreamingFrogAPI.status_code := 200;
               ScreamingFrogAPI.json_body :=
                 ScreamingFrogAPI.JArray [ScreamingFrogAPI.JStr "FINISHED"] |};
     ScreamingFrogAPI.latency := fun _ => 1%Z |}.

(** A remote tool that is running, starts crawl 7, reports it STARTED
    once and then FINISHED, and acknowledges every export. *)
Definition server : ScreamingFrogAPI.World :=
  {| ScreamingFrogAPI.requests_call := fun k method url =>
       if String.eqb url "http://localhost:8777/status"
       then reply [("status", ScreamingFrogAPI.JStr "OK")]
       else if String.eqb url "http://localhost:8777/crawl"
       then reply [("id", ScreamingFrogAPI.JNum 7)]
       else if String.eqb url "http://localhost:8777/crawl/7"
       then match k with
            | 2 => status_reply "STARTED"
            | _ => status_reply "FINISHED"
            end
       else if String.eqb url "http://localhost:8777/export"
       then reply [("status", ScreamingFrogAPI.JStr "OK")]
       else None;
     ScreamingFrogAPI.latency := fun _ => 1%Z |}.

(** A disk on which every directory lists three exports and a text file. *)
Definition plain_disk : FileSystem :=
  {| listdir := fun dir =>
       Ok ["response_codes.csv"; "page_titles.csv"; "h1.csv"; "notes.txt"];
     read_csv := fun file_path encoding =>
       if endswith file_path "response_codes.csv" then Ok response_codes
       else if endswith file_path "page_titles.csv" then Ok page_titles
       else if endswith file_path "h1.csv" then Ok h1
       else Err UnicodeDecodeError |}.

(** A machine on which every call succeeds and the crawler exits with
    code 0, with the given disk. *)
Definition machine_on (fs : FileSystem) : Platform :=
  {| os_makedirs := fun path => Returns tt;
     os_path_exists := fun path => true;
     os_name := "posix";
     file_system := fs;
     shutil_copy2 := fun src dst => Returns tt;
     json_dump := fun path report => Returns tt;
     json_load := fun path =>
       Returns {| report_summary := None; report_issues := no_issues |};
     write_text := fun path text => Returns tt;
     read_bytes := fun path => Returns EmptyString;
     plt_subplots := Returns tt;
     plt_savefig := fun chart => Returns tt;
     excel_writer := fun path => Returns tt;
     excel_close := fun path book => Returns tt;
     smtp_send := fun server port user password msg => Returns tt;
     subprocess_run := fun cmd => Returns 0%Z;
     format_field := fun value rest conversion spec => Returns (py_str value) |}.

Definition machine : Platform := machine_on plain_disk.

(** A disk on which every directory lists three exports of tabs whose
    names have a space. *)
Definition spaced : FileSystem :=
  {| listdir := fun dir =>
       Ok ["response_codes.csv"; "page_titles.csv"; "meta_description.csv"];
     read_csv := fun file_path encoding => Err UnicodeDecodeError |}.

Definition stamps : audit_clock :=
  {| analysis_date := "2024-05-01"; json_stamp := "20240501_120001";
     charts_stamp := "20240501_120002"; html_stamp := "20240501_120003" |}.

(** The workflow [SEOWorkflow("example.com", "exports")] makes on that
    machine. *)
Definition started : SEOWorkflow.workflow :=
  {| SEOWorkflow.domain := "example.com";
     SEOWorkflow.exports_path := "exports";
     SEOWorkflow.timestamp := "20240501_120000";
     SEOWorkflow.output_path := "outputs/example.com_20240501_120000";
     SEOWorkflow.reports_path := "outputs/example.com_20240501_120000/reports";
     SEOWorkflow.report_files := [] |}.

(** The workflow [EndToEndSEOWorkflow("example.com")] makes on that
    machine. *)
Definition crawling : EndToEndSEOWorkflow.workflow :=
  {| EndToEndSEOWorkflow.domain := "example.com";
     EndToEndSEOWorkflow.timestamp := "20240501_120000";
     EndToEndSEOWorkflow.base_dir := "projects/example.com_20240501_120000";
     EndToEndSEOWorkflow.exports_dir :=
       "projects/example.com_20240501_120000/exports";
     EndToEndSEOWorkflow.reports_dir :=
       "projects/example.com_20240501_120000/reports";
     EndToEndSEOWorkflow.sf_automation :=
       {| ScreamingFrogAutomation.sf_path :=
            "/Applications/Screaming Frog SEO Spider.app/Contents/MacOS/ScreamingFrogSEOSpiderCli" |};
     EndToEndSEOWorkflow.report_files := None |}.

End Sample.


(** * Properties *)

(** ** Missing tables and missing columns *)

Lemma col_index_none c cols :
  existsb (String.eqb c) cols = false -> col_index c cols = None.
Proof.
  induction cols as [|c' cols IH]; simpl; [reflexivity|].
  destruct (String.eqb c c'); simpl; [discriminate|].
  intros H. rewrite (IH H). reflexivity.
Qed.

Lemma getitem_missing df c :
  in_columns c df = false -> getitem df c = Err (KeyError c).
Proof.
  unfold in_columns, getitem. intros H.
  rewrite (col_index_none _ _ H). reflexivity.
Qed.

Lemma dropna_missing df c :
  in_columns c df = false -> dropna df c = Err (KeyError c).
Proof.
  intros H. unfold dropna. rewrite (getitem_missing _ _ H). reflexivity.
Qed.

Ltac run_method :=
  unfold analyze_broken_links, analyze_redirect_chains,
    analyze_duplicate_titles, analyze_missing_meta_descriptions,
    analyze_missing_h1, analyze_slow_pages, analyze_title_length,
    analyze_description_length, analyze_missing_alt_text,
    analyze_multiple_h1, bind, get_data, lift, ret.

(** C4.  A method of the detector whose source table is not among the
    loaded tables returns normally and leaves the instance, hence all four
    severity buckets, as it found it: it creates no issue record and raises
    nothing. *)
Theorem absent_table_is_silent (table : string) (check : M unit)
    (self : SEOAuditAutomation) :
  In (table, check) detector_checks ->
  data self !! table = None ->
  check self = (Ok tt, self) /\
  forall c, bucket c (issues (snd (check self))) = bucket c (issues self).
Proof.
  intros Hin Hnone.
  assert (Hrun : check self = (Ok tt, self)).
  { simpl in Hin.
    repeat (destruct Hin as [Heq | Hin];
            [ inversion Heq; subst; run_method; rewrite Hnone; reflexivity | ]).
    destruct Hin. }
  split; [exact Hrun|].
  intros c. rewrite Hrun. reflexivity.
Qed.

Lemma absent_table_is_silent_witness :
  analyze_slow_pages Sample.no_tables = (Ok tt, Sample.no_tables) /\
  forall c, bucket c (issues (snd (analyze_slow_pages Sample.no_tables)))
            = bucket c (issues Sample.no_tables).
Proof.
  apply (absent_table_is_silent "page_speed").
  - simpl. do 5 right. left. reflexivity.
  - reflexivity.
Defined.

(** C9.  With the table loaded but the condition column missing, the three
    methods that test for the column return normally with the instance
    unchanged, and the seven others raise [KeyError] for that column. *)
Theorem missing_column_asymmetry (self : SEOAuditAutomation) (df : DataFrame)
    (table column : string) (check : M unit) :
  data self !! table = Some df ->
  in_columns column df = false ->
  (In (table, column, check) guarded_checks -> check self = (Ok tt, self)) /\
  (In (table, column, check) unguarded_checks ->
   check self = (Err (KeyError column), self)).
Proof.
  intros Hdf Hcol. split; intros Hin; simpl in Hin.
  - repeat (destruct Hin as [Heq | Hin];
            [ inversion Heq; subst; run_method; rewrite Hdf, Hcol; reflexivity | ]).
    destruct Hin.
  - repeat (destruct Hin as [Heq | Hin];
            [ inversion Heq; subst; run_method; rewrite Hdf;
              rewrite ?(getitem_missing _ _ Hcol), ?(dropna_missing _ _ Hcol);
              reflexivity | ]).
    destruct Hin.
Qed.

(** ** The stable descending sort *)

Section SortFacts.
Context {A : Type}.
Implicit Types (lt : A -> A -> bool) (l : list A) (P : A -> bool).

Lemma insert_desc_perm lt x l : Permutation (insert_desc lt x l) (x :: l).
Proof.
  induction l as [|y l IH]; simpl; [reflexivity|].
  destruct (lt x y); [|reflexivity].
  rewrite IH. apply perm_swap.
Qed.

Lemma sorted_desc_perm lt l : Permutation (sorted_desc lt l) l.
Proof.
  induction l as [|x l IH]; simpl; [reflexivity|].
  rewrite insert_desc_perm. constructor. exact IH.
Qed.

Lemma sorted_desc_length lt l : length (sorted_desc lt l) = length l.
Proof. apply Permutation_length, sorted_desc_perm. Qed.

Lemma sorted_desc_In lt l x : In x (sorted_desc lt l) <-> In x l.
Proof.
  split; apply Permutation_in;
    [apply sorted_desc_perm | symmetry; apply sorted_desc_perm].
Qed.

Lemma insert_desc_ext lt1 lt2 x l :
  (forall y, In y l -> lt1 x y = lt2 x y) ->
  insert_desc lt1 x l = insert_desc lt2 x l.
Proof.
  induction l as [|y l IH]; simpl; intros H; [reflexivity|].
  rewrite (H y) by (left; reflexivity).
  rewrite IH by (intros z Hz; apply H; right; exact Hz).
  reflexivity.
Qed.

(** Two comparisons that agree on the elements of a list sort it alike. *)
Lemma sorted_desc_ext lt1 lt2 l :
  (forall x y, In x l -> In y l -> lt1 x y = lt2 x y) ->
  sorted_desc lt1 l = sorted_desc lt2 l.
Proof.
  induction l as [|x l IH]; simpl; intros H; [reflexivity|].
  rewrite IH by (intros a b Ha Hb; apply H; right; assumption).
  apply insert_desc_ext. intros y Hy.
  apply H; [left; reflexivity | right].
  apply (sorted_desc_In lt2 l y). exact Hy.
Qed.

(** Inserting [x] moves it past elements of greater key only, so a
    selection that never holds both [x] and such an element cannot tell
    the insertion from putting [x] in front. *)
Lemma filter_insert_desc lt P x l :
  (P x = true -> forall y, In y l -> lt x y = true -> P y = false) ->
  List.filter P (insert_desc lt x l) = List.filter P (x :: l).
Proof.
  induction l as [|y l IH]; intros H; [reflexivity|].
  simpl insert_desc. destruct (lt x y) eqn:Hxy; [|reflexivity].
  assert (IH' : List.filter P (insert_desc lt x l) = List.filter P (x :: l)).
  { apply IH. intros Hx z Hz. apply H; [exact Hx | right; exact Hz]. }
  simpl. simpl in IH'. rewrite IH'.
  destruct (P x) eqn:Hx; [|reflexivity].
  rewrite (H eq_refl y (or_introl eq_refl) Hxy). reflexivity.
Qed.

Section Keyed.
Context (key : A -> Z).

Local Abbreviation key_lt := (key_lt key).
Local Abbreviation key_ge := (key_ge key).

Lemma insert_desc_sorted x l :
  StronglySorted key_ge l -> StronglySorted key_ge (insert_desc key_lt x l).
Proof.
  induction 1 as [|y l Hs IH Hy]; simpl.
  - constructor; constructor.
  - unfold key_lt at 1. destruct (Z.ltb_spec (key x) (key y)) as [Hlt|Hge].
    + constructor; [exact IH|].
      rewrite List.Forall_forall. intros z Hz.
      apply (Permutation_in _ (insert_desc_perm key_lt x l)) in Hz.
      destruct Hz as [<-|Hz].
      * unfold key_ge. lia.
      * rewrite List.Forall_forall in Hy. apply Hy, Hz.
    + constructor; [constructor; assumption|].
      constructor; [exact Hge|].
      rewrite List.Forall_forall in Hy |- *. intros z Hz.
      specialize (Hy z Hz). unfold key_ge in *. lia.
Qed.

Lemma sorted_desc_sorted l : StronglySorted key_ge (sorted_desc key_lt l).
Proof.
  induction l as [|x l IH]; simpl; [constructor|].
  apply insert_desc_sorted, IH.
Qed.

(** Stability: a selection of elements of one key comes out of the sort
    in the order it went in. *)
Lemma sorted_desc_stable P l :
  (forall x y, In x l -> In y l -> P x = true -> P y = true -> key x = key y) ->
  List.filter P (sorted_desc key_lt l) = List.filter P l.
Proof.
  induction l as [|x l IH]; intros H; [reflexivity|].
  simpl sorted_desc. rewrite filter_insert_desc.
  - simpl. rewrite IH; [reflexivity|].
    intros a b Ha Hb. apply H; right; assumption.
  - intros Hx y Hy Hlt.
    apply (sorted_desc_In key_lt l y) in Hy.
    destruct (P y) eqn:HPy; [|reflexivity].
    assert (key x = key y)
      by (apply H; [left; reflexivity | right; exact Hy | exact Hx | exact HPy]).
    unfold key_lt in Hlt. apply Z.ltb_lt in Hlt. lia.
Qed.
End Keyed.
End SortFacts.

(** ** Scores: the float quotient orders issues as the exact quotient does *)

Lemma quotients_agree_all :
  forallb (fun a => forallb (fun b => forallb (fun c => forallb (fun d =>
    quotients_agree a b c d) score_range) score_range) score_range) score_range
  = true.
Proof. vm_compute. reflexivity. Qed.

Lemma in_score_range z : (1 <= z <= 10)%Z -> In z score_range.
Proof.
  intros H. unfold score_range. simpl. lia.
Qed.

Lemma valid_scores_agree x y :
  valid_scores x -> valid_scores y ->
  PrimFloat.ltb (priority_score x) (priority_score y) = (rank x <? rank y)%Z /\
  PrimFloat.leb (priority_score x) (priority_score y) = (rank x <=? rank y)%Z /\
  PrimFloat.eqb (priority_score x) (priority_score y) = (rank x =? rank y)%Z.
Proof.
  intros (Hi & He & Hp) (Hi' & He' & Hp').
  pose proof quotients_agree_all as H.
  rewrite List.forallb_forall in H.
  specialize (H _ (in_score_range _ Hi)). rewrite List.forallb_forall in H.
  specialize (H _ (in_score_range _ He)). rewrite List.forallb_forall in H.
  specialize (H _ (in_score_range _ Hi')). rewrite List.forallb_forall in H.
  specialize (H _ (in_score_range _ He')).
  unfold quotients_agree, quotient in H.
  apply andb_prop in H as [H H3]. apply andb_prop in H as [H1 H2].
  apply Bool.eqb_prop in H1, H2, H3.
  rewrite Hp, Hp'. unfold rank. auto.
Qed.

Lemma with_issues_same self : with_issues (issues self) self = self.
Proof. destruct self; reflexivity. Qed.

Lemma with_issues_twice b b' self :
  with_issues b (with_issues b' self) = with_issues b self.
Proof. reflexivity. Qed.

Lemma bucket_push c b e :
  bucket c (push b e)
  = (bucket c b ++ if bool_decide (fst e = c) then [snd e] else [])%list.
Proof.
  destruct e as [c' i], b, c, c'; simpl; rewrite ?app_nil_r; reflexivity.
Qed.

Lemma bucket_extend c log : forall b,
  bucket c (extend b log) = (bucket c b ++ log_bucket c log)%list.
Proof.
  unfold extend, log_bucket.
  induction log as [|e log IH]; intros b; simpl.
  - rewrite app_nil_r. reflexivity.
  - rewrite IH, bucket_push.
    destruct (bool_decide (fst e = c)); simpl;
      rewrite <- ?app_assoc, ?app_nil_r; reflexivity.
Qed.

Lemma extend_app b l1 l2 : extend b (l1 ++ l2) = extend (extend b l1) l2.
Proof. apply fold_left_app. Qed.

Section Emits.
Context (d : gmap string DataFrame) (Q : category -> issue -> Prop).

Lemma emits_ret {A} (a : A) : emits_at d Q [] (ret a).
Proof.
  exists (Ok a), []. repeat split; [constructor | constructor |].
  intros self _. unfold ret. simpl. rewrite with_issues_same. reflexivity.
Qed.

Lemma emits_weaken {A} sig sig' (m : M A) :
  sublist sig sig' -> emits_at d Q sig m -> emits_at d Q sig' m.
Proof.
  intros Hs (r & log & Hsig & HQ & Hrun).
  exists r, log. repeat split; [|exact HQ|exact Hrun].
  etransitivity; eassumption.
Qed.

Lemma emits_skip {A} sig (a : A) : emits_at d Q sig (ret a).
Proof. apply (emits_weaken []); [apply sublist_nil_l | apply emits_ret]. Qed.

Lemma emits_append c i : Q c i -> emits_at d Q [(c, type i)] (append_issue c i).
Proof.
  intros HQ. exists (Ok tt), [(c, i)]. repeat split.
  - simpl. reflexivity.
  - constructor; [exact HQ | constructor].
Qed.

Lemma emits_bind {A B} s1 s2 (m : M A) (k : A -> M B) :
  emits_at d Q s1 m -> (forall a, emits_at d Q s2 (k a)) ->
  emits_at d Q (s1 ++ s2) (bind m k).
Proof.
  intros (r & log & Hsig & HQ & Hrun) Hk.
  destruct r as [a|e].
  - destruct (Hk a) as (r' & log' & Hsig' & HQ' & Hrun').
    exists r', (log ++ log')%list. repeat split.
    + rewrite map_app. apply sublist_app; assumption.
    + apply Forall_app; split; assumption.
    + intros self Hd. unfold bind. rewrite (Hrun self Hd).
      rewrite Hrun' by exact Hd. simpl.
      rewrite extend_app. reflexivity.
  - exists (Err e), log. repeat split.
    + apply sublist_inserts_r. exact Hsig.
    + exact HQ.
    + intros self Hd. unfold bind. rewrite (Hrun self Hd). reflexivity.
Qed.

Lemma emits_bind_lift {A B} sig (r : result A) (k : A -> M B) :
  (forall a, r = Ok a -> emits_at d Q sig (k a)) ->
  emits_at d Q sig (bind (lift r) k).
Proof.
  intros Hk. destruct r as [a|e].
  - destruct (Hk a eq_refl) as (r' & log' & Hsig' & HQ' & Hrun').
    exists r', log'. repeat split; try assumption.
  - exists (Err e), []. repeat split; [apply sublist_nil_l | constructor |].
    intros self _. unfold bind, lift. simpl.
    rewrite with_issues_same. reflexivity.
Qed.

Lemma emits_bind_data {B} sig (k : gmap string DataFrame -> M B) :
  emits_at d Q sig (k d) -> emits_at d Q sig (bind get_data k).
Proof.
  intros (r & log & Hsig & HQ & Hrun).
  exists r, log. repeat split; try assumption.
  intros self Hd. unfold bind, get_data. rewrite Hd. apply Hrun, Hd.
Qed.
End Emits.

(** ** The pandas operations against the row-wise wording *)

Lemma select_map {A} (f : A -> bool) (l : list A) :
  select (map f l) l = List.filter f l.
Proof.
  induction l as [|x l IH]; simpl; [reflexivity|].
  rewrite IH. reflexivity.
Qed.

Lemma getitem_ok df c s :
  getitem df c = Ok s -> s = map (cell_of df c) (rows df).
Proof.
  unfold getitem, cell_of.
  destruct (col_index c (columns df)); intros H; inversion H. reflexivity.
Qed.

Lemma cell_of_mask df mask c row :
  cell_of (getitem_mask df mask) c row = cell_of df c row.
Proof. reflexivity. Qed.

Lemma mapM_cmp_num p s mask :
  mapM (cmp_num p) s = Ok mask -> mask = map (number_where p) s.
Proof.
  revert mask. induction s as [|c s IH]; simpl; intros mask H.
  - inversion H. reflexivity.
  - destruct c as [|q|t]; simpl in H; try discriminate;
      destruct (mapM (cmp_num p) s) as [m|e]; simpl in H; try discriminate;
      inversion H; subst; rewrite (IH m eq_refl); reflexivity.
Qed.

Lemma num_lt_num a b : num_lt (num a) (num b) = (a <? b)%Z.
Proof.
  unfold num_lt, num. simpl.
  rewrite !Qred_identity by (simpl; apply Z.gcd_1_r).
  destruct (Z.ltb_spec a b) as [H|H].
  - apply negb_true_iff. apply not_true_is_false. intros Hle.
    apply Qle_bool_iff in Hle. rewrite <- Zle_Qle in Hle. lia.
  - apply negb_false_iff. apply Qle_bool_iff. rewrite <- Zle_Qle. exact H.
Qed.

Lemma gt_str_len (n : nat) col :
  gt (str_len col) (num (Z.of_nat n)) = Ok (map (longer_than n) col).
Proof.
  unfold gt, str_len.
  induction col as [|c col IH]; simpl; [reflexivity|].
  rewrite IH. destruct c as [|q|t]; simpl; try reflexivity.
  rewrite num_lt_num.
  replace (Z.of_nat n <? Z.of_nat (String.length t))%Z
    with (n <? String.length t)%nat; [reflexivity|].
  destruct (Nat.ltb_spec n (String.length t)), (Z.ltb_spec (Z.of_nat n) (Z.of_nat (String.length t)));
    try reflexivity; lia.
Qed.

(** [df[cond(df[column])]]: the rows whose cell meets the condition. *)
Lemma rows_of_mask df column (cond : cell -> bool) col :
  getitem df column = Ok col ->
  rows (getitem_mask df (map cond col)) = matching_rows df column cond.
Proof.
  intros H. apply getitem_ok in H. subst col.
  unfold getitem_mask, matching_rows. simpl.
  rewrite map_map. apply select_map.
Qed.

Lemma dropna_ok df column df' :
  dropna df column = Ok df' ->
  columns df' = columns df /\ rows df' = matching_rows df column is_present.
Proof.
  unfold dropna. destruct (getitem df column) as [col|e] eqn:Hcol; simpl; [|discriminate].
  intros H. inversion H; subst. split; [reflexivity|].
  unfold isna. rewrite map_map.
  apply (rows_of_mask df column is_present col Hcol).
Qed.

Lemma cell_of_same_columns df df' c row :
  columns df' = columns df -> cell_of df' c row = cell_of df c row.
Proof. unfold cell_of. intros ->. reflexivity. Qed.

Lemma filter_filter_implied {A} (f g : A -> bool) (l : list A) :
  (forall x, f x = true -> g x = true) ->
  List.filter f (List.filter g l) = List.filter f l.
Proof.
  intros H. induction l as [|x l IH]; simpl; [reflexivity|].
  destruct (g x) eqn:Hg; simpl.
  - rewrite IH. reflexivity.
  - rewrite IH. destruct (f x) eqn:Hf; [|reflexivity].
    rewrite (H x Hf) in Hg. discriminate.
Qed.

Lemma empty_false df : empty df = false -> (1 <= len df)%nat.
Proof.
  unfold empty, len. intros H. apply orb_false_elim in H as [_ H].
  apply Nat.eqb_neq in H. lia.
Qed.

(** The selected rows [sel] of a frame [df], as a method holds them when it
    builds its issue: their count and the first five addresses. *)
Lemma selection_facts df column cond sel addr :
  columns sel = columns df ->
  rows sel = matching_rows df column cond ->
  empty sel = false ->
  getitem sel "Address" = Ok addr ->
  (1 <= len sel)%nat /\
  len sel = length (matching_rows df column cond) /\
  (length (head 5 addr) <= 5)%nat /\
  head 5 addr = first_addresses df column cond.
Proof.
  intros Hcols Hrows Hne Haddr.
  apply getitem_ok in Haddr.
  repeat split.
  - apply empty_false, Hne.
  - unfold len. rewrite Hrows. reflexivity.
  - unfold head. rewrite length_take. lia.
  - unfold head, first_addresses. subst addr. rewrite Hrows.
    f_equal. apply map_ext. intros row.
    apply cell_of_same_columns, Hcols.
Qed.

Lemma dict_get_In {V} (dct : list (string * V)) k v :
  dict_get dct k = Ok v -> In (k, v) dct.
Proof.
  induction dct as [|[k' v'] dct IH]; simpl; [discriminate|].
  destruct (String.eqb_spec k k') as [->|Hne].
  - intros H. inversion H. left. reflexivity.
  - intros H. right. apply IH, H.
Qed.

Lemma catalog_in_range :
  Forall (fun e => (1 <= score_impact (snd e) <= 10)%Z /\
                   (1 <= score_effort (snd e) <= 10)%Z) ISSUE_SCORES.
Proof. unfold ISSUE_SCORES. repeat constructor; simpl; lia. Qed.

(** The record [new_issue] builds carries what it was given, and scores of
    the catalog. *)
Lemma new_issue_ok ty ttl desc cnt ex rec i :
  new_issue ty ttl desc cnt ex rec = Ok i ->
  type i = ty /\ count i = cnt /\ examples i = ex /\ valid_scores i.
Proof.
  unfold new_issue.
  destruct (dict_get ISSUE_SCORES ty) as [sc|e] eqn:Hsc; simpl; [|discriminate].
  unfold true_div.
  pose proof catalog_in_range as Hr. rewrite List.Forall_forall in Hr.
  destruct (Hr _ (dict_get_In _ _ _ Hsc)) as [Hi He]. simpl in Hi, He.
  destruct (Z.eqb_spec (score_effort sc) 0) as [H0|_]; [lia|]. simpl.
  intros H. inversion H; subst; clear H.
  unfold valid_scores. simpl.
  repeat split; try reflexivity; lia.
Qed.

(** ** Every method of the detector, record by record *)

Lemma finding_of_rule d ty r df c sel addr ttl desc rec i :
  dict_get rules ty = Ok r ->
  d !! rule_table r = Some df ->
  columns sel = columns df ->
  rows sel = matching_rows df (rule_column r) (rule_condition r) ->
  empty sel = false ->
  getitem sel "Address" = Ok addr ->
  new_issue ty ttl desc (len sel) (head 5 addr) rec = Ok i ->
  type i = ty /\ sound_finding d c i.
Proof.
  intros Hr Hdf Hcols Hrows Hne Haddr Hi.
  apply new_issue_ok in Hi as (Ht & Hc & He & Hv).
  destruct (selection_facts df _ _ sel addr Hcols Hrows Hne Haddr)
    as (H1 & H2 & H3 & H4).
  split; [exact Ht|].
  unfold sound_finding. rewrite Ht, Hc, He.
  split; [exact Hv|]. split; [exact H1|]. split; [exact H3|].
  right. exists r, df. repeat split; assumption.
Qed.

Ltac emit_found ty df Hdf Hrows :=
  match goal with
  | Hne : empty ?sel = false,
    Haddr : getitem ?sel "Address" = Ok ?addr,
    Hi : new_issue ty _ _ _ _ _ = Ok ?i
    |- emits_at ?d _ [(?c, _)] _ =>
      let Hty := fresh "Hty" in
      let Hsound := fresh "Hsound" in
      destruct (finding_of_rule d ty _ df c sel addr _ _ _ i
                  eq_refl Hdf eq_refl Hrows Hne Haddr Hi)
        as [Hty Hsound];
      rewrite <- Hty at 1; apply emits_append; exact Hsound
  end.

Ltac enter_issue :=
  match goal with
  | |- emits_at _ _ _ (if negb (empty ?sel) then _ else _) =>
      let Hne := fresh "Hne" in
      destruct (negb (empty sel)) eqn:Hne; [|apply emits_skip];
      apply negb_true_iff in Hne;
      apply emits_bind_lift; intros addr Haddr;
      apply emits_bind_lift; intros i Hi
  end.

Lemma emits_broken_links d :
  emits_at d (sound_finding d)
    [(Critical, "broken_links"); (Critical, "server_errors")]
    analyze_broken_links.
Proof.
  unfold analyze_broken_links. apply emits_bind_data.
  destruct (d !! "response_codes") as [df|] eqn:Hdf; [|apply emits_skip].
  apply emits_bind_lift; intros status Hstatus.
  apply emits_bind_lift; intros mask Hmask.
  apply mapM_cmp_num in Hmask; subst mask.
  apply (emits_bind d _ [(Critical, "broken_links")] [(Critical, "server_errors")]).
  - enter_issue.
    emit_found "broken_links" df Hdf (rows_of_mask df "Status Code" (status_in 400 499) status Hstatus).
  - intros _.
    apply emits_bind_lift; intros status' Hstatus'.
    apply emits_bind_lift; intros mask Hmask.
    apply mapM_cmp_num in Hmask; subst mask.
    enter_issue.
    emit_found "server_errors" df Hdf (rows_of_mask df "Status Code" (status_in 500 599) status' Hstatus').
Qed.

Lemma emits_redirect_chains d :
  emits_at d (sound_finding d) [(Critical, "redirect_chains")] analyze_redirect_chains.
Proof.
  unfold analyze_redirect_chains. apply emits_bind_data.
  destruct (d !! "redirect_chains") as [df|] eqn:Hdf; [|apply emits_skip].
  destruct (in_columns _ df); [|apply emits_skip].
  apply emits_bind_lift; intros col Hcol.
  apply emits_bind_lift; intros mask Hmask.
  apply mapM_cmp_num in Hmask; subst mask.
  enter_issue.
  emit_found "redirect_chains" df Hdf (rows_of_mask df "Redirect Chain" (greater_than 1) col Hcol).
Qed.

Lemma emits_missing_meta_descriptions d :
  emits_at d (sound_finding d) [(High, "missing_meta_descriptions")]
    analyze_missing_meta_descriptions.
Proof.
  unfold analyze_missing_meta_descriptions. apply emits_bind_data.
  destruct (d !! "meta_description") as [df|] eqn:Hdf; [|apply emits_skip].
  apply emits_bind_lift; intros col Hcol.
  enter_issue.
  emit_found "missing_meta_descriptions" df Hdf
    (rows_of_mask df "Meta Description 1" is_nan col Hcol).
Qed.

Lemma emits_missing_h1 d :
  emits_at d (sound_finding d) [(High, "missing_h1")] analyze_missing_h1.
Proof.
  unfold analyze_missing_h1. apply emits_bind_data.
  destruct (d !! "h1") as [df|] eqn:Hdf; [|apply emits_skip].
  apply emits_bind_lift; intros col Hcol.
  enter_issue.
  emit_found "missing_h1" df Hdf (rows_of_mask df "H1-1" is_nan col Hcol).
Qed.

Lemma emits_slow_pages d :
  emits_at d (sound_finding d) [(High, "slow_pages")] analyze_slow_pages.
Proof.
  unfold analyze_slow_pages. apply emits_bind_data.
  destruct (d !! "page_speed") as [df|] eqn:Hdf; [|apply emits_skip].
  destruct (in_columns _ df); [|apply emits_skip].
  apply emits_bind_lift; intros col Hcol.
  apply emits_bind_lift; intros mask Hmask.
  apply mapM_cmp_num in Hmask; subst mask.
  enter_issue.
  emit_found "slow_pages" df Hdf
    (rows_of_mask df "Page Load Time (Seconds)" (greater_than 3) col Hcol).
Qed.

Lemma emits_missing_alt_text d :
  emits_at d (sound_finding d) [(Medium, "missing_alt_text")] analyze_missing_alt_text.
Proof.
  unfold analyze_missing_alt_text. apply emits_bind_data.
  destruct (d !! "images") as [df|] eqn:Hdf; [|apply emits_skip].
  apply emits_bind_lift; intros col Hcol.
  enter_issue.
  emit_found "missing_alt_text" df Hdf (rows_of_mask df "Alt Text" is_nan col Hcol).
Qed.

Lemma rows_after_dropna df df' column (cond : cell -> bool) col :
  dropna df column = Ok df' ->
  getitem df' column = Ok col ->
  (forall c, cond c = true -> is_present c = true) ->
  rows (getitem_mask df' (map cond col)) = matching_rows df column cond.
Proof.
  intros Hdrop Hcol Himp.
  destruct (dropna_ok _ _ _ Hdrop) as [Hcols Hrows].
  rewrite (rows_of_mask df' column cond col Hcol).
  unfold matching_rows. rewrite Hrows. unfold matching_rows.
  rewrite (List.filter_ext _ (fun row => cond (cell_of df column row)))
    by (intros row; rewrite (cell_of_same_columns df df' column row Hcols); reflexivity).
  apply filter_filter_implied. intros row. apply Himp.
Qed.

Lemma longer_than_present n c : longer_than n c = true -> is_present c = true.
Proof. destruct c; simpl; intros H; try discriminate; reflexivity. Qed.

Ltac emit_found_in ty df Hdf Hcols Hrows :=
  match goal with
  | Hne : empty ?sel = false,
    Haddr : getitem ?sel "Address" = Ok ?addr,
    Hi : new_issue ty _ _ _ _ _ = Ok ?i
    |- emits_at ?d _ [(?c, _)] _ =>
      let Hty := fresh "Hty" in
      let Hsound := fresh "Hsound" in
      destruct (finding_of_rule d ty _ df c sel addr _ _ _ i
                  eq_refl Hdf Hcols Hrows Hne Haddr Hi)
        as [Hty Hsound];
      rewrite <- Hty at 1; apply emits_append; exact Hsound
  end.

Lemma emits_title_length d :
  emits_at d (sound_finding d) [(Medium, "title_too_long")] analyze_title_length.
Proof.
  unfold analyze_title_length. apply emits_bind_data.
  destruct (d !! "page_titles") as [df|] eqn:Hdf; [|apply emits_skip].
  apply emits_bind_lift; intros df' Hdrop. cbv zeta.
  apply emits_bind_lift; intros col Hcol.
  apply emits_bind_lift; intros mask Hmask.
  assert (Hm : Ok mask = Ok (map (longer_than 60) col))
    by (rewrite <- Hmask; exact (gt_str_len 60 col)).
  inversion Hm; subst mask; clear Hm.
  enter_issue.
  emit_found_in "title_too_long" df Hdf (proj1 (dropna_ok _ _ _ Hdrop))
    (rows_after_dropna df df' "Title 1" (longer_than 60) col Hdrop Hcol
       (longer_than_present 60)).
Qed.

Lemma emits_description_length d :
  emits_at d (sound_finding d) [(Medium, "description_too_long")]
    analyze_description_length.
Proof.
  unfold analyze_description_length. apply emits_bind_data.
  destruct (d !! "meta_description") as [df|] eqn:Hdf; [|apply emits_skip].
  apply emits_bind_lift; intros df' Hdrop. cbv zeta.
  apply emits_bind_lift; intros col Hcol.
  apply emits_bind_lift; intros mask Hmask.
  assert (Hm : Ok mask = Ok (map (longer_than 160) col))
    by (rewrite <- Hmask; exact (gt_str_len 160 col)).
  inversion Hm; subst mask; clear Hm.
  enter_issue.
  emit_found_in "description_too_long" df Hdf (proj1 (dropna_ok _ _ _ Hdrop))
    (rows_after_dropna df df' "Meta Description 1" (longer_than 160) col Hdrop Hcol
       (longer_than_present 160)).
Qed.

Lemma emits_multiple_h1 d :
  emits_at d (sound_finding d) [(Low, "multiple_h1")] analyze_multiple_h1.
Proof.
  unfold analyze_multiple_h1. apply emits_bind_data.
  destruct (d !! "h1") as [df|] eqn:Hdf; [|apply emits_skip].
  destruct (in_columns _ df); [|apply emits_skip].
  apply emits_bind_lift; intros df' Hdrop.
  enter_issue.
  emit_found_in "multiple_h1" df Hdf (proj1 (dropna_ok _ _ _ Hdrop))
    (proj2 (dropna_ok _ _ _ Hdrop)).
Qed.

Lemma duplicate_examples_ok df' titles ex :
  Forall (fun row => is_present (cell_of df' "Title 1" row) = true) (rows df') ->
  duplicate_examples df' titles = Ok ex ->
  ex = flat_map
         (fun t =>
            take 2
              (map (cell_of df' "Address")
                 (List.filter (fun row => bool_decide (cell_of df' "Title 1" row = t))
                    (rows df'))))
         titles.
Proof.
  intros Hpresent. revert ex.
  induction titles as [|t titles IH]; intros ex H.
  - inversion H. reflexivity.
  - cbn [duplicate_examples] in H.
    destruct (getitem df' "Title 1") as [col|e] eqn:Hcol; [|discriminate].
    cbn [rbind] in H.
    destruct (getitem (getitem_mask df' (eq_value col t)) "Address")
      as [urls|e] eqn:Hurls; [|discriminate].
    cbn [rbind] in H.
    destruct (duplicate_examples df' titles) as [rest|e]; [|discriminate].
    cbn [rbind] in H.
    inversion H; subst ex; clear H.
    cbn [flat_map]. rewrite <- (IH rest eq_refl).
    apply (f_equal (fun l => (l ++ rest)%list)).
    apply getitem_ok in Hurls. subst urls. unfold head.
    apply (f_equal (take 2)).
    unfold eq_value.
    rewrite (rows_of_mask df' "Title 1"
               (fun c => negb (is_nan c) && bool_decide (c = t)) col Hcol).
    rewrite (map_ext _ _ (cell_of_mask df' _ "Address")).
    apply (f_equal (map (cell_of df' "Address"))).
    unfold matching_rows.
    apply List.filter_ext_in. intros row Hrow.
    rewrite List.Forall_forall in Hpresent.
    specialize (Hpresent row Hrow). unfold is_present in Hpresent.
    rewrite Hpresent. reflexivity.
Qed.

Lemma matching_rows_meet df column cond :
  Forall (fun row => cond (cell_of df column row) = true)
         (matching_rows df column cond).
Proof.
  rewrite List.Forall_forall. intros row Hrow.
  apply List.filter_In in Hrow. apply Hrow.
Qed.

Lemma emits_duplicate_titles d :
  emits_at d (sound_finding d) [(Critical, "duplicate_titles")]
    analyze_duplicate_titles.
Proof.
  unfold analyze_duplicate_titles. apply emits_bind_data.
  destruct (d !! "page_titles") as [df|] eqn:Hdf; [|apply emits_skip].
  apply emits_bind_lift; intros df' Hdrop.
  apply emits_bind_lift; intros col Hcol. cbv zeta.
  destruct (dropna_ok _ _ _ Hdrop) as [Hcols Hrows].
  assert (Hvalues : col = title_values df).
  { apply getitem_ok in Hcol. subst col. unfold title_values.
    rewrite Hrows. apply map_ext. intros row.
    apply cell_of_same_columns, Hcols. }
  subst col. fold (duplicated_titles df).
  destruct (negb (length (duplicated_titles df) =? 0)%nat) eqn:Hne; [|apply emits_skip].
  apply negb_true_iff, Nat.eqb_neq in Hne.
  apply emits_bind_lift; intros ex Hex.
  apply emits_bind_lift; intros i Hi.
  apply new_issue_ok in Hi as (Ht & Hc & He & Hv).
  rewrite <- Ht at 1. apply emits_append.
  unfold sound_finding. rewrite Ht, Hc, He.
  split; [exact Hv|]. split; [lia|].
  split; [rewrite length_take; lia|].
  left. split; [reflexivity|]. exists df.
  split; [exact Hdf|]. split; [reflexivity|].
  unfold duplicate_title_examples. f_equal.
  apply duplicate_examples_ok in Hex.
  - subst ex. rewrite Hrows. apply flat_map_ext. intros t.
    f_equal. rewrite (map_ext _ _ (fun row => cell_of_same_columns df df' "Address" row Hcols)).
    f_equal. apply List.filter_ext. intros row.
    rewrite (cell_of_same_columns df df' "Title 1" row Hcols). reflexivity.
  - rewrite Hrows.
    pose proof (matching_rows_meet df "Title 1" is_present) as H.
    rewrite List.Forall_forall in H |- *. intros row Hrow.
    rewrite (cell_of_same_columns df df' "Title 1" row Hcols). apply H, Hrow.
Qed.

(** All ten methods in a row: [run_checks] appends, in [check_order], only
    records that hold of the data. *)
Lemma emits_run_checks d :
  emits_at d (sound_finding d) check_order run_checks.
Proof.
  unfold run_checks, check_order.
  apply (emits_bind d _ [_; _] _ _ _ (emits_broken_links d)); intros _.
  apply (emits_bind d _ [_] _ _ _ (emits_redirect_chains d)); intros _.
  apply (emits_bind d _ [_] _ _ _ (emits_duplicate_titles d)); intros _.
  apply (emits_bind d _ [_] _ _ _ (emits_missing_meta_descriptions d)); intros _.
  apply (emits_bind d _ [_] _ _ _ (emits_missing_h1 d)); intros _.
  apply (emits_bind d _ [_] _ _ _ (emits_slow_pages d)); intros _.
  apply (emits_bind d _ [_] _ _ _ (emits_title_length d)); intros _.
  apply (emits_bind d _ [_] _ _ _ (emits_description_length d)); intros _.
  apply (emits_bind d _ [_] _ _ _ (emits_missing_alt_text d)); intros _.
  apply emits_multiple_h1.
Qed.

(** ** The aggregator *)

Lemma run_analysis_unfold today self :
  run_analysis today self =
  match run_checks self with
  | (Ok _, mid) => (Ok tt, aggregated today mid)
  | (Err e, mid) => (Err e, mid)
  end.
Proof.
  unfold run_analysis, bind at 1.
  destruct (run_checks self) as [[u|e] mid]; reflexivity.
Qed.

Lemma bucket_sorted_buckets c b :
  bucket c (sorted_buckets b) = sort_by_priority (bucket c b).
Proof. destruct b, c; reflexivity. Qed.

Lemma total_is_length b :
  list_sum (map (fun c => length (bucket c b)) categories) = length (all_issues b).
Proof.
  unfold all_issues, categories. simpl.
  rewrite !length_app. simpl. lia.
Qed.

Lemma StronglySorted_weaken {A} (R R' : A -> A -> Prop) (P : A -> Prop) l :
  Forall P l ->
  (forall a b, P a -> P b -> R a b -> R' a b) ->
  StronglySorted R l -> StronglySorted R' l.
Proof.
  intros HP Himp Hs. induction Hs as [|a l Hs IH Ha]; [constructor|].
  inversion HP as [|? ? Pa Pl]; subst.
  constructor; [apply IH, Pl|].
  rewrite List.Forall_forall in Ha, Pl |- *.
  intros b Hb. apply Himp; auto.
Qed.

Lemma sort_by_priority_rank l :
  Forall valid_scores l ->
  sort_by_priority l = sorted_desc (key_lt rank) l.
Proof.
  intros Hv. rewrite List.Forall_forall in Hv.
  apply sorted_desc_ext. intros x y Hx Hy.
  unfold priority_lt, key_lt.
  apply (valid_scores_agree x y); auto.
Qed.

Lemma sort_by_priority_sorted l :
  Forall valid_scores l -> StronglySorted priority_ge (sort_by_priority l).
Proof.
  intros Hv. rewrite (sort_by_priority_rank l Hv).
  apply (StronglySorted_weaken (key_ge rank) priority_ge valid_scores).
  - rewrite List.Forall_forall in Hv |- *. intros x Hx.
    apply Hv. apply (sorted_desc_In (key_lt rank) l x), Hx.
  - intros a b Ha Hb Hge. unfold priority_ge, key_ge in *.
    destruct (valid_scores_agree b a Hb Ha) as (_ & -> & _).
    apply Z.leb_le, Hge.
  - apply sorted_desc_sorted.
Qed.

Lemma sort_by_priority_stable l i0 :
  Forall valid_scores l -> valid_scores i0 ->
  List.filter (same_priority i0) (sort_by_priority l)
  = List.filter (same_priority i0) l.
Proof.
  intros Hv H0. rewrite (sort_by_priority_rank l Hv).
  apply sorted_desc_stable. rewrite List.Forall_forall in Hv.
  intros x y Hx Hy Px Py. unfold same_priority in Px, Py.
  destruct (valid_scores_agree x i0 (Hv x Hx) H0) as (_ & _ & Ex).
  destruct (valid_scores_agree y i0 (Hv y Hy) H0) as (_ & _ & Ey).
  rewrite Ex in Px. rewrite Ey in Py.
  apply Z.eqb_eq in Px, Py. congruence.
Qed.

Lemma sublist_filter_map {A B} (f : A -> B) (p : A -> bool) (q : B -> bool) l :
  (forall x, p x = q (f x)) ->
  map f (List.filter p l) = List.filter q (map f l).
Proof.
  intros H. induction l as [|x l IH]; simpl; [reflexivity|].
  rewrite <- H. destruct (p x); simpl; rewrite IH; reflexivity.
Qed.

Lemma List_filter_sublist {A} (p : A -> bool) (l : list A) :
  sublist (List.filter p l) l.
Proof.
  induction l as [|x l IH]; simpl; [constructor|].
  destruct (p x); [apply sublist_skip | apply sublist_cons]; exact IH.
Qed.

(** The records of one bucket of an emission log appear in check order. *)
Lemma log_bucket_order c log :
  sublist (map (fun e => (fst e, type (snd e))) log) check_order ->
  sublist (map (fun i => (c, type i)) (log_bucket c log)) check_order.
Proof.
  intros H. etransitivity; [|exact H].
  unfold log_bucket. rewrite map_map.
  rewrite (map_ext_in _ (fun e => (fst e, type (snd e)))).
  - rewrite (sublist_filter_map (fun e => (fst e, type (snd e)))
               _ (fun e => bool_decide (fst e = c))) by reflexivity.
    apply List_filter_sublist.
  - intros e He. apply List.filter_In in He as [_ He].
    apply bool_decide_eq_true in He. rewrite He. reflexivity.
Qed.

Lemma log_bucket_sound d c log :
  Forall (fun e => sound_finding d (fst e) (snd e)) log ->
  Forall (sound_finding d c) (log_bucket c log).
Proof.
  rewrite !List.Forall_forall. intros H i Hi.
  unfold log_bucket in Hi. apply in_map_iff in Hi as (e & <- & He).
  apply List.filter_In in He as [He Hc].
  apply bool_decide_eq_true in Hc. subst c. apply H, He.
Qed.

Lemma sound_valid d c l :
  Forall (sound_finding d c) l -> Forall valid_scores l.
Proof. apply List.Forall_impl. intros i H. apply H. Qed.

(** The checks, run on any instance: the outcome and the records appended
    depend on the loaded tables only. *)
Lemma run_checks_log d :
  exists r log,
    sublist (map (fun e => (fst e, type (snd e))) log) check_order /\
    Forall (fun e => sound_finding d (fst e) (snd e)) log /\
    forall self, data self = d ->
      run_checks self = (r, with_issues (extend (issues self) log) self) /\
      forall c, bucket c (issues (snd (run_checks self)))
                = (bucket c (issues self) ++ log_bucket c log)%list.
Proof.
  destruct (emits_run_checks d) as (r & log & Hsig & HQ & Hrun).
  exists r, log. repeat split; try assumption.
  - apply Hrun, H.
  - intros c. rewrite (Hrun self H). simpl. apply bucket_extend.
Qed.

Lemma StronglySorted_take {A} (R : A -> A -> Prop) n l :
  StronglySorted R l -> StronglySorted R (take n l).
Proof.
  intros Hs. revert n. induction Hs as [|a l Hs IH Ha]; intros [|n]; simpl;
    try constructor.
  - apply IH.
  - rewrite List.Forall_forall in Ha |- *. intros b Hb.
    apply Ha. apply list_elem_of_In. apply list_elem_of_In in Hb.
    exact (subseteq_take n l b Hb).
Qed.

(** C1.  Take an instance whose buckets hold records with scores of the
    catalog (a fresh instance, or one left by earlier runs), and let
    [run_analysis] return on it.  The checks have appended their records to
    the buckets in the fixed check order; every record's priority score is
    the float quotient of its impact by its effort; and each bucket is the
    records it held before the sort, sorted by descending priority score,
    records of equal score in the order they were in, that is the order the
    checks emitted them. *)
Theorem priority_order_is_stable (today : string) (self self' : SEOAuditAutomation) :
  (forall c, Forall valid_scores (bucket c (issues self))) ->
  run_analysis today self = (Ok tt, self') ->
  exists mid,
    run_checks self = (Ok tt, mid) /\
    forall c,
      (exists emitted,
         bucket c (issues mid) = (bucket c (issues self) ++ emitted)%list /\
         sublist (map (fun i => (c, type i)) emitted) check_order) /\
      Forall (fun i => priority_score i = quotient (impact i) (effort i))
             (bucket c (issues self')) /\
      Forall valid_scores (bucket c (issues self')) /\
      Permutation (bucket c (issues self')) (bucket c (issues mid)) /\
      StronglySorted priority_ge (bucket c (issues self')) /\
      forall i0, In i0 (bucket c (issues mid)) ->
        List.filter (same_priority i0) (bucket c (issues self'))
        = List.filter (same_priority i0) (bucket c (issues mid)).
Proof.
  intros Hold Hrun.
  destruct (run_checks_log (data self)) as (r & log & Hsig & HQ & Hlog).
  destruct (Hlog self eq_refl) as [Hchecks Hbuckets].
  rewrite run_analysis_unfold, Hchecks in Hrun.
  destruct r as [[]|e]; [|discriminate].
  inversion Hrun; subst self'; clear Hrun.
  eexists. split; [exact Hchecks|].
  intros c. specialize (Hbuckets c).
  rewrite Hchecks in Hbuckets. simpl in Hbuckets.
  simpl. rewrite bucket_sorted_buckets, Hbuckets.
  assert (Hvalid : Forall valid_scores (bucket c (issues self) ++ log_bucket c log)).
  { apply Forall_app. split; [apply Hold|].
    apply (sound_valid _ _ _ (log_bucket_sound _ c _ HQ)). }
  assert (Hsorted : Forall valid_scores
                      (sort_by_priority (bucket c (issues self) ++ log_bucket c log))).
  { rewrite List.Forall_forall in Hvalid |- *. intros i Hi.
    apply (proj1 (sorted_desc_In priority_lt _ i)) in Hi. apply (Hvalid i Hi). }
  split.
  { exists (log_bucket c log). split; [reflexivity|]. apply log_bucket_order, Hsig. }
  split.
  { apply (List.Forall_impl _ (fun i (H : valid_scores i) => proj2 (proj2 H)) Hsorted). }
  split; [exact Hsorted|].
  split; [apply sorted_desc_perm|].
  split; [apply sort_by_priority_sorted, Hvalid|].
  intros i0 Hi0. apply sort_by_priority_stable; [exact Hvalid|].
  rewrite List.Forall_forall in Hvalid. apply Hvalid, Hi0.
Qed.

(** C2.  When [run_analysis] returns, the summary's highest-impact list is
    the four buckets, as sorted, put end to end in the order critical, high,
    medium, low, then sorted by descending impact with records of equal
    impact left in that order, then cut to the first three; its length is
    the smaller of 3 and the total number of issues. *)
Theorem highest_impact_summary (today : string) (self self' : SEOAuditAutomation) :
  run_analysis today self = (Ok tt, self') ->
  exists s mid,
    summary self' = Some s /\
    run_checks self = (Ok tt, mid) /\
    (forall c, bucket c (issues self') = sort_by_priority (bucket c (issues mid))) /\
    let b := issues self' in
    let flat := (critical b ++ high b ++ medium b ++ low b)%list in
    total_issues s = length flat /\
    highest_impact_issues s = take 3 (sorted_desc impact_lt flat) /\
    length (highest_impact_issues s) = Nat.min 3 (total_issues s) /\
    Permutation (sorted_desc impact_lt flat) flat /\
    StronglySorted impact_ge (sorted_desc impact_lt flat) /\
    (forall z, List.filter (same_impact z) (sorted_desc impact_lt flat)
               = List.filter (same_impact z) flat) /\
    StronglySorted impact_ge (highest_impact_issues s).
Proof.
  intros Hrun. rewrite run_analysis_unfold in Hrun.
  destruct (run_checks self) as [[[]|e] mid] eqn:Hchecks; [|discriminate].
  inversion Hrun; subst self'; clear Hrun.
  eexists. exists mid. split; [reflexivity|]. split; [reflexivity|].
  split; [intros c; apply bucket_sorted_buckets|].
  cbv zeta. simpl summary. simpl issues.
  set (b := sorted_buckets (issues mid)).
  assert (Hflat : all_issues b = (critical b ++ high b ++ medium b ++ low b)%list)
    by (unfold all_issues; simpl; rewrite app_nil_r; reflexivity).
  change (total_issues (summary_of today b))
    with (list_sum (map (fun c => length (bucket c b)) categories)).
  change (highest_impact_issues (summary_of today b))
    with (take 3 (sorted_desc impact_lt (all_issues b))).
  rewrite total_is_length, Hflat.
  set (flat := (critical b ++ high b ++ medium b ++ low b)%list).
  assert (Hsorted : StronglySorted impact_ge (sorted_desc impact_lt flat))
    by exact (sorted_desc_sorted impact flat).
  split; [reflexivity|]. split; [reflexivity|].
  split; [rewrite length_take, sorted_desc_length; reflexivity|].
  split; [apply sorted_desc_perm|].
  split; [exact Hsorted|].
  split; [|apply StronglySorted_take, Hsorted].
  intros z. apply (sorted_desc_stable impact (same_impact z) flat).
  intros x y _ _ Hx Hy. unfold same_impact in Hx, Hy.
  apply Z.eqb_eq in Hx, Hy. congruence.
Qed.

(** How a run of [run_analysis] ends, in terms of the emission log of its
    checks. *)
Lemma run_analysis_log d :
  exists r log,
    sublist (map (fun e => (fst e, type (snd e))) log) check_order /\
    Forall (fun e => sound_finding d (fst e) (snd e)) log /\
    forall today self, data self = d ->
      let mid := with_issues (extend (issues self) log) self in
      run_analysis today self
      = (r, match r with Ok _ => aggregated today mid | Err _ => mid end).
Proof.
  destruct (run_checks_log d) as (r & log & Hsig & HQ & Hlog).
  exists r, log. split; [exact Hsig|]. split; [exact HQ|].
  intros today self Hd. cbv zeta.
  rewrite run_analysis_unfold, (proj1 (Hlog self Hd)).
  destruct r as [[]|e]; reflexivity.
Qed.

Lemma no_rule_for_duplicates : dict_get rules "duplicate_titles" = Err (KeyError "duplicate_titles").
Proof. reflexivity. Qed.

(** C5.  Every record in the buckets after [run_analysis] on a fresh
    instance, however the run ends, has a count of at least 1 and at most
    five examples.  A [duplicate_titles] record counts the duplicated title
    values and its examples are up to two addresses for each of the first
    five of them, cut to five; any other record belongs to a rule of the
    table, counts the rows of the rule's table that meet its condition, and
    its examples are the addresses of the first five of these rows in file
    order. *)
Theorem created_records_are_sound (today : string) (self self' : SEOAuditAutomation)
    (r : result unit) :
  issues self = no_issues ->
  run_analysis today self = (r, self') ->
  forall c i, In i (bucket c (issues self')) ->
    (1 <= count i)%nat /\
    (length (examples i) <= 5)%nat /\
    ((type i = "duplicate_titles" /\
      exists df, data self !! "page_titles" = Some df /\
        count i = length (duplicated_titles df) /\
        examples i = duplicate_title_examples df)
     \/
     (type i <> "duplicate_titles" /\
      exists rl df, dict_get rules (type i) = Ok rl /\
        data self !! rule_table rl = Some df /\
        count i = length (matching_rows df (rule_column rl) (rule_condition rl)) /\
        examples i = first_addresses df (rule_column rl) (rule_condition rl))).
Proof.
  intros Hfresh Hrun c i Hi.
  destruct (run_analysis_log (data self)) as (r' & log & _ & HQ & Hlog).
  rewrite (Hlog today self eq_refl) in Hrun. cbv zeta in Hrun.
  inversion Hrun; subst r' self'; clear Hrun.
  assert (Hin : In i (log_bucket c log)).
  { destruct r as [[]|e]; simpl in Hi.
    - rewrite bucket_sorted_buckets in Hi.
      apply (proj1 (sorted_desc_In priority_lt _ i)) in Hi.
      rewrite bucket_extend, Hfresh in Hi. destruct c; exact Hi.
    - rewrite bucket_extend, Hfresh in Hi. destruct c; exact Hi. }
  pose proof (log_bucket_sound _ c _ HQ) as Hsound.
  rewrite List.Forall_forall in Hsound.
  destruct (Hsound i Hin) as (_ & Hcount & Hlen & Hcase).
  split; [exact Hcount|]. split; [exact Hlen|].
  destruct Hcase as [Hdup | (rl & df & Hrl & Hrest)]; [left; exact Hdup|].
  right. split.
  - intros Hty. rewrite Hty, no_rule_for_duplicates in Hrl. discriminate.
  - exists rl, df. split; assumption.
Qed.

Lemma length_all_issues b :
  length (all_issues b)
  = (length (bucket Critical b) + length (bucket High b)
     + length (bucket Medium b) + length (bucket Low b))%nat.
Proof. unfold all_issues. simpl. rewrite !length_app. simpl. lia. Qed.

(** ** A check that finds something: broken links *)

(** A method that only appends keeps the tables and every record. *)
Lemma emits_keeps {A} d Q sig (m : M A) self :
  emits_at d Q sig m -> data self = d ->
  data (snd (m self)) = d /\
  forall c i, In i (bucket c (issues self)) -> In i (bucket c (issues (snd (m self)))).
Proof.
  intros (r & log & _ & _ & Hrun) Hd. rewrite (Hrun self Hd). cbn [snd].
  split; [exact Hd|]. intros c i Hi. cbn [issues with_issues].
  rewrite bucket_extend. apply in_or_app. left. exact Hi.
Qed.

Lemma getitem_columns df c s : getitem df c = Ok s -> columns df <> [].
Proof.
  unfold getitem. destruct (columns df); [discriminate | discriminate].
Qed.

(** The second half of [analyze_broken_links], on the server errors. *)
Lemma emits_server_errors d df :
  d !! "response_codes" = Some df ->
  emits_at d (sound_finding d) [(Critical, "server_errors")]
    (status <- lift (getitem df "Status Code") ;;
     mask <- lift (between status (num 500) (num 599)) ;;
     let server_errors := getitem_mask df mask in
     if negb (empty server_errors) then
       addr <- lift (getitem server_errors "Address") ;;
       i <- lift (new_issue "server_errors" "Server Errors (5xx)"
                    "Pages returning server error status codes"
                    (len server_errors) (head 5 addr)
                    "Investigate server issues and fix the root cause to ensure page availability") ;;
       append_issue Critical i
     else ret tt).
Proof.
  intros Hdf.
  apply emits_bind_lift; intros status' Hstatus'.
  apply emits_bind_lift; intros mask Hmask.
  apply mapM_cmp_num in Hmask; subst mask. cbv zeta.
  enter_issue.
  emit_found "server_errors" df Hdf
    (rows_of_mask df "Status Code" (status_in 500 599) status' Hstatus').
Qed.

(** When the table of response codes has a row with a status from 400 to
    499 and the check returns, it has appended a record for them. *)
Lemma broken_links_found self self' df :
  data self !! "response_codes" = Some df ->
  matching_rows df "Status Code" (status_in 400 499) <> [] ->
  analyze_broken_links self = (Ok tt, self') ->
  exists i, In i (bucket Critical (issues self')) /\ type i = "broken_links".
Proof.
  intros Hdf Hrows.
  unfold analyze_broken_links, bind at 1, get_data. rewrite Hdf.
  unfold bind at 1, lift at 1.
  destruct (getitem df "Status Code") as [status|e] eqn:Hstatus; [|discriminate].
  unfold bind at 1, lift at 1.
  destruct (between status (num 400) (num 499)) as [mask|e] eqn:Hmask;
    [|discriminate].
  apply mapM_cmp_num in Hmask. subst mask. cbv zeta.
  pose proof (rows_of_mask df "Status Code" (status_in 400 499) status Hstatus)
    as Hsel.
  set (client_errors :=
         getitem_mask df
           (map (number_where
                   (fun q => num_le (num 400) q && num_le q (num 499))) status))
    in *.
  assert (Hne : empty client_errors = false).
  { unfold empty. apply orb_false_intro; apply Nat.eqb_neq.
    - pose proof (getitem_columns _ _ _ Hstatus) as Hc.
      change (columns client_errors) with (columns df).
      destruct (columns df); [congruence | discriminate].
    - change (rows client_errors)
        with (rows (getitem_mask df (map (status_in 400 499) status))).
      rewrite Hsel.
      destruct (matching_rows df "Status Code" (status_in 400 499));
        [congruence | discriminate]. }
  unfold bind at 1. rewrite Hne. cbn [negb].
  unfold bind at 1, lift at 1.
  destruct (getitem client_errors "Address") as [addr|e]; [|discriminate].
  unfold bind at 1, lift at 1.
  destruct (new_issue "broken_links" _ _ _ _ _) as [i|e] eqn:Hi; [|discriminate].
  unfold append_issue at 1.
  intros Hrest. rewrite <- Hstatus in Hrest.
  match type of Hrest with
  | ?m ?s = _ =>
      destruct (emits_keeps (data self) _ _ m s
                  (emits_server_errors (data self) df Hdf) eq_refl)
        as [_ Hkeep]
  end.
  rewrite Hrest in Hkeep. cbn [snd] in Hkeep.
  exists i. split.
  - apply Hkeep. cbn [issues with_issues].
    destruct (issues self); cbn. apply in_or_app. right. left. reflexivity.
  - unfold new_issue in Hi.
    destruct (dict_get ISSUE_SCORES "broken_links"); [|discriminate].
    cbn [rbind] in Hi.
    destruct (true_div _ _); [|discriminate]. cbn [rbind] in Hi.
    inversion Hi. reflexivity.
Qed.

(** The nine checks after the first keep what it has appended. *)
Lemma run_checks_keeps_broken_links self mid df :
  data self !! "response_codes" = Some df ->
  matching_rows df "Status Code" (status_in 400 499) <> [] ->
  run_checks self = (Ok tt, mid) ->
  exists i, In i (bucket Critical (issues mid)) /\ type i = "broken_links".
Proof.
  intros Hdf Hrows. unfold run_checks, bind at 1.
  destruct (analyze_broken_links self) as [[[]|e] s1] eqn:Hfirst; [|discriminate].
  destruct (broken_links_found self s1 df Hdf Hrows Hfirst) as (i & Hi & Hty).
  destruct (emits_keeps (data self) _ _ analyze_broken_links self
              (emits_broken_links (data self)) eq_refl) as [Hd1 _].
  rewrite Hfirst in Hd1. cbn [snd] in Hd1.
  match goal with
  | |- ?m ?s = _ -> _ =>
      intros Hrest;
      assert (Hm : emits_at (data self) (sound_finding (data self))
                     ([(Critical, "redirect_chains")] ++ [(Critical, "duplicate_titles")]
                      ++ [(High, "missing_meta_descriptions")] ++ [(High, "missing_h1")]
                      ++ [(High, "slow_pages")] ++ [(Medium, "title_too_long")]
                      ++ [(Medium, "description_too_long")]
                      ++ [(Medium, "missing_alt_text")] ++ [(Low, "multiple_h1")])
                     m)
  end.
  { apply (emits_bind _ _ [_] _ _ _ (emits_redirect_chains _)); intros _.
    apply (emits_bind _ _ [_] _ _ _ (emits_duplicate_titles _)); intros _.
    apply (emits_bind _ _ [_] _ _ _ (emits_missing_meta_descriptions _)); intros _.
    apply (emits_bind _ _ [_] _ _ _ (emits_missing_h1 _)); intros _.
    apply (emits_bind _ _ [_] _ _ _ (emits_slow_pages _)); intros _.
    apply (emits_bind _ _ [_] _ _ _ (emits_title_length _)); intros _.
    apply (emits_bind _ _ [_] _ _ _ (emits_description_length _)); intros _.
    apply (emits_bind _ _ [_] _ _ _ (emits_missing_alt_text _)); intros _.
    apply emits_multiple_h1. }
  destruct (emits_keeps (data self) _ _ _ s1 Hm Hd1) as [_ Hkeep].
  rewrite Hrest in Hkeep. cbn [snd] in Hkeep.
  exists i. split; [apply Hkeep, Hi | exact Hty].
Qed.

(** C10.  [run_analysis] is not idempotent.  A second call on the instance
    a first call has left ends as the first did, and each bucket then holds
    every record of the first call twice: its length has doubled, and so
    has [total_issues] when the calls return.  A bucket the first call has
    filled is longer after the second, which leaves another instance; and
    the first call fills the critical bucket whenever it returns on a table
    of response codes with a status from 400 to 499. *)
Theorem second_run_doubles (today today' : string) (self self1 : SEOAuditAutomation)
    (r : result unit) :
  issues self = no_issues ->
  run_analysis today self = (r, self1) ->
  exists self2,
    run_analysis today' self1 = (r, self2) /\
    (forall c,
       Permutation (bucket c (issues self2))
                   (bucket c (issues self1) ++ bucket c (issues self1)) /\
       length (bucket c (issues self2)) = (2 * length (bucket c (issues self1)))%nat) /\
    (r = Ok tt ->
     exists s1 s2, summary self1 = Some s1 /\ summary self2 = Some s2 /\
       total_issues s2 = (2 * total_issues s1)%nat) /\
    (forall c, bucket c (issues self1) <> [] ->
       (length (bucket c (issues self1)) < length (bucket c (issues self2)))%nat /\
       self2 <> self1) /\
    (r = Ok tt ->
     forall df, data self !! "response_codes" = Some df ->
       matching_rows df "Status Code" (status_in 400 499) <> [] ->
       (exists i, In i (bucket Critical (issues self1)) /\ type i = "broken_links") /\
       (2 <= length (bucket Critical (issues self2)))%nat /\
       self2 <> self1).
Proof.
  intros Hfresh Hrun.
  assert (Hfound : r = Ok tt ->
     forall df, data self !! "response_codes" = Some df ->
       matching_rows df "Status Code" (status_in 400 499) <> [] ->
       exists i, In i (bucket Critical (issues self1)) /\ type i = "broken_links").
  { intros -> df Hdf Hrows. rewrite run_analysis_unfold in Hrun.
    destruct (run_checks self) as [[[]|e] mid] eqn:Hchecks; [|discriminate].
    inversion Hrun; subst self1; clear Hrun.
    destruct (run_checks_keeps_broken_links self mid df Hdf Hrows Hchecks)
      as (i & Hi & Hty).
    exists i. split; [|exact Hty].
    cbn [issues aggregated]. rewrite bucket_sorted_buckets.
    apply sorted_desc_In, Hi. }
  destruct (run_analysis_log (data self)) as (r' & log & _ & _ & Hlog).
  rewrite (Hlog today self eq_refl) in Hrun. cbv zeta in Hrun.
  injection Hrun as Hr Hself1. subst r'. symmetry in Hself1.
  assert (Hdata : data self1 = data self) by (subst self1; destruct r; reflexivity).
  pose proof (Hlog today' self1 Hdata) as Hrun2. cbv zeta in Hrun2.
  eexists. split; [exact Hrun2|].
  assert (Hfirst : forall c, Permutation (bucket c (issues self1)) (log_bucket c log)).
  { intros c. subst self1. destruct r as [[]|e]; simpl.
    - rewrite bucket_sorted_buckets, bucket_extend, Hfresh.
      unfold sort_by_priority. rewrite sorted_desc_perm. destruct c; reflexivity.
    - rewrite bucket_extend, Hfresh. destruct c; reflexivity. }
  assert (Hsecond : forall c,
    Permutation
      (bucket c (issues (match r with
                         | Ok _ => aggregated today'
                                     (with_issues (extend (issues self1) log) self1)
                         | Err _ => with_issues (extend (issues self1) log) self1
                         end)))
      (bucket c (issues self1) ++ bucket c (issues self1))).
  { intros c. destruct r as [[]|e]; simpl.
    - rewrite bucket_sorted_buckets. unfold sort_by_priority.
      rewrite sorted_desc_perm, bucket_extend.
      apply Permutation_app_head. symmetry. apply Hfirst.
    - rewrite bucket_extend.
      apply Permutation_app_head. symmetry. apply Hfirst. }
  assert (Hlen : forall c,
    length (bucket c (issues (match r with
                         | Ok _ => aggregated today'
                                     (with_issues (extend (issues self1) log) self1)
                         | Err _ => with_issues (extend (issues self1) log) self1
                         end)))
    = (2 * length (bucket c (issues self1)))%nat).
  { intros c. rewrite (Permutation_length (Hsecond c)), length_app. lia. }
  assert (Hgrows : forall c, bucket c (issues self1) <> [] ->
    (length (bucket c (issues self1))
     < length (bucket c (issues (match r with
                         | Ok _ => aggregated today'
                                     (with_issues (extend (issues self1) log) self1)
                         | Err _ => with_issues (extend (issues self1) log) self1
                         end))))%nat /\
    match r with
    | Ok _ => aggregated today' (with_issues (extend (issues self1) log) self1)
    | Err _ => with_issues (extend (issues self1) log) self1
    end <> self1).
  { intros c Hne.
    assert (Hlt : (length (bucket c (issues self1))
                   < length (bucket c (issues (match r with
                         | Ok _ => aggregated today'
                                     (with_issues (extend (issues self1) log) self1)
                         | Err _ => with_issues (extend (issues self1) log) self1
                         end))))%nat).
    { rewrite Hlen. destruct (bucket c (issues self1)); [congruence | cbn; lia]. }
    split; [exact Hlt|]. intros Heq. rewrite Heq in Hlt. lia. }
  split; [|split; [|split]].
  - intros c. split; [apply Hsecond | apply Hlen].
  - intros ->. subst self1. eexists. eexists.
    split; [reflexivity|]. split; [reflexivity|].
    change (total_issues (summary_of ?t ?b))
      with (list_sum (map (fun c => length (bucket c b)) categories)).
    rewrite !total_is_length, !length_all_issues.
    pose proof (Hlen Critical) as H1. pose proof (Hlen High) as H2.
    pose proof (Hlen Medium) as H3. pose proof (Hlen Low) as H4.
    simpl in H1, H2, H3, H4 |- *. lia.
  - exact Hgrows.
  - intros Hr df Hdf Hrows.
    destruct (Hfound Hr df Hdf Hrows) as (i & Hi & Hty).
    assert (Hne : bucket Critical (issues self1) <> [])
      by (intros Hnil; rewrite Hnil in Hi; destruct Hi).
    destruct (Hgrows Critical Hne) as [Hlt Hdiff].
    split; [exists i; split; assumption|]. split; [|exact Hdiff].
    rewrite Hlen. destruct (bucket Critical (issues self1)); [congruence | cbn; lia].
Qed.

(** ** Counting title values *)

Lemma In_uniques x l : In x (uniques l) <-> In x l.
Proof.
  induction l as [|y l IH]; simpl; [tauto|].
  rewrite List.filter_In, IH.
  destruct (decide (x = y)) as [->|Hne].
  - tauto.
  - rewrite negb_true_iff, bool_decide_eq_false. intuition congruence.
Qed.

Lemma NoDup_uniques l : List.NoDup (uniques l).
Proof.
  induction l as [|y l IH]; simpl; constructor.
  - rewrite List.filter_In.
    intros [_ H]. apply negb_true_iff, bool_decide_eq_false in H. congruence.
  - apply List.NoDup_filter, IH.
Qed.

Lemma occurrences_pos x l : (1 <= occurrences x l)%nat <-> In x l.
Proof.
  unfold occurrences. induction l as [|y l IH]; simpl; [split; [lia|tauto]|].
  destruct (decide (y = x)) as [->|Hne].
  - rewrite bool_decide_eq_true_2 by reflexivity. simpl. split; [tauto|lia].
  - rewrite bool_decide_eq_false_2 by exact Hne. rewrite IH. intuition congruence.
Qed.

Lemma value_counts_perm s :
  Permutation (value_counts s)
    (map (fun v => (v, occurrences v (List.filter (fun c => negb (is_nan c)) s)))
         (uniques (List.filter (fun c => negb (is_nan c)) s))).
Proof. unfold value_counts. apply sorted_desc_perm. Qed.

Lemma filter_present_id s :
  Forall (fun t => t <> NaN) s -> List.filter (fun c => negb (is_nan c)) s = s.
Proof.
  induction 1 as [|c s Hc Hs IH]; simpl; [reflexivity|].
  destruct c; simpl; try congruence.
Qed.

(** The values [duplicated] keeps are exactly those that occur at least
    twice, each listed once. *)
Lemma duplicated_spec s :
  Forall (fun t => t <> NaN) s ->
  List.NoDup (duplicated (value_counts s)) /\
  forall t, In t (duplicated (value_counts s)) <-> (2 <= occurrences t s)%nat.
Proof.
  intros Hs. pose proof (value_counts_perm s) as Hperm.
  rewrite (filter_present_id s Hs) in Hperm.
  split.
  - unfold duplicated. apply NoDup_ListNoDup.
    apply (sublist_NoDup _ (map fst (value_counts s))).
    + apply NoDup_ListNoDup.
      apply (Permutation_NoDup (Permutation_sym (Permutation_map fst Hperm))).
      rewrite map_map. simpl. rewrite map_id. apply NoDup_uniques.
    + apply (fmap_sublist fst), List_filter_sublist.
  - intros t. unfold duplicated. rewrite in_map_iff. split.
    + intros ([t' n] & <- & Hin). apply List.filter_In in Hin as [Hin Hn].
      apply (Permutation_in _ Hperm) in Hin.
      apply in_map_iff in Hin as (v & Hv & _). inversion Hv; subst.
      simpl in Hn |- *. apply Nat.ltb_lt in Hn. lia.
    + intros Ht. exists (t, occurrences t s). split; [reflexivity|].
      apply List.filter_In. split.
      * apply (Permutation_in _ (Permutation_sym Hperm)).
        apply in_map_iff. exists t. split; [reflexivity|].
        apply In_uniques, occurrences_pos. lia.
      * simpl. apply Nat.ltb_lt. lia.
Qed.

Lemma titles_after_dropna df df' col :
  dropna df "Title 1" = Ok df' ->
  getitem df' "Title 1" = Ok col ->
  col = title_values df.
Proof.
  intros Hdrop Hcol. destruct (dropna_ok _ _ _ Hdrop) as [Hcols Hrows].
  apply getitem_ok in Hcol. subst col. unfold title_values.
  rewrite Hrows. apply map_ext. intros row.
  apply cell_of_same_columns, Hcols.
Qed.

Lemma title_values_present df : Forall (fun t => t <> NaN) (title_values df).
Proof.
  unfold title_values. rewrite List.Forall_forall. intros t Ht.
  apply in_map_iff in Ht as (row & <- & Hrow).
  pose proof (matching_rows_meet df "Title 1" is_present) as H.
  rewrite List.Forall_forall in H. specialize (H row Hrow).
  unfold is_present in H. intros Hn. rewrite Hn in H. discriminate.
Qed.

(** C3.  In [analyze_duplicate_titles] the rows without a title are dropped
    before counting: the column counted holds no missing value.  The list of
    duplicated titles holds, once each, exactly the values found at least
    twice in that column, and the record the method appends, if any, is a
    [duplicate_titles] record whose count is the length of that list. *)
Theorem duplicate_titles_occur_twice (df df' : DataFrame) (col : Series) :
  dropna df "Title 1" = Ok df' ->
  getitem df' "Title 1" = Ok col ->
  let duplicate_titles := duplicated (value_counts col) in
  rows df' = List.filter (fun row => negb (is_nan (cell_of df "Title 1" row))) (rows df) /\
  Forall (fun t => t <> NaN) col /\
  List.NoDup duplicate_titles /\
  (forall t, In t duplicate_titles <-> (2 <= occurrences t col)%nat) /\
  forall self r self',
    data self !! "page_titles" = Some df ->
    analyze_duplicate_titles self = (r, self') ->
    forall c i, In i (bucket c (issues self')) ->
      In i (bucket c (issues self)) \/
      (c = Critical /\ type i = "duplicate_titles" /\
       count i = length duplicate_titles /\ (1 <= count i)%nat).
Proof.
  intros Hdrop Hcol. cbv zeta.
  pose proof (titles_after_dropna _ _ _ Hdrop Hcol) as Hvalues. subst col.
  pose proof (title_values_present df) as Hpresent.
  destruct (duplicated_spec _ Hpresent) as [Hnodup Hiff].
  split; [apply (dropna_ok _ _ _ Hdrop)|].
  split; [exact Hpresent|]. split; [exact Hnodup|]. split; [exact Hiff|].
  intros self r self' Hdf Hrun c i Hi.
  destruct (emits_duplicate_titles (data self)) as (r' & log & Hsig & HQ & Hlog).
  rewrite (Hlog self eq_refl) in Hrun. injection Hrun as _ <-.
  simpl in Hi. rewrite bucket_extend in Hi.
  apply in_app_or in Hi as [Hi|Hi]; [left; exact Hi|right].
  unfold log_bucket in Hi. apply in_map_iff in Hi as ([c' i'] & Hi' & He).
  simpl in Hi'. subst i'.
  apply List.filter_In in He as [He Hc]. apply bool_decide_eq_true in Hc.
  simpl in Hc. subst c'.
  assert (Hsg : In (c, type i) [(Critical, "duplicate_titles")]).
  { apply list_elem_of_In. apply (sublist_subseteq _ _ Hsig).
    apply list_elem_of_In.
    apply (in_map (fun e => (fst e, type (snd e))) log (c, i) He). }
  destruct Hsg as [Hsg|[]]. inversion Hsg as [[Hc Hty]].
  rewrite List.Forall_forall in HQ.
  destruct (HQ _ He) as (_ & Hcount & _ & Hcase). cbn [fst snd] in Hcount, Hcase.
  split; [reflexivity|]. split; [reflexivity|]. split; [|exact Hcount].
  destruct Hcase as [(_ & df0 & Hdf0 & Hcnt & _) | (rl & df0 & Hrl & _)].
  - rewrite Hdf in Hdf0. inversion Hdf0; subst df0. exact Hcnt.
  - rewrite <- Hty, no_rule_for_duplicates in Hrl. discriminate.
Qed.

(** ** The spreadsheet report *)

Lemma length_issue_data l :
  length (issue_data l) = list_sum (map (fun i => length (examples i)) l).
Proof.
  unfold issue_data. induction l as [|i l IH]; simpl; [reflexivity|].
  rewrite length_app, length_map, IH. reflexivity.
Qed.

Lemma In_issue_data row l :
  In row (issue_data l) <->
  exists i example, In i l /\ In example (examples i) /\ row = issue_row i example.
Proof.
  unfold issue_data. rewrite in_flat_map. split.
  - intros (i & Hi & Hrow). apply in_map_iff in Hrow as (ex & <- & Hex).
    exists i, ex. auto.
  - intros (i & ex & Hi & Hex & ->). exists i. split; [exact Hi|].
    apply in_map, Hex.
Qed.

Lemma sheets_named_category b c c' :
  sheets_named (capitalize (category_name c)) (category_sheets b c')
  = if bool_decide (c' = c) then category_sheets b c' else [].
Proof.
  unfold sheets_named, category_sheets.
  destruct (negb (length (bucket c' b) =? 0)%nat);
    [|destruct (bool_decide (c' = c)); reflexivity].
  destruct (negb (length (issue_data (bucket c' b)) =? 0)%nat);
    [|destruct (bool_decide (c' = c)); reflexivity].
  destruct c, c'; reflexivity.
Qed.

Lemma sheets_named_report domain s b c :
  sheets_named (capitalize (category_name c)) (generate_excel_report domain s b)
  = category_sheets b c.
Proof.
  unfold generate_excel_report, sheets_named.
  assert (Hsum : String.eqb (sheet_name (summary_sheet domain s))
                   (capitalize (category_name c)) = false)
    by (destruct c; reflexivity).
  cbn [List.filter]. rewrite Hsum.
  unfold categories. cbn [flat_map].
  rewrite !List.filter_app.
  pose proof (sheets_named_category b c) as Hc. unfold sheets_named in Hc.
  rewrite !Hc.
  destruct c; simpl; rewrite ?app_nil_r; reflexivity.
Qed.

(** C8.  In the workbook, the sheets named after a bucket are at most one;
    when there is one the bucket is not empty and the sheet's rows are, issue
    by issue and example by example, the issue's title, the example, and the
    issue's impact, effort, priority score and recommendation: one row for
    each pair of an issue and one of its examples.  A bucket of one issue
    with three examples gives a sheet of exactly three rows. *)
Theorem excel_sheet_rows (domain : string) (s : summary_dict) (b : buckets)
    (c : category) :
  let sheets :=
    sheets_named (capitalize (category_name c)) (generate_excel_report domain s b) in
  (sheets = [] \/
   exists sh, sheets = [sh] /\
     bucket c b <> [] /\
     header sh = issue_header /\
     body sh = flat_map (fun i => map (issue_row i) (examples i)) (bucket c b) /\
     length (body sh) = list_sum (map (fun i => length (examples i)) (bucket c b)) /\
     forall row, In row (body sh) <->
       exists i example, In i (bucket c b) /\ In example (examples i) /\
         row = [ XlStr (title i); XlCell example; XlInt (impact i);
                 XlInt (effort i); XlFloat (priority_score i);
                 XlStr (recommendation i) ]) /\
  (forall i, bucket c b = [i] -> length (examples i) = 3%nat ->
     exists sh, sheets = [sh] /\ length (body sh) = 3%nat).
Proof.
  cbv zeta. rewrite sheets_named_report. unfold category_sheets. split.
  - destruct (bucket c b) as [|i l] eqn:Hb; [left; reflexivity|].
    cbn [length Nat.eqb negb].
    destruct (negb (length (issue_data (i :: l)) =? 0)%nat); [|left; reflexivity].
    right. eexists. split; [reflexivity|]. cbn [header body].
    split; [discriminate|]. split; [reflexivity|]. split; [reflexivity|].
    split; [apply length_issue_data|].
    intros row. apply In_issue_data.
  - intros i Hb Hex. rewrite Hb.
    assert (Hlen : length (issue_data [i]) = 3%nat)
      by (rewrite length_issue_data; simpl; lia).
    cbn [length Nat.eqb negb]. rewrite Hlen. cbn [Nat.eqb negb].
    eexists. split; [reflexivity|]. exact Hlen.
Qed.

(** ** The export loader *)

Lemma In_keys_dict_set {V} (dct : list (string * V)) k v k' :
  In k' (map fst (dict_set dct k v)) <-> k' = k \/ In k' (map fst dct).
Proof.
  induction dct as [|[k0 v0] dct IH]; simpl.
  - intuition congruence.
  - destruct (String.eqb_spec k k0) as [->|Hne]; simpl.
    + intuition congruence.
    + rewrite IH. intuition congruence.
Qed.

Lemma NoDup_dict_set {V} (dct : list (string * V)) k v :
  List.NoDup (map fst dct) -> List.NoDup (map fst (dict_set dct k v)).
Proof.
  induction dct as [|[k0 v0] dct IH]; simpl; intros Hnd.
  - constructor; [intros []|constructor].
  - inversion Hnd as [|? ? Hnotin Hnd']; subst.
    destruct (String.eqb_spec k k0) as [->|Hne]; simpl.
    + constructor; assumption.
    + constructor; [|apply IH, Hnd'].
      rewrite In_keys_dict_set. intros [Heq|Hin]; [congruence|contradiction].
Qed.

Lemma NoDup_match_expected expected filename file_path fl :
  List.NoDup (map fst fl) ->
  List.NoDup (map fst (match_expected expected filename file_path fl)).
Proof.
  intros Hnd. induction expected as [|e expected IH]; simpl; [exact Hnd|].
  destruct (contains (lower e) (lower filename)); [|exact IH].
  apply NoDup_dict_set, Hnd.
Qed.

Lemma NoDup_discover dir names : forall fl,
  List.NoDup (map fst fl) -> List.NoDup (map fst (discover dir names fl)).
Proof.
  unfold discover. induction names as [|name names IH]; cbn [fold_left];
    intros fl Hnd; [exact Hnd|].
  apply IH. destruct (endswith name ".csv"); [|exact Hnd].
  apply NoDup_match_expected, Hnd.
Qed.

Lemma load_one_lookup fs d key file_path k :
  load_one fs d (key, file_path) !! k
  = if bool_decide (k = key)
    then match parsed fs file_path with Some df => Some df | None => d !! k end
    else d !! k.
Proof.
  unfold load_one, parsed.
  destruct (decide (k = key)) as [->|Hne].
  - rewrite bool_decide_eq_true_2 by reflexivity.
    destruct (read_csv fs file_path "utf-8");
      [apply lookup_insert_eq|].
    destruct (read_csv fs file_path "latin1");
      [apply lookup_insert_eq | reflexivity].
  - rewrite bool_decide_eq_false_2 by exact Hne.
    destruct (read_csv fs file_path "utf-8");
      [apply lookup_insert_ne; congruence|].
    destruct (read_csv fs file_path "latin1");
      [apply lookup_insert_ne; congruence | reflexivity].
Qed.

Lemma load_untouched fs fl k : forall d,
  ~ In k (map fst fl) -> fold_left (load_one fs) fl d !! k = d !! k.
Proof.
  induction fl as [|[key file_path] fl IH]; cbn [fold_left map fst In];
    intros d Hnotin; [reflexivity|].
  rewrite IH by tauto. rewrite load_one_lookup.
  rewrite bool_decide_eq_false_2 by (intros ->; tauto). reflexivity.
Qed.

Lemma load_each fs fl k file_path : forall d,
  List.NoDup (map fst fl) -> In (k, file_path) fl ->
  fold_left (load_one fs) fl d !! k
  = match parsed fs file_path with Some df => Some df | None => d !! k end.
Proof.
  induction fl as [|[key0 path0] fl IH]; cbn [fold_left map fst In];
    intros d Hnd Hin; [destruct Hin|].
  inversion Hnd as [|? ? Hnotin Hnd']; subst.
  destruct Hin as [Heq|Hin].
  - inversion Heq; subst. rewrite load_untouched by exact Hnotin.
    rewrite load_one_lookup, bool_decide_eq_true_2 by reflexivity. reflexivity.
  - rewrite (IH _ Hnd' Hin). rewrite load_one_lookup.
    rewrite bool_decide_eq_false_2; [reflexivity|].
    intros ->. apply Hnotin. apply (in_map fst fl (key0, file_path) Hin).
Qed.

Lemma match_expected_find expected filename file_path fl :
  match_expected expected filename file_path fl
  = match List.find (fun e => contains (lower e) (lower filename)) expected with
    | Some e => dict_set fl (replace ".csv" "" e) file_path
    | None => fl
    end.
Proof.
  induction expected as [|e expected IH]; cbn [match_expected List.find];
    [reflexivity|].
  destruct (contains (lower e) (lower filename)); [reflexivity | exact IH].
Qed.

Lemma dict_get_dict_set {V} (dct : list (string * V)) k v k' :
  dict_get (dict_set dct k v) k'
  = if String.eqb k' k then Ok v else dict_get dct k'.
Proof.
  induction dct as [|[k0 v0] dct IH]; cbn [dict_set dict_get].
  - destruct (String.eqb k' k); reflexivity.
  - destruct (String.eqb_spec k k0) as [->|Hne]; cbn [dict_get].
    + destruct (String.eqb k' k0); reflexivity.
    + rewrite IH. destruct (String.eqb_spec k' k0) as [->|Hne'];
        [|reflexivity].
      destruct (String.eqb_spec k0 k); [congruence | reflexivity].
Qed.

Lemma dict_get_Err {V} (dct : list (string * V)) k e :
  dict_get dct k = Err e -> ~ In k (map fst dct).
Proof.
  induction dct as [|[k0 v0] dct IH]; cbn [dict_get map fst In]; [tauto|].
  destruct (String.eqb_spec k k0) as [->|Hne]; [discriminate|].
  intros H [Heq|Hin]; [congruence | exact (IH H Hin)].
Qed.

(** One turn of the discovery loop records the file under its logical
    name. *)
Lemma discover_cons dir filename names fl :
  discover dir (filename :: names) fl
  = discover dir names
      match logical_name filename with
      | Some key => dict_set fl key (path_join dir filename)
      | None => fl
      end.
Proof.
  unfold discover at 1. cbn [fold_left]. fold (discover dir names).
  unfold logical_name. f_equal.
  destruct (endswith filename ".csv"); [|reflexivity].
  rewrite match_expected_find.
  destruct (List.find _ expected_files); reflexivity.
Qed.

(** After discovery a logical name stands for the last file of the listing
    taken for it. *)
Lemma discover_lookup dir key names : forall fl,
  dict_get (discover dir names fl) key
  = match last (matched_for key names) with
    | Some filename => Ok (path_join dir filename)
    | None => dict_get fl key
    end.
Proof.
  induction names as [|f names IH]; intros fl; [reflexivity|].
  rewrite discover_cons, IH. unfold matched_for. cbn [List.filter].
  fold (matched_for key names).
  destruct (bool_decide_reflect (logical_name f = Some key)) as [Hf|Hf].
  - rewrite Hf, last_cons.
    destruct (last (matched_for key names)); [reflexivity|].
    rewrite dict_get_dict_set, String.eqb_refl. reflexivity.
  - destruct (last (matched_for key names)); [reflexivity|].
    destruct (logical_name f) as [k|]; [|reflexivity].
    rewrite dict_get_dict_set.
    destruct (String.eqb_spec key k); [congruence | reflexivity].
Qed.



(** ** Waiting for a crawl *)

Lemma time_sleep_sleeps check_interval :
  time_sleep check_interval = Returns tt <-> sleeps check_interval.
Proof.
  unfold time_sleep, sleeps.
  destruct (Z.ltb_spec check_interval (- sleep_max)),
    (Z.ltb_spec sleep_max check_interval),
    (Z.ltb_spec check_interval 0); cbn [orb];
    (split; [intros Heq; try congruence | intros Hs; try reflexivity]);
    unfold sleep_max in *; lia.
Qed.

Lemma time_sleep_raises check_interval e :
  time_sleep check_interval = Raises e -> ~ sleeps check_interval.
Proof.
  intros H Hs. apply time_sleep_sleeps in Hs. congruence.
Qed.

Lemma no_object_true_reply response :
  no_object response = true -> true_reply response = true.
Proof. destruct response as [[d|l|v]|]; cbn; congruence. Qed.

Section Wait.
Context (self : client) (w : World) (crawl_id : string).
Context (check_interval timeout start_time : Z).

Local Abbreviation loop :=
  (wait_loop self w crawl_id check_interval timeout start_time).
Local Abbreviation verdict_at := (verdict self w crawl_id check_interval).
Local Abbreviation goes_on :=
  (fun k => exists v, reports self w crawl_id k v /\ ~ terminal v).

Lemma wait_loop_step fuel p t :
  loop (S fuel) p t =
  if (timeout <? t - start_time)%Z then Some (Returns false, p)
  else match verdict_at p with
       | Some o => Some (o, S p)
       | None => loop fuel (S p) (t + latency w p + check_interval)%Z
       end.
Proof.
  unfold verdict. cbn [wait_loop]. cbv zeta.
  destruct (timeout <? t - start_time)%Z; [reflexivity|].
  destruct (negb (true_reply (get_crawl_status self w p crawl_id))); [reflexivity|].
  destruct (get_crawl_status self w p crawl_id) as [status|]; [|reflexivity].
  destruct (get status "status" (JStr "")) as [crawl_status|e]; [|reflexivity].
  destruct (bool_decide _); [reflexivity|].
  destruct (bool_decide _); [reflexivity|].
  destruct (time_sleep check_interval); reflexivity.
Qed.

(** What a poll that is read makes the loop do. *)
Lemma verdict_object k d :
  get_crawl_status self w k crawl_id = Some (JObject d) -> d <> [] ->
  verdict_at k =
  let crawl_status := dict_get_default d "status" (JStr "") in
  if bool_decide (crawl_status = JStr "FINISHED") then Some (Returns true)
  else if bool_decide (crawl_status ∈ failure_statuses) then Some (Returns false)
  else match time_sleep check_interval with
       | Raises e => Some (Raises e)
       | Returns _ => None
       end.
Proof.
  intros Hget Hd. unfold verdict. rewrite Hget.
  destruct d as [|item d]; [congruence|]. reflexivity.
Qed.

Lemma verdict_fails k :
  request_fails self w crawl_id k -> verdict_at k = Some (Returns false).
Proof. unfold request_fails, verdict. intros ->. reflexivity. Qed.

Lemma verdict_unreadable k :
  unreadable self w crawl_id k -> verdict_at k = Some (Raises AttributeError).
Proof.
  unfold unreadable, verdict. intros H.
  rewrite (no_object_true_reply _ H). cbn [negb].
  destruct (get_crawl_status self w k crawl_id) as [[d|l|v]|];
    [discriminate | reflexivity | reflexivity | discriminate].
Qed.

(** A poll fails, cannot be read, or reports a status. *)
Lemma poll_cases k :
  request_fails self w crawl_id k \/ unreadable self w crawl_id k \/
  exists v, reports self w crawl_id k v.
Proof.
  unfold request_fails, unreadable, reports.
  destruct (get_crawl_status self w k crawl_id) as [[[|item d]|[|item l]|v]|];
    cbn; try tauto.
  - right. right. eexists. exists (item :: d). repeat split. discriminate.
  - destruct (truthy v); tauto.
Qed.

Lemma reports_verdict k v :
  reports self w crawl_id k v ->
  verdict_at k =
  if bool_decide (v = JStr "FINISHED") then Some (Returns true)
  else if bool_decide (v ∈ failure_statuses) then Some (Returns false)
  else match time_sleep check_interval with
       | Raises e => Some (Raises e)
       | Returns _ => None
       end.
Proof.
  intros (d & Hget & Hd & <-). apply (verdict_object k d Hget Hd).
Qed.

Lemma reports_unique k v v' :
  reports self w crawl_id k v -> reports self w crawl_id k v' -> v = v'.
Proof.
  intros (d & Hget & _ & <-) (d' & Hget' & _ & <-). congruence.
Qed.

Lemma reports_excludes k v :
  reports self w crawl_id k v ->
  ~ request_fails self w crawl_id k /\ ~ unreadable self w crawl_id k.
Proof.
  unfold request_fails, unreadable. intros (d & -> & Hd & _).
  destruct d as [|item d]; [congruence|]. cbn. split; discriminate.
Qed.

Lemma not_terminal_decide v :
  ~ terminal v <->
  bool_decide (v = JStr "FINISHED") = false /\
  bool_decide (v ∈ failure_statuses) = false.
Proof.
  unfold terminal. rewrite <- list_elem_of_In.
  rewrite !bool_decide_eq_false. tauto.
Qed.

Lemma verdict_true k :
  verdict_at k = Some (Returns true) <-> reports self w crawl_id k (JStr "FINISHED").
Proof.
  split.
  - destruct (poll_cases k) as [H|[H|(v & H)]].
    + rewrite (verdict_fails k H). discriminate.
    + rewrite (verdict_unreadable k H). discriminate.
    + rewrite (reports_verdict k v H).
      destruct (bool_decide_reflect (v = JStr "FINISHED")) as [->|_];
        [intros _; exact H|].
      destruct (bool_decide _); [discriminate|].
      destruct (time_sleep check_interval); discriminate.
  - intros H. rewrite (reports_verdict k _ H). reflexivity.
Qed.

Lemma verdict_false k :
  verdict_at k = Some (Returns false) <->
  request_fails self w crawl_id k \/
  exists v, reports self w crawl_id k v /\ In v failure_statuses.
Proof.
  split.
  - destruct (poll_cases k) as [H|[H|(v & H)]]; [tauto| |].
    + rewrite (verdict_unreadable k H). discriminate.
    + rewrite (reports_verdict k v H).
      destruct (bool_decide (v = JStr "FINISHED")); [discriminate|].
      destruct (bool_decide_reflect (v ∈ failure_statuses)) as [Hin|_].
      * intros _. right. exists v. split; [exact H | apply list_elem_of_In, Hin].
      * destruct (time_sleep check_interval); discriminate.
  - intros [H|(v & H & Hin)]; [apply verdict_fails, H|].
    rewrite (reports_verdict k v H).
    rewrite bool_decide_eq_false_2.
    + rewrite bool_decide_eq_true_2 by (apply list_elem_of_In, Hin). reflexivity.
    + intros ->. simpl in Hin. intuition discriminate.
Qed.

Lemma verdict_raises k e :
  verdict_at k = Some (Raises e) <->
  (unreadable self w crawl_id k /\ e = AttributeError) \/
  (goes_on k /\ time_sleep check_interval = Raises e).
Proof.
  split.
  - destruct (poll_cases k) as [H|[H|(v & H)]].
    + rewrite (verdict_fails k H). discriminate.
    + rewrite (verdict_unreadable k H). intros Heq. left.
      split; [exact H | congruence].
    + rewrite (reports_verdict k v H).
      destruct (bool_decide (v = JStr "FINISHED")) eqn:Hfin; [discriminate|].
      destruct (bool_decide (v ∈ failure_statuses)) eqn:Hfail; [discriminate|].
      destruct (time_sleep check_interval) as [u|e'] eqn:Hsleep; [discriminate|].
      intros Heq. right. split; [|congruence].
      exists v. split; [exact H|]. apply not_terminal_decide. auto.
  - intros [[H ->]|((v & H & Hnt) & Hsleep)]; [apply verdict_unreadable, H|].
    rewrite (reports_verdict k v H).
    apply not_terminal_decide in Hnt as [-> ->]. rewrite Hsleep. reflexivity.
Qed.

Lemma verdict_none k :
  verdict_at k = None <-> goes_on k /\ sleeps check_interval.
Proof.
  rewrite <- time_sleep_sleeps. split.
  - destruct (poll_cases k) as [H|[H|(v & H)]].
    + rewrite (verdict_fails k H). discriminate.
    + rewrite (verdict_unreadable k H). discriminate.
    + rewrite (reports_verdict k v H).
      destruct (bool_decide (v = JStr "FINISHED")) eqn:Hfin; [discriminate|].
      destruct (bool_decide (v ∈ failure_statuses)) eqn:Hfail; [discriminate|].
      destruct (time_sleep check_interval) as [[]|e'] eqn:Hsleep; [|discriminate].
      intros _. split; [|reflexivity].
      exists v. split; [exact H|]. apply not_terminal_decide. auto.
  - intros [(v & H & Hnt) Hsleep].
    rewrite (reports_verdict k v H).
    apply not_terminal_decide in Hnt as [-> ->]. rewrite Hsleep. reflexivity.
Qed.

(** More fuel never changes an answer. *)
Lemma wait_loop_mono fuel : forall p t r m,
  loop fuel p t = Some r -> loop (fuel + m) p t = Some r.
Proof.
  induction fuel as [|fuel IH]; intros p t r m H; [discriminate|].
  change (S fuel + m)%nat with (S (fuel + m)).
  rewrite wait_loop_step in H |- *.
  destruct (timeout <? t - start_time)%Z; [exact H|].
  destruct (verdict_at p); [exact H|]. apply IH, H.
Qed.

(** The loop ends once the time left is used up, whatever is polled. *)
Lemma wait_loop_returns (m : nat) : forall p t,
  (0 < check_interval)%Z -> (forall k, 0 <= latency w k)%Z ->
  (timeout - (t - start_time) < Z.of_nat m * check_interval)%Z ->
  exists o n, loop (S m) p t = Some (o, n) /\
              ((forall k, verdict_at k = None) -> o = Returns false) /\
              ((forall k e, verdict_at k <> Some (Raises e)) ->
               exists b, o = Returns b).
Proof.
  induction m as [|m IH]; intros p t Hiv Hlat Hleft; rewrite wait_loop_step.
  - destruct (Z.ltb_spec timeout (t - start_time)); [|lia].
    exists (Returns false), p. eauto.
  - destruct (Z.ltb_spec timeout (t - start_time)).
    + exists (Returns false), p. eauto.
    + destruct (verdict_at p) as [o|] eqn:Hv.
      * exists o, (S p). split; [reflexivity|]. split.
        -- intros Hall. rewrite Hall in Hv. discriminate.
        -- intros Hall. destruct o as [b|e]; [eauto|].
           exfalso. exact (Hall p e Hv).
      * apply IH; [exact Hiv | exact Hlat |].
        specialize (Hlat p). lia.
Qed.

Local Abbreviation time_at := (clock w check_interval start_time).

(** Why the loop has ended as it has: the time-out, or the last poll. *)
Lemma wait_loop_sound fuel : forall p o n,
  loop fuel p (time_at p) = Some (o, n) ->
  (o = Returns false /\ (p <= n)%nat /\ (timeout < time_at n - start_time)%Z /\
   forall j, (p <= j < n)%nat -> verdict_at j = None)
  \/
  (exists k, n = S k /\ (p <= k)%nat /\ verdict_at k = Some o /\
     (time_at k - start_time <= timeout)%Z /\
     forall j, (p <= j < k)%nat -> verdict_at j = None).
Proof.
  induction fuel as [|fuel IH]; intros p o n H; [discriminate|].
  rewrite wait_loop_step in H.
  destruct (Z.ltb_spec timeout (time_at p - start_time)) as [Hout|Hin].
  - inversion H; subst. left. repeat split; try lia.
  - destruct (verdict_at p) as [o'|] eqn:Hv.
    + inversion H; subst. right. exists p. repeat split; try lia. exact Hv.
    + change (time_at p + latency w p + check_interval)%Z
        with (time_at (S p)) in H.
      destruct (IH _ _ _ H) as [(Hb & Hle & Ht & Hall)|(k & Hn & Hle & Hk & Ht & Hall)].
      * left. repeat split; try assumption; try lia.
        intros j Hj. destruct (decide (j = p)) as [->|Hne]; [exact Hv|].
        apply Hall. lia.
      * right. exists k. repeat split; try assumption; try lia.
        intros j Hj. destruct (decide (j = p)) as [->|Hne]; [exact Hv|].
        apply Hall. lia.
Qed.

(** The loop goes through [k] polls that let it continue in time. *)
Lemma wait_loop_skip k : forall p fuel,
  (forall j, (p <= j < p + k)%nat ->
     verdict_at j = None /\ (time_at j - start_time <= timeout)%Z) ->
  loop (k + fuel) p (time_at p) = loop fuel (p + k) (time_at (p + k)).
Proof.
  induction k as [|k IH]; intros p fuel H.
  - rewrite Nat.add_0_r. reflexivity.
  - change (S k + fuel)%nat with (S (k + fuel)). rewrite wait_loop_step.
    destruct (H p ltac:(lia)) as [Hv Ht].
    destruct (Z.ltb_spec timeout (time_at p - start_time)); [lia|].
    rewrite Hv.
    change (time_at p + latency w p + check_interval)%Z with (time_at (S p)).
    rewrite IH by (intros j Hj; apply H; lia).
    rewrite Nat.add_succ_r. reflexivity.
Qed.
End Wait.


(** ** The catalog behind the records *)

Lemma new_issue_catalog ty ttl desc cnt ex rec i :
  new_issue ty ttl desc cnt ex rec = Ok i ->
  exists sc, dict_get ISSUE_SCORES ty = Ok sc /\ type i = ty /\
    impact i = score_impact sc /\ effort i = score_effort sc.
Proof.
  unfold new_issue.
  destruct (dict_get ISSUE_SCORES ty) as [sc|e]; simpl; [|discriminate].
  destruct (true_div (score_impact sc) (score_effort sc)); simpl; [|discriminate].
  intros H. inversion H; subst; clear H. exists sc. repeat split.
Qed.

Ltac emit_catalog :=
  match goal with
  | Hi : new_issue ?ty _ _ _ _ _ = Ok ?i |- emits_at _ _ [(?c, _)] (append_issue ?c ?i) =>
      let sc := fresh "sc" in
      let Hsc := fresh "Hsc" in
      let Hty := fresh "Hty" in
      let Him := fresh "Him" in
      let Hef := fresh "Hef" in
      destruct (new_issue_catalog _ _ _ _ _ _ _ Hi) as (sc & Hsc & Hty & Him & Hef);
      rewrite <- Hty at 1; apply emits_append;
      exists sc; rewrite Hty; split; [exact Hsc|];
      split; [exact Him|]; split; [exact Hef|];
      cbn in Hsc; injection Hsc as <-; reflexivity
  end.

Ltac emits_catalog_step :=
  first
    [ apply emits_bind_data
    | emit_catalog
    | apply emits_bind_lift; intros ? ?
    | match goal with
      | |- emits_at _ _ _ (match ?x with Some _ => _ | None => _ end) =>
          destruct x; [|apply emits_skip]
      | |- emits_at _ _ _ (if ?b then _ else _) =>
          destruct b; [|apply emits_skip]
      end ].

Lemma catalog_broken_links d :
  emits_at d of_catalog [(Critical, "broken_links"); (Critical, "server_errors")]
    analyze_broken_links.
Proof.
  unfold analyze_broken_links. do 4 emits_catalog_step.
  apply (emits_bind d _ [(Critical, "broken_links")] [(Critical, "server_errors")]).
  - repeat emits_catalog_step.
  - intros _. repeat emits_catalog_step.
Qed.

Ltac catalog_method m := unfold m; repeat emits_catalog_step.

Lemma catalog_run_checks d : emits_at d of_catalog check_order run_checks.
Proof.
  unfold run_checks, check_order.
  apply (emits_bind d _ [_; _] _ _ _ (catalog_broken_links d)); intros _.
  apply (emits_bind d _ [_] _ _ _); [catalog_method analyze_redirect_chains|]; intros _.
  apply (emits_bind d _ [_] _ _ _); [catalog_method analyze_duplicate_titles|]; intros _.
  apply (emits_bind d _ [_] _ _ _); [catalog_method analyze_missing_meta_descriptions|]; intros _.
  apply (emits_bind d _ [_] _ _ _); [catalog_method analyze_missing_h1|]; intros _.
  apply (emits_bind d _ [_] _ _ _); [catalog_method analyze_slow_pages|]; intros _.
  apply (emits_bind d _ [_] _ _ _); [catalog_method analyze_title_length|]; intros _.
  apply (emits_bind d _ [_] _ _ _); [catalog_method analyze_description_length|]; intros _.
  apply (emits_bind d _ [_] _ _ _); [catalog_method analyze_missing_alt_text|]; intros _.
  catalog_method analyze_multiple_h1.
Qed.

(** How [run_analysis] leaves the buckets, for any property [Q] its checks
    keep: each bucket holds what it held and the records its checks have
    emitted, sorted when the run returns and as appended when it raises. *)
Lemma run_analysis_buckets (Q : category -> issue -> Prop) d :
  emits_at d Q check_order run_checks ->
  forall today self r self', data self = d ->
    run_analysis today self = (r, self') ->
    forall c, exists emitted,
      sublist (map (fun i => (c, type i)) emitted) check_order /\
      Forall (Q c) emitted /\
      Permutation (bucket c (issues self')) (bucket c (issues self) ++ emitted) /\
      (forall e, r = Err e ->
         bucket c (issues self') = (bucket c (issues self) ++ emitted)%list).
Proof.
  intros (r0 & log & Hsig & HQ & Hrun) today self r self' Hd Hra c.
  rewrite run_analysis_unfold, (Hrun self Hd) in Hra.
  exists (log_bucket c log).
  split; [apply log_bucket_order, Hsig|].
  split.
  { rewrite List.Forall_forall in HQ |- *. intros i Hi.
    unfold log_bucket in Hi. apply in_map_iff in Hi as (e & <- & He).
    apply List.filter_In in He as [He Hc].
    apply bool_decide_eq_true in Hc. subst c. apply HQ, He. }
  destruct r0 as [u|e0]; inversion Hra; subst r self'; clear Hra.
  - split; [|discriminate].
    cbn [issues aggregated]. rewrite bucket_sorted_buckets.
    unfold sort_by_priority. rewrite sorted_desc_perm.
    cbn [issues with_issues]. rewrite bucket_extend. reflexivity.
  - cbn [issues with_issues]. rewrite bucket_extend.
    split; [reflexivity|]. intros _ _. reflexivity.
Qed.

Lemma NoDup_check_order : List.NoDup check_order.
Proof. apply NoDup_ListNoDup, (bool_decide_unpack _). vm_compute. reflexivity. Qed.

Lemma check_order_quota c l :
  sublist (map (fun i : issue => (c, type i)) l) check_order ->
  List.NoDup (map type l) /\ (length l <= quota c)%nat.
Proof.
  intros Hsub.
  assert (Hnd : List.NoDup (map (fun i : issue => (c, type i)) l)).
  { apply NoDup_ListNoDup. eapply sublist_NoDup; [|exact Hsub].
    apply NoDup_ListNoDup, NoDup_check_order. }
  split.
  - apply NoDup_ListNoDup.
    apply (NoDup_fmap_1 (pair c)). rewrite <- list_fmap_compose.
    apply NoDup_ListNoDup, Hnd.
  - rewrite <- (length_map (fun i : issue => (c, type i))). unfold quota.
    apply List.NoDup_incl_length; [exact Hnd|].
    intros e He. apply List.filter_In. split.
    + apply list_elem_of_In. eapply sublist_subseteq; [exact Hsub|].
      apply list_elem_of_In, He.
    + apply in_map_iff in He as (i & <- & _). apply bool_decide_eq_true. reflexivity.
Qed.

(** X3.  Every record in the buckets after [run_analysis] on a fresh
    instance, however the run ends, has an identifier of the catalog
    [ISSUE_SCORES], carries the impact and the effort of its entry, and
    sits in the bucket the entry names as its category; no two records of a
    bucket have the same identifier, and a bucket holds at most as many
    records as there are checks for it (4 critical, 3 high, 3 medium,
    1 low). *)
Theorem issues_follow_the_catalog (today : string)
    (self self' : SEOAuditAutomation) (r : result unit) :
  issues self = no_issues ->
  run_analysis today self = (r, self') ->
  forall c,
    Forall (of_catalog c) (bucket c (issues self')) /\
    List.NoDup (map type (bucket c (issues self'))) /\
    (length (bucket c (issues self')) <= quota c)%nat /\
    quota c = match c with Critical => 4 | High => 3 | Medium => 3 | Low => 1 end%nat.
Proof.
  intros Hfresh Hrun c.
  destruct (run_analysis_buckets of_catalog (data self) (catalog_run_checks _)
              today self r self' eq_refl Hrun c)
    as (emitted & Hsub & HQ & Hperm & _).
  assert (Hp : Permutation (bucket c (issues self')) emitted).
  { rewrite Hperm, Hfresh. destruct c; reflexivity. }
  destruct (check_order_quota c emitted Hsub) as [Hnd Hlen].
  split; [|split; [|split]].
  - eapply Permutation_Forall; [symmetry; exact Hp | exact HQ].
  - eapply Permutation_NoDup; [|exact Hnd].
    apply Permutation_map. symmetry. exact Hp.
  - rewrite (Permutation_length Hp). exact Hlen.
  - destruct c; reflexivity.
Qed.

(** X1.  [run_analysis] never touches the export directory, the file list
    or the loaded tables, and never drops a record: whatever was in a bucket
    is still in it afterwards, whether the run returns or raises. *)
Theorem run_analysis_keeps_tables (today : string) (self : SEOAuditAutomation) :
  let self' := snd (run_analysis today self) in
  export_dir self' = export_dir self /\
  files self' = files self /\
  data self' = data self /\
  forall c i, In i (bucket c (issues self)) -> In i (bucket c (issues self')).
Proof.
  cbv zeta.
  destruct (run_analysis today self) as [r self'] eqn:Hrun. cbn [snd].
  assert (Hframe : export_dir self' = export_dir self /\
                   files self' = files self /\ data self' = data self).
  { destruct (run_analysis_log (data self)) as (r' & log & _ & _ & Hlog).
    rewrite (Hlog today self eq_refl) in Hrun. cbv zeta in Hrun.
    inversion Hrun; subst r' self'. destruct r; repeat split. }
  destruct Hframe as (He & Hf & Hd).
  split; [exact He|]. split; [exact Hf|]. split; [exact Hd|].
  intros c i Hi.
  destruct (run_analysis_buckets (fun _ _ => True) (data self)) with
    (today := today) (self := self) (r := r) (self' := self') (c := c)
    as (emitted & _ & _ & Hperm & _); [| reflexivity | exact Hrun |].
  - destruct (emits_run_checks (data self)) as (r0 & log & Hsig & _ & Hrun0).
    exists r0, log. split; [exact Hsig|]. split; [|exact Hrun0].
    apply List.Forall_forall. intros; exact I.
  - eapply Permutation_in; [symmetry; exact Hperm|].
    apply in_or_app. left. exact Hi.
Qed.

(** X2.  [run_analysis] raises exactly when one of its ten checks does, with
    that exception: sorting and the summary never raise.  The instance is
    then left half-way: the summary is the one it had before the call, the
    records the earlier checks have created are in the buckets, behind
    those that were there, and the buckets are not sorted. *)
Theorem run_analysis_failure_is_partial (today : string)
    (self self' : SEOAuditAutomation) (e : exn) :
  (run_analysis today self = (Err e, self') <-> run_checks self = (Err e, self')) /\
  (run_analysis today self = (Err e, self') ->
   summary self' = summary self /\
   forall c, exists emitted,
     bucket c (issues self') = (bucket c (issues self) ++ emitted)%list /\
     sublist (map (fun i => (c, type i)) emitted) check_order /\
     Forall (sound_finding (data self) c) emitted).
Proof.
  split.
  - rewrite run_analysis_unfold.
    destruct (run_checks self) as [[u|e0] mid]; split; intros H;
      try discriminate; exact H.
  - intros Hrun. split.
    + destruct (run_analysis_log (data self)) as (r' & log & _ & _ & Hlog).
      rewrite (Hlog today self eq_refl) in Hrun. cbv zeta in Hrun.
      inversion Hrun; subst r' self'. reflexivity.
    + intros c.
      destruct (run_analysis_buckets (sound_finding (data self)) (data self)
                  (emits_run_checks _) today self (Err e) self' eq_refl Hrun c)
        as (emitted & Hsub & HQ & _ & Heq).
      exists emitted. split; [apply (Heq e eq_refl)|]. split; assumption.
Qed.

(** ** Loading again *)

Lemma load_files_again fs self names :
  List.NoDup (map fst (files self)) ->
  listdir fs (export_dir self) = Ok names ->
  let self' := snd (load_files fs self) in
  forall key,
    dict_get (files self') key
    = match last (matched_for key names) with
      | Some filename => Ok (path_join (export_dir self) filename)
      | None => dict_get (files self) key
      end /\
    data self' !! key
    = match dict_get (files self') key with
      | Ok file_path =>
          match parsed fs file_path with
          | Some df => Some df
          | None => data self !! key
          end
      | Err _ => data self !! key
      end.
Proof.
  intros Hnd Hls. cbv zeta. unfold load_files. rewrite Hls. cbn [snd files data].
  intros key.
  pose proof (discover_lookup (export_dir self) key names (files self)) as Hlook.
  pose proof (NoDup_discover (export_dir self) names (files self) Hnd) as Hnd'.
  split; [exact Hlook|].
  destruct (dict_get (discover (export_dir self) names (files self)) key)
    as [file_path|e] eqn:Hget.
  - apply (load_each fs _ key file_path (data self) Hnd' (dict_get_In _ _ _ Hget)).
  - apply load_untouched. apply (dict_get_Err _ _ _ Hget).
Qed.


(** ** Why a run fails *)

Section FailsOnly.
Context (d : gmap string DataFrame) (P : exn -> Prop).

Lemma fails_ret {A} (a : A) : fails_only d P (ret a).
Proof. intros self Hd. split; [exact Hd | discriminate]. Qed.

Lemma fails_append c i : fails_only d P (append_issue c i).
Proof. intros self Hd. split; [exact Hd | discriminate]. Qed.

Lemma fails_bind {A B} (m : M A) (k : A -> M B) :
  fails_only d P m -> (forall a, fails_only d P (k a)) ->
  fails_only d P (bind m k).
Proof.
  intros Hm Hk self Hd. unfold bind.
  destruct (Hm self Hd) as [Hd' He].
  destruct (m self) as [[a|e] self1]; cbn [fst snd] in *.
  - apply Hk, Hd'.
  - split; [exact Hd'|]. intros e' H. apply He. inversion H. reflexivity.
Qed.

Lemma fails_bind_lift {A B} (r : result A) (k : A -> M B) :
  (forall e, r = Err e -> P e) ->
  (forall a, r = Ok a -> fails_only d P (k a)) ->
  fails_only d P (bind (lift r) k).
Proof.
  intros He Hk. destruct r as [a|e].
  - apply (Hk a eq_refl).
  - intros self Hd. split; [exact Hd|].
    intros e' H. inversion H; subst. apply He. reflexivity.
Qed.

Lemma fails_bind_data {B} (k : gmap string DataFrame -> M B) :
  fails_only d P (k d) -> fails_only d P (bind get_data k).
Proof.
  intros Hk self Hd. unfold bind, get_data. rewrite Hd. apply Hk, Hd.
Qed.
End FailsOnly.

Lemma getitem_Err df c e :
  getitem df c = Err e -> e = KeyError c /\ in_columns c df = false.
Proof.
  unfold getitem, in_columns.
  destruct (existsb (String.eqb c) (columns df)) eqn:Hin.
  - assert (H : exists i, col_index c (columns df) = Some i).
    { clear -Hin. induction (columns df) as [|c' cols IH]; [discriminate|].
      cbn [col_index existsb] in *.
      destruct (String.eqb c c'); [eauto|].
      destruct (IH Hin) as [i ->]. eauto. }
    destruct H as [i ->]. discriminate.
  - rewrite (col_index_none _ _ Hin). intros H. inversion H. split; reflexivity.
Qed.

Lemma dropna_Err df c e :
  dropna df c = Err e -> e = KeyError c /\ in_columns c df = false.
Proof.
  unfold dropna. destruct (getitem df c) as [s|e0] eqn:Hs; [discriminate|].
  cbn [rbind]. intros H. inversion H; subst. apply getitem_Err, Hs.
Qed.

Lemma mapM_cmp_num_Err p s e :
  mapM (cmp_num p) s = Err e -> e = TypeError /\ exists c, In c s /\ is_text c = true.
Proof.
  induction s as [|c s IH]; cbn [mapM]; [discriminate|].
  destruct c as [|q|t]; cbn [cmp_num rbind].
  - destruct (mapM (cmp_num p) s); [discriminate|].
    cbn [rbind]. intros H. inversion H; subst.
    destruct (IH eq_refl) as [-> (c & Hc & Ht)]. split; [reflexivity|].
    exists c. split; [right; exact Hc | exact Ht].
  - destruct (mapM (cmp_num p) s); [discriminate|].
    cbn [rbind]. intros H. inversion H; subst.
    destruct (IH eq_refl) as [-> (c & Hc & Ht)]. split; [reflexivity|].
    exists c. split; [right; exact Hc | exact Ht].
  - intros H. inversion H. split; [reflexivity|].
    exists (Str t). split; [left; reflexivity | reflexivity].
Qed.

Lemma compare_Err df column s p e :
  getitem df column = Ok s -> mapM (cmp_num p) s = Err e ->
  e = TypeError /\ holds_text df column = true.
Proof.
  intros Hs He. apply getitem_ok in Hs. subst s.
  destruct (mapM_cmp_num_Err _ _ _ He) as [-> (c & Hc & Ht)].
  split; [reflexivity|].
  apply in_map_iff in Hc as (row & <- & Hrow).
  apply existsb_exists. exists row. split; assumption.
Qed.

Lemma duplicate_examples_Err df titles e :
  duplicate_examples df titles = Err e ->
  (e = KeyError "Title 1" /\ in_columns "Title 1" df = false) \/
  (e = KeyError "Address" /\ in_columns "Address" df = false).
Proof.
  induction titles as [|t titles IH]; cbn [duplicate_examples]; [discriminate|].
  destruct (getitem df "Title 1") as [col|e0] eqn:Hcol; cbn [rbind].
  - destruct (getitem (getitem_mask df (eq_value col t)) "Address")
      as [urls|e1] eqn:Hurls; cbn [rbind].
    + destruct (duplicate_examples df titles) as [rest|e2]; cbn [rbind];
        [discriminate|].
      intros H. inversion H; subst. apply IH. reflexivity.
    + intros H. inversion H; subst. right. apply (getitem_Err _ _ _ Hurls).
  - intros H. inversion H; subst. left. apply (getitem_Err _ _ _ Hcol).
Qed.

Lemma new_issue_of_catalog ty sc ttl desc cnt ex rec :
  dict_get ISSUE_SCORES ty = Ok sc ->
  exists i, new_issue ty ttl desc cnt ex rec = Ok i.
Proof.
  intros Hsc. unfold new_issue. rewrite Hsc. cbn [rbind]. unfold true_div.
  pose proof catalog_in_range as Hr. rewrite List.Forall_forall in Hr.
  destruct (Hr _ (dict_get_In _ _ _ Hsc)) as [_ He]. cbn [snd] in He.
  destruct (Z.eqb_spec (score_effort sc) 0) as [H0|_]; [lia|].
  cbn [rbind]. eauto.
Qed.

Lemma diagnose_missing d table column df sel e :
  In (table, column) required_columns -> d !! table = Some df ->
  columns sel = columns df ->
  getitem sel column = Err e -> diagnosed d e.
Proof.
  intros Hin Hdf Hcols He. apply getitem_Err in He as [-> Hmiss].
  left. exists table, column, df. repeat split; try assumption.
  unfold in_columns in *. rewrite <- Hcols. exact Hmiss.
Qed.

Lemma diagnose_dropna d table column df e :
  In (table, column) required_columns -> d !! table = Some df ->
  dropna df column = Err e -> diagnosed d e.
Proof.
  intros Hin Hdf He. apply dropna_Err in He as [-> Hmiss].
  left. exists table, column, df. repeat split; assumption.
Qed.

Lemma diagnose_text d table column df s p e :
  In (table, column) numeric_columns -> d !! table = Some df ->
  getitem df column = Ok s -> mapM (cmp_num p) s = Err e -> diagnosed d e.
Proof.
  intros Hin Hdf Hs He. destruct (compare_Err _ _ _ _ _ Hs He) as [-> Ht].
  right. exists table, column, df. repeat split; assumption.
Qed.

Ltac in_list := cbn [In]; repeat (first [left; reflexivity | right]).

Ltac no_new_issue_error :=
  let e := fresh "e" in
  let He := fresh "He" in
  intros e He;
  match type of He with
  | new_issue ?ty ?a ?b ?c ?x ?r = _ =>
      let i := fresh "i" in
      let Hi := fresh "Hi" in
      destruct (new_issue_of_catalog ty _ a b c x r eq_refl) as [i Hi];
      rewrite Hi in He; discriminate
  end.

(** The tail of every check: the addresses of the selected rows, the
    record, its bucket. *)
Ltac report_issue table df Hdf Hcols :=
  match goal with
  | |- fails_only _ _ (if ?b then _ else _) => destruct b; [|apply fails_ret]
  end;
  apply fails_bind_lift;
    [ let e := fresh "e" in
      let He := fresh "He" in
      intros e He;
      match type of He with
      | getitem ?sel _ = _ =>
          exact (diagnose_missing _ table "Address" df sel e ltac:(in_list) Hdf Hcols He)
      end
    | intros ? ? ];
  apply fails_bind_lift; [no_new_issue_error | intros ? ?];
  apply fails_append.

Lemma fails_broken_links d : fails_only d (diagnosed d) analyze_broken_links.
Proof.
  unfold analyze_broken_links. apply fails_bind_data.
  destruct (d !! "response_codes") as [df|] eqn:Hdf; [|apply fails_ret].
  apply fails_bind_lift;
    [intros e He; exact (diagnose_missing d "response_codes" "Status Code" df df e
                           ltac:(in_list) Hdf eq_refl He) | intros status Hstatus].
  apply fails_bind_lift;
    [intros e He; exact (diagnose_text d "response_codes" "Status Code" df status _ e
                           ltac:(in_list) Hdf Hstatus He) | intros mask Hmask].
  apply fails_bind.
  - report_issue "response_codes" df Hdf (eq_refl (columns df)).
  - intros _.
    apply fails_bind_lift;
      [intros e He; exact (diagnose_missing d "response_codes" "Status Code" df df e
                             ltac:(in_list) Hdf eq_refl He) | intros status' Hstatus'].
    apply fails_bind_lift;
      [intros e He; exact (diagnose_text d "response_codes" "Status Code" df status' _ e
                             ltac:(in_list) Hdf Hstatus' He) | intros mask' Hmask'].
    report_issue "response_codes" df Hdf (eq_refl (columns df)).
Qed.

Lemma getitem_present df c e :
  in_columns c df = true -> getitem df c = Err e -> False.
Proof. intros Hin He. apply getitem_Err in He as [_ H]. congruence. Qed.

Lemma dropna_present df c e :
  in_columns c df = true -> dropna df c = Err e -> False.
Proof. intros Hin He. apply dropna_Err in He as [_ H]. congruence. Qed.

Lemma fails_redirect_chains d : fails_only d (diagnosed d) analyze_redirect_chains.
Proof.
  unfold analyze_redirect_chains. apply fails_bind_data.
  destruct (d !! "redirect_chains") as [df|] eqn:Hdf; [|apply fails_ret].
  destruct (in_columns "Redirect Chain" df) eqn:Hcol; [|apply fails_ret].
  apply fails_bind_lift;
    [intros e He; destruct (getitem_present _ _ _ Hcol He) | intros col Hc].
  apply fails_bind_lift;
    [intros e He; exact (diagnose_text d "redirect_chains" "Redirect Chain" df col _ e
                           ltac:(in_list) Hdf Hc He) | intros mask Hmask].
  report_issue "redirect_chains" df Hdf (eq_refl (columns df)).
Qed.

Lemma fails_duplicate_titles d : fails_only d (diagnosed d) analyze_duplicate_titles.
Proof.
  unfold analyze_duplicate_titles. apply fails_bind_data.
  destruct (d !! "page_titles") as [df|] eqn:Hdf; [|apply fails_ret].
  apply fails_bind_lift;
    [intros e He; exact (diagnose_dropna d "page_titles" "Title 1" df e
                           ltac:(in_list) Hdf He) | intros df' Hdrop].
  destruct (dropna_ok _ _ _ Hdrop) as [Hcols _].
  apply fails_bind_lift;
    [intros e He; exact (diagnose_missing d "page_titles" "Title 1" df df' e
                           ltac:(in_list) Hdf Hcols He) | intros col Hc].
  cbv zeta.
  match goal with
  | |- fails_only _ _ (if ?b then _ else _) => destruct b; [|apply fails_ret]
  end.
  apply fails_bind_lift.
  - intros e He. left.
    destruct (duplicate_examples_Err _ _ _ He) as [[-> Hm]|[-> Hm]];
      unfold in_columns in Hm; rewrite Hcols in Hm.
    + exists "page_titles", "Title 1", df. repeat split; try assumption. in_list.
    + exists "page_titles", "Address", df. repeat split; try assumption. in_list.
  - intros ex Hex.
    apply fails_bind_lift; [no_new_issue_error | intros ? ?].
    apply fails_append.
Qed.

Ltac missing_value_check table column :=
  apply fails_bind_data;
  match goal with
  | |- fails_only ?d _ (match ?d !! _ with _ => _ end) =>
      let df := fresh "df" in
      let Hdf := fresh "Hdf" in
      destruct (d !! table) as [df|] eqn:Hdf; [|apply fails_ret];
      apply fails_bind_lift;
        [ intros ? ?;
          eapply (diagnose_missing d table column df df _ ltac:(in_list) Hdf eq_refl);
          eassumption
        | intros ? ? ];
      report_issue table df Hdf (eq_refl (columns df))
  end.

Lemma fails_missing_meta_descriptions d :
  fails_only d (diagnosed d) analyze_missing_meta_descriptions.
Proof.
  unfold analyze_missing_meta_descriptions.
  missing_value_check "meta_description" "Meta Description 1".
Qed.

Lemma fails_missing_h1 d : fails_only d (diagnosed d) analyze_missing_h1.
Proof. unfold analyze_missing_h1. missing_value_check "h1" "H1-1". Qed.

Lemma fails_missing_alt_text d : fails_only d (diagnosed d) analyze_missing_alt_text.
Proof. unfold analyze_missing_alt_text. missing_value_check "images" "Alt Text". Qed.

Lemma fails_slow_pages d : fails_only d (diagnosed d) analyze_slow_pages.
Proof.
  unfold analyze_slow_pages. apply fails_bind_data.
  destruct (d !! "page_speed") as [df|] eqn:Hdf; [|apply fails_ret].
  cbv zeta.
  destruct (in_columns "Page Load Time (Seconds)" df) eqn:Hcol; [|apply fails_ret].
  apply fails_bind_lift;
    [intros e He; destruct (getitem_present _ _ _ Hcol He) | intros col Hc].
  apply fails_bind_lift;
    [intros e He; exact (diagnose_text d "page_speed" "Page Load Time (Seconds)" df col _ e
                           ltac:(in_list) Hdf Hc He) | intros mask Hmask].
  report_issue "page_speed" df Hdf (eq_refl (columns df)).
Qed.

Ltac length_check table column n :=
  apply fails_bind_data;
  match goal with
  | |- fails_only ?d _ (match ?d !! _ with _ => _ end) =>
      let df := fresh "df" in
      let Hdf := fresh "Hdf" in
      let df' := fresh "df'" in
      let Hdrop := fresh "Hdrop" in
      let Hcols := fresh "Hcols" in
      destruct (d !! table) as [df|] eqn:Hdf; [|apply fails_ret];
      apply fails_bind_lift;
        [ intros ? ?;
          eapply (diagnose_dropna d table column df _ ltac:(in_list) Hdf);
          eassumption
        | intros df' Hdrop ];
      destruct (dropna_ok _ _ _ Hdrop) as [Hcols _];
      cbv zeta;
      apply fails_bind_lift;
        [ intros ? ?;
          eapply (diagnose_missing d table column df df' _ ltac:(in_list) Hdf Hcols);
          eassumption
        | intros ? ? ];
      apply fails_bind_lift;
        [ let e := fresh "e" in
          let He := fresh "He" in
          intros e He;
          match type of He with
          | gt (str_len ?col) _ = _ =>
              discriminate (eq_trans (eq_sym (gt_str_len n col)) He)
          end
        | intros ? ? ];
      report_issue table df Hdf Hcols
  end.

Lemma fails_title_length d : fails_only d (diagnosed d) analyze_title_length.
Proof. unfold analyze_title_length. length_check "page_titles" "Title 1" 60%nat. Qed.

Lemma fails_description_length d :
  fails_only d (diagnosed d) analyze_description_length.
Proof.
  unfold analyze_description_length.
  length_check "meta_description" "Meta Description 1" 160%nat.
Qed.

Lemma fails_multiple_h1 d : fails_only d (diagnosed d) analyze_multiple_h1.
Proof.
  unfold analyze_multiple_h1. apply fails_bind_data.
  destruct (d !! "h1") as [df|] eqn:Hdf; [|apply fails_ret].
  destruct (in_columns "H1-2" df) eqn:Hcol; [|apply fails_ret].
  apply fails_bind_lift;
    [intros e He; destruct (dropna_present _ _ _ Hcol He) | intros df' Hdrop].
  destruct (dropna_ok _ _ _ Hdrop) as [Hcols _].
  report_issue "h1" df Hdf Hcols.
Qed.

Lemma fails_run_checks d : fails_only d (diagnosed d) run_checks.
Proof.
  unfold run_checks.
  apply fails_bind; [apply fails_broken_links | intros _].
  apply fails_bind; [apply fails_redirect_chains | intros _].
  apply fails_bind; [apply fails_duplicate_titles | intros _].
  apply fails_bind; [apply fails_missing_meta_descriptions | intros _].
  apply fails_bind; [apply fails_missing_h1 | intros _].
  apply fails_bind; [apply fails_slow_pages | intros _].
  apply fails_bind; [apply fails_title_length | intros _].
  apply fails_bind; [apply fails_description_length | intros _].
  apply fails_bind; [apply fails_missing_alt_text | intros _].
  apply fails_multiple_h1.
Qed.

Lemma on_loaded_at d condition listed table column df :
  on_loaded d condition listed = true ->
  In (table, column) listed -> d !! table = Some df ->
  condition df column = true.
Proof.
  unfold on_loaded. rewrite forallb_forall. intros H Hin Hdf.
  specialize (H (table, column) Hin). cbn [fst snd] in H.
  rewrite Hdf in H. exact H.
Qed.

(** X4.  A run of [run_analysis] on tables whose text columns hold text
    fails for one of two reasons only: a loaded table lacks a column the
    checks read without testing for it, and the exception is the
    [KeyError] of that column; or a loaded table has text under a column
    the checks compare with a number, and the exception is [TypeError]. *)
Theorem failures_are_diagnosed (today : string) (self self' : SEOAuditAutomation)
    (e : exn) :
  text_where_measured (data self) = true ->
  run_analysis today self = (Err e, self') ->
  column_missing (data self) e \/ text_among_numbers (data self) e.
Proof.
  intros _ Hrun.
  rewrite run_analysis_unfold in Hrun.
  destruct (fails_run_checks (data self) self eq_refl) as [_ He].
  destruct (run_checks self) as [[u|e0] mid]; [discriminate|].
  inversion Hrun; subst. apply He. reflexivity.
Qed.

(** X5.  [run_analysis] returns on every instance whose loaded tables are
    complete and well typed: each has the columns the checks read without
    testing for them, no text under a column compared with a number, and
    text under the columns whose length is measured. *)
Theorem complete_exports_are_analysed (today : string) (self : SEOAuditAutomation) :
  has_required_columns (data self) = true ->
  numbers_where_compared (data self) = true ->
  text_where_measured (data self) = true ->
  exists self', run_analysis today self = (Ok tt, self').
Proof.
  intros Hreq Hnum _.
  rewrite run_analysis_unfold.
  destruct (fails_run_checks (data self) self eq_refl) as [_ He].
  destruct (run_checks self) as [[[]|e] mid]; [eauto|].
  exfalso.
  destruct (He e eq_refl) as [(table & column & df & Hin & Hdf & Hmiss & _)
                             |(table & column & df & Hin & Hdf & Htext & _)].
  - pose proof (on_loaded_at _ _ _ _ _ _ Hreq Hin Hdf) as H. cbv beta in H.
    congruence.
  - pose proof (on_loaded_at _ _ _ _ _ _ Hnum Hin Hdf) as H. cbv beta in H.
    rewrite Htext in H. discriminate.
Qed.

(** ** The other calls of the client *)

Lemma acknowledged_spec self w k :
  acknowledged self w k = true <-> export_acknowledged self w k.
Proof.
  unfold acknowledged, export_acknowledged. split.
  - destruct (_make_request self w k "export" "POST") as [[[|item d]|l|v]|];
      try discriminate.
    intros H. exists (item :: d). repeat split; [discriminate | exact H].
  - intros (response & -> & Hne & Hok).
    destruct response; [congruence | exact Hok].
Qed.

(** The test of a reply in the loop: it raises on a body that is true and
    is no object, and else tells whether the export is acknowledged. *)
Lemma export_failed_spec self w k :
  export_failed (_make_request self w k "export" "POST")
  = if export_unreadable self w k then Raises AttributeError
    else Returns (negb (acknowledged self w k)).
Proof.
  unfold export_failed, export_unreadable, acknowledged.
  destruct (_make_request self w k "export" "POST") as [[[|item d]|[|item l]|v]|];
    try reflexivity.
  cbn [true_reply no_object]. destruct (truthy v); reflexivity.
Qed.

Lemma unreadable_not_acknowledged self w k :
  export_unreadable self w k = true -> acknowledged self w k = false.
Proof.
  unfold export_unreadable, acknowledged.
  destruct (_make_request self w k "export" "POST") as [[d|l|v]|];
    [discriminate | reflexivity | reflexivity | reflexivity].
Qed.

Section Exports.
Context (self : client) (w : World) (crawl_id : json).
Context (output_dir fmt : string).

Local Abbreviation loop := (export_loop self w crawl_id output_dir fmt).
Local Abbreviation request := (export_request crawl_id output_dir fmt).

(** While every reply can be read the loop posts a request for each tab. *)
Lemma export_loop_returns l : forall k success,
  (forall j, (j < length l)%nat -> export_unreadable self w (k + j) = false) ->
  loop l k success
  = (Returns (success && forallb (acknowledged self w) (seq k (length l))),
     map request l).
Proof.
  induction l as [|tab l IH]; intros k success Hread.
  - cbn. rewrite andb_true_r. reflexivity.
  - cbn [export_loop]. rewrite export_failed_spec.
    pose proof (Hread 0%nat ltac:(cbn; lia)) as H0.
    rewrite Nat.add_0_r in H0. rewrite H0.
    rewrite IH by (intros j Hj; replace (S k + j)%nat with (k + S j)%nat by lia;
                   apply Hread; cbn; lia).
    cbn [length seq forallb map]. unfold export_request at 2. f_equal.
    destruct (acknowledged self w k), success; reflexivity.
Qed.

(** The first reply that cannot be read ends the loop. *)
Lemma export_loop_raises l : forall k success j,
  (j < length l)%nat -> export_unreadable self w (k + j) = true ->
  (forall i, (i < j)%nat -> export_unreadable self w (k + i) = false) ->
  loop l k success = (Raises AttributeError, map request (take (S j) l)).
Proof.
  induction l as [|tab l IH]; intros k success j Hj Hbad Hread; [cbn in Hj; lia|].
  cbn [export_loop]. rewrite export_failed_spec.
  destruct j as [|j].
  - rewrite Nat.add_0_r in Hbad. rewrite Hbad. cbn. rewrite take_0. reflexivity.
  - pose proof (Hread 0%nat ltac:(lia)) as H0.
    rewrite Nat.add_0_r in H0. rewrite H0.
    rewrite (IH (S k) _ j).
    + reflexivity.
    + cbn in Hj. lia.
    + replace (S k + j)%nat with (k + S j)%nat by lia. exact Hbad.
    + intros i Hi. replace (S k + i)%nat with (k + S i)%nat by lia.
      apply Hread. lia.
Qed.

(** When the loop returns it has posted a request for each tab. *)
Lemma export_loop_posted l : forall k success answer posted,
  loop l k success = (Returns answer, posted) -> posted = map request l.
Proof.
  induction l as [|tab l IH]; intros k success answer posted.
  - cbn. intros H. inversion H. reflexivity.
  - cbn [export_loop map]. destruct (export_failed _) as [failed|e]; [|discriminate].
    destruct (loop l (S k) (if failed then false else success))
      as [answer' posted'] eqn:Hloop.
    intros H. inversion H; subst answer' posted; clear H.
    rewrite (IH _ _ _ _ Hloop). reflexivity.
Qed.

(** The loop ends with [True] only after a request for each tab. *)
Lemma export_loop_true l : forall k success posted,
  loop l k success = (Returns true, posted) <->
  success = true /\ forallb (acknowledged self w) (seq k (length l)) = true /\
  posted = map request l.
Proof.
  induction l as [|tab l IH]; intros k success posted.
  - cbn. split.
    + intros H. inversion H. auto.
    + intros (-> & _ & ->). reflexivity.
  - cbn [export_loop length seq forallb map]. rewrite export_failed_spec.
    destruct (export_unreadable self w k) eqn:Hbad.
    + rewrite (unreadable_not_acknowledged _ _ _ Hbad). cbn [andb].
      split; [discriminate | intros (_ & H & _); discriminate].
    + destruct (loop l (S k) (if negb (acknowledged self w k) then false else success))
        as [answer posted'] eqn:Hloop.
      split.
      * intros H. inversion H; subst answer posted; clear H.
        apply IH in Hloop as (Hs & Hall & ->).
        destruct (acknowledged self w k); cbn [negb] in Hs; [|discriminate].
        subst success. cbn [andb]. auto.
      * intros (-> & Hall & ->). apply andb_prop in Hall as [Hk Hall].
        rewrite Hk in Hloop. cbn [negb] in Hloop.
        assert (H : loop l (S k) true = (Returns true, map request l))
          by (apply IH; auto).
        rewrite H in Hloop. inversion Hloop. reflexivity.
Qed.
End Exports.

Lemma all_acknowledged self w k :
  forallb (acknowledged self w) (seq k (length tabs)) = true <->
  forall j, (j < 10)%nat -> export_acknowledged self w (k + j).
Proof.
  rewrite forallb_forall. split.
  - intros H j Hj. apply acknowledged_spec, H.
    apply in_seq. change (length tabs) with 10%nat. lia.
  - intros H n Hn. apply in_seq in Hn. change (length tabs) with 10%nat in Hn.
    replace n with (k + (n - k))%nat by lia.
    apply acknowledged_spec, H. lia.
Qed.


(** ** From the client's exports to the loader *)

Lemma tab_matches tab :
  In tab tabs ->
  logical_name (tab_file "csv" tab) = Some (tab_filename tab) /\
  matched_for (tab_filename tab) (map (tab_file "csv") tabs) = [tab_file "csv" tab] /\
  logical_name (tab_file "xlsx" tab) = None.
Proof.
  intros Hin. cbn [tabs In] in Hin.
  repeat (destruct Hin as [<-|Hin]; [vm_compute; repeat split; reflexivity|]).
  destruct Hin.
Qed.

Lemma List_filter_Permutation {A} (p : A -> bool) (l l' : list A) :
  Permutation l l' -> Permutation (List.filter p l) (List.filter p l').
Proof.
  induction 1 as [|x l l' _ IH|x y l|l l' l'' _ IH1 _ IH2]; cbn [List.filter].
  - constructor.
  - destruct (p x); [constructor|]; exact IH.
  - destruct (p x), (p y); try reflexivity. constructor.
  - etransitivity; eassumption.
Qed.

Lemma discover_unmatched dir names : forall fl,
  Forall (fun f => logical_name f = None) names -> discover dir names fl = fl.
Proof.
  induction names as [|f names IH]; intros fl H; [reflexivity|].
  inversion H as [|? ? Hf Hrest]; subst.
  rewrite discover_cons, Hf. apply IH, Hrest.
Qed.


(** ** The whole run of the client *)

(** X9.  [run_full_crawl_and_export] stops at the first step that fails and
    answers [False]: after one request when the status check fails, after
    two when no crawl id comes back, after the polls of the wait when the
    crawl does not finish; no export is requested in these cases.  It
    answers [True] exactly when the status check succeeds, the crawl id is
    true, the wait returns [True], the directory can be made and each of
    the ten exports is acknowledged; it has then made twelve requests and
    the polls, the last of which reported FINISHED.  An exception of
    [start_crawl] or of the wait leaves the method, after two requests and
    after the polls. *)
Theorem run_full_crawl_and_export_steps (makedirs : string -> result unit)
    (self : client) (w : World) (fuel : nat) (now : Z)
    (url output_dir : string) (max_urls : option Z) (export_format : string) :
  let run :=
    run_full_crawl_and_export makedirs self w fuel now url output_dir max_urls
      export_format in
  let started := fst (start_crawl self w 1 url max_urls false false) in
  let wait := fun crawl_id =>
    wait_for_crawl_completion self (after 2 w) (str crawl_id)
      default_check_interval default_timeout fuel
      (now + latency w 0 + latency w 1)%Z in
  (check_status self w 0 = false -> run = Some (Returns false, 1%nat)) /\
  (check_status self w 0 = true ->
   forall crawl_id, started = Returns crawl_id -> truthy crawl_id = false ->
     run = Some (Returns false, 2%nat)) /\
  (check_status self w 0 = true ->
   forall crawl_id, started = Returns crawl_id -> truthy crawl_id = true ->
   forall polls, wait crawl_id = Some (Returns false, polls) ->
     run = Some (Returns false, (2 + polls)%nat)) /\
  (forall n, run = Some (Returns true, n) <->
     check_status self w 0 = true /\
     exists crawl_id, started = Returns crawl_id /\ truthy crawl_id = true /\
     exists polls, wait crawl_id = Some (Returns true, polls) /\
       makedirs output_dir = Ok tt /\
       (forall j, (j < 10)%nat -> export_acknowledged self w (2 + polls + j)) /\
       n = (12 + polls)%nat) /\
  (forall n, run = Some (Returns true, n) ->
     exists crawl_id k, started = Returns crawl_id /\ n = (13 + k)%nat /\
       reports self (after 2 w) (str crawl_id) k (JStr "FINISHED")) /\
  (check_status self w 0 = true ->
   forall e, started = Raises e -> run = Some (Raises e, 2%nat)) /\
  (check_status self w 0 = true ->
   forall crawl_id, started = Returns crawl_id -> truthy crawl_id = true ->
   forall e polls, wait crawl_id = Some (Raises e, polls) ->
     run = Some (Raises e, (2 + polls)%nat)).
Proof.
  cbv zeta. unfold run_full_crawl_and_export.
  set (started := fst (start_crawl self w 1 url max_urls false false)).
  set (wait := fun crawl_id =>
         wait_for_crawl_completion self (after 2 w) (str crawl_id)
           default_check_interval default_timeout fuel
           (now + latency w 0 + latency w 1)%Z).
  assert (Htrue : forall n,
    (if negb (check_status self w 0) then Some (Returns false, 1%nat)
     else match started with
          | Raises e => Some (Raises e, 2%nat)
          | Returns crawl_id =>
              if negb (truthy crawl_id) then Some (Returns false, 2%nat)
              else match wait crawl_id with
                   | None => None
                   | Some (Raises e, polls) => Some (Raises e, (2 + polls)%nat)
                   | Some (Returns false, polls) =>
                       Some (Returns false, (2 + polls)%nat)
                   | Some (Returns true, polls) =>
                       match makedirs output_dir with
                       | Err e => Some (Raises (Exn e), (2 + polls)%nat)
                       | Ok _ =>
                           let (answer, posted) :=
                             export_individual_tabs makedirs self w (2 + polls)
                               crawl_id output_dir export_format in
                           Some (answer, (2 + polls + length posted)%nat)
                       end
                   end
          end) = Some (Returns true, n) <->
    check_status self w 0 = true /\
    exists crawl_id, started = Returns crawl_id /\ truthy crawl_id = true /\
    exists polls, wait crawl_id = Some (Returns true, polls) /\
      makedirs output_dir = Ok tt /\
      (forall j, (j < 10)%nat -> export_acknowledged self w (2 + polls + j)) /\
      n = (12 + polls)%nat).
  { intros n.
    destruct (check_status self w 0); cbn [negb];
      [|split; [discriminate | intros (H & _); discriminate]].
    destruct started as [crawl_id|e];
      [|split; [discriminate | intros (_ & c & H & _); discriminate]].
    destruct (truthy crawl_id) eqn:Hid; cbn [negb];
      [|split; [discriminate
               | intros (_ & c & Hc & H & _); inversion Hc; subst c; congruence]].
    destruct (wait crawl_id) as [[[[|]|e] polls]|] eqn:Hwait;
      [ | split; [discriminate
                 | intros (_ & c & Hc & _ & p & H & _); inversion Hc; subst c;
                   rewrite Hwait in H; discriminate]
        | split; [discriminate
                 | intros (_ & c & Hc & _ & p & H & _); inversion Hc; subst c;
                   rewrite Hwait in H; discriminate]
        | split; [discriminate
                 | intros (_ & c & Hc & _ & p & H & _); inversion Hc; subst c;
                   rewrite Hwait in H; discriminate] ].
    unfold export_individual_tabs.
    destruct (makedirs output_dir) as [[]|e] eqn:Hmk;
      [|split; [discriminate
               | intros (_ & c & _ & _ & p & _ & H & _); discriminate]].
    destruct (export_loop self w crawl_id output_dir export_format tabs
                (2 + polls) true) as [answer posted] eqn:Hloop.
    split.
    - intros H. inversion H; subst answer n; clear H.
      apply export_loop_true in Hloop as (_ & Hall & ->).
      split; [reflexivity|]. exists crawl_id.
      split; [reflexivity|]. split; [exact Hid|].
      exists polls. split; [exact Hwait|]. split; [reflexivity|].
      split; [apply all_acknowledged, Hall|].
      rewrite List.length_map. change (length tabs) with 10%nat. lia.
    - intros (_ & c & Hc & _ & p & Hp & _ & Hack & ->).
      inversion Hc; subst c. rewrite Hwait in Hp. inversion Hp; subst p.
      assert (H : export_loop self w crawl_id output_dir export_format tabs
                    (2 + polls) true
                  = (Returns true,
                     map (export_request crawl_id output_dir export_format) tabs)).
      { apply export_loop_true. split; [reflexivity|].
        split; [apply all_acknowledged, Hack | reflexivity]. }
      rewrite H in Hloop. inversion Hloop; subst answer posted.
      cbn [length]. do 2 f_equal. lia. }
  split; [intros ->; reflexivity|].
  split; [intros -> crawl_id -> ->; reflexivity|].
  split; [intros -> crawl_id -> -> polls ->; reflexivity|].
  split; [exact Htrue|].
  split.
  { intros n Hn.
    apply Htrue in Hn as (_ & crawl_id & Hid & _ & polls & Hwait & _ & _ & ->).
    unfold wait, wait_for_crawl_completion in Hwait.
    apply (wait_loop_sound self (after 2 w) (str crawl_id) default_check_interval
             default_timeout _ fuel 0) in Hwait.
    destruct Hwait as [(Hb & _)|(k & -> & _ & Hk & _ & _)]; [discriminate|].
    exists crawl_id, k. split; [exact Hid|]. split; [lia|].
    apply verdict_true in Hk. exact Hk. }
  split; [intros -> e ->; reflexivity|].
  intros -> crawl_id -> -> e polls ->. reflexivity.
Qed.

(** ** The number of polls *)

Lemma clock_lower w check_interval now k :
  (forall j, 0 <= latency w j)%Z ->
  (now + Z.of_nat k * check_interval <= clock w check_interval now k)%Z.
Proof.
  intros Hlat. induction k as [|k IH]; cbn [clock]; [lia|].
  specialize (Hlat k). lia.
Qed.

Lemma wait_loop_in_time self w crawl_id check_interval timeout start_time fuel :
  forall p o n,
    wait_loop self w crawl_id check_interval timeout start_time fuel p
      (clock w check_interval start_time p) = Some (o, n) ->
    n = p \/ exists k, n = S k /\
      (clock w check_interval start_time k - start_time <= timeout)%Z.
Proof.
  induction fuel as [|fuel IH]; intros p o n H; [discriminate|].
  rewrite wait_loop_step in H.
  destruct (Z.ltb_spec timeout (clock w check_interval start_time p - start_time))
    as [Hout|Hin].
  - inversion H. left. reflexivity.
  - destruct (verdict self w crawl_id check_interval p) as [o'|].
    + inversion H; subst. right. exists p. split; [reflexivity | exact Hin].
    + change (clock w check_interval start_time p + latency w p + check_interval)%Z
        with (clock w check_interval start_time (S p)) in H.
      destruct (IH _ _ _ H) as [->|Hk]; [|right; exact Hk].
      right. exists p. split; [reflexivity | exact Hin].
Qed.

(** X10.  With a positive interval and requests that take no negative time,
    [wait_for_crawl_completion] makes at most [timeout / check_interval + 1]
    status requests (none for a negative time-out), whatever the remote
    tool answers and whether the method returns or raises: 361 with the
    default interval of 10 and time-out of 3600 seconds. *)
Theorem polls_are_bounded (self : client) (w : World) (crawl_id : string)
    (check_interval timeout now : Z) (fuel : nat) (o : outcome bool) (n : nat) :
  (0 < check_interval)%Z ->
  (forall k, 0 <= latency w k)%Z ->
  wait_for_crawl_completion self w crawl_id check_interval timeout fuel now
  = Some (o, n) ->
  (Z.of_nat n <= Z.max 0 (timeout / check_interval + 1))%Z /\
  (check_interval = default_check_interval -> timeout = default_timeout ->
   (n <= 361)%nat).
Proof.
  intros Hiv Hlat Hwait.
  assert (Hbound : (Z.of_nat n <= Z.max 0 (timeout / check_interval + 1))%Z).
  { unfold wait_for_crawl_completion in Hwait.
    apply (wait_loop_in_time self w crawl_id check_interval timeout now fuel 0)
      in Hwait.
    destruct Hwait as [->|(k & -> & Hk)]; [lia|].
    pose proof (clock_lower w check_interval now k Hlat) as Hlow.
    assert (Hq : (Z.of_nat k <= timeout / check_interval)%Z)
      by (apply Z.div_le_lower_bound; lia).
    lia. }
  split; [exact Hbound|].
  intros -> ->. unfold default_check_interval, default_timeout in Hbound.
  change (3600 / 10 + 1)%Z with 361%Z in Hbound. lia.
Qed.

(** ** The HTML report *)

Lemma join_text sep l :
  match join sep l with
  | Ok _ => existsb (fun c => negb (is_text c)) l = false
  | Err e => e = TypeError /\ existsb (fun c => negb (is_text c)) l = true
  end.
Proof.
  induction l as [|c l IH]; [reflexivity|].
  destruct c as [|q|s]; cbn [join existsb is_text negb orb]; try (split; reflexivity).
  destruct l as [|c' l]; [reflexivity|].
  destruct (join sep (c' :: l)) as [rest|e]; cbn [rbind]; exact IH.
Qed.

Lemma issue_html_text category_key i :
  match issue_html category_key i with
  | Returns _ => odd_example i = false
  | Raises e => e = Exn TypeError /\ odd_example i = true
  end.
Proof.
  unfold issue_html, odd_example.
  pose proof (join_text "<br>" (examples i)) as H.
  destruct (join "<br>" (examples i)) as [joined|e]; cbn [of_result obind].
  - exact H.
  - destruct H as [-> H]. split; [reflexivity | exact H].
Qed.

Lemma issues_html_of_text category_key l : forall out,
  match issues_html_of category_key l out with
  | Returns _ => existsb odd_example l = false
  | Raises e => e = Exn TypeError /\ existsb odd_example l = true
  end.
Proof.
  induction l as [|i l IH]; intros out; [reflexivity|].
  cbn [issues_html_of existsb].
  pose proof (issue_html_text category_key i) as Hi.
  destruct (issue_html category_key i) as [block|e]; cbn [obind].
  - rewrite Hi. cbn [orb]. apply IH.
  - destruct Hi as [-> ->]. split; reflexivity.
Qed.

Lemma issues_html_for_text cs b : forall out,
  match issues_html_for cs b out with
  | Returns _ => existsb odd_example (flat_map (fun c => bucket c b) cs) = false
  | Raises e =>
      e = Exn TypeError /\
      existsb odd_example (flat_map (fun c => bucket c b) cs) = true
  end.
Proof.
  induction cs as [|c cs IH]; intros out; [reflexivity|].
  cbn [issues_html_for flat_map]. rewrite existsb_app.
  destruct (bucket c b) as [|i l] eqn:Hb; [apply IH|].
  pose proof (issues_html_of_text (category_name c) (i :: l)
                (String.append out
                   (String.concat EmptyString
                      ["<h2>"; category_title c; "</h2>"; newline]))) as Hl.
  destruct (issues_html_of _ (i :: l) _) as [out'|e]; cbn [obind].
  - rewrite Hl. cbn [orb]. apply IH.
  - destruct Hl as [-> ->]. split; reflexivity.
Qed.

(** The template has CSS rules in braces, and [str.format] reads the first
    of them as a replacement field. *)
Lemma html_template_format os date_ critical high medium low issues_html :
  format os html_template
    [ ("date", date_); ("critical_count", critical); ("high_count", high);
      ("medium_count", medium); ("low_count", low); ("issues_html", issues_html) ]
  = Raises (Exn (KeyError " font-family")).
Proof. vm_compute. reflexivity. Qed.

(** Whatever is stored in the instance, the call ends in an exception. *)
Lemma generate_html_report_raises os timestamp output_dir self :
  exists e, generate_html_report os timestamp output_dir self = Raises e.
Proof.
  unfold generate_html_report, summary_get.
  destruct (os_makedirs os output_dir); cbn [obind]; [|eauto].
  destruct (issues_html_for categories (issues self) EmptyString);
    cbn [obind]; [|eauto].
  destruct (summary self); cbn [obind]; [|eauto].
  rewrite html_template_format. eauto.
Qed.

(** X11.  [generate_html_report] never returns and never writes the report.
    If the directory cannot be made, that exception leaves it; else, if an
    issue has an example that is not text (a missing or numeric address),
    [TypeError]; else, if no summary is stored, [KeyError] for [date]; and
    in every other case [KeyError] for [ font-family], the start of the
    first CSS rule of the template, which [str.format] takes for a
    replacement field. *)
Theorem generate_html_report_always_raises (os : Platform)
    (timestamp output_dir : string) (self : SEOAuditAutomation) :
  generate_html_report os timestamp output_dir self
  = match os_makedirs os output_dir with
    | Raises e => Raises e
    | Returns _ =>
        if existsb odd_example (all_issues (issues self))
        then Raises (Exn TypeError)
        else match summary self with
             | None => Raises (Exn (KeyError "date"))
             | Some _ => Raises (Exn (KeyError " font-family"))
             end
    end.
Proof.
  unfold generate_html_report.
  destruct (os_makedirs os output_dir) as [[]|e]; cbn [obind]; [|reflexivity].
  pose proof (issues_html_for_text categories (issues self) EmptyString) as H.
  fold (all_issues (issues self)) in H.
  destruct (issues_html_for categories (issues self) EmptyString)
    as [issues_html|e]; cbn [obind].
  - rewrite H. unfold summary_get.
    destruct (summary self) as [s|]; cbn [obind]; [|reflexivity].
    rewrite html_template_format. reflexivity.
  - destruct H as [-> ->]. reflexivity.
Qed.

(** ** The audit of a workflow *)

(** The directory cannot be listed: [load_files] answers [False]. *)
Lemma run_audit_unlisted os clock self exports_dir e :
  listdir (file_system os) exports_dir = Err e ->
  SEOWorkflow.run_audit os clock self exports_dir
  = (Returns SEOWorkflow.AuditFalse, self).
Proof.
  intros Hls. unfold SEOWorkflow.run_audit, load_files. cbn [export_dir init].
  rewrite Hls. reflexivity.
Qed.

(** The directory is listed: the audit is run and its reports are written,
    as far as they go. *)
Lemma run_audit_listed os clock self exports_dir names :
  listdir (file_system os) exports_dir = Ok names ->
  exists e,
    SEOWorkflow.run_audit os clock self exports_dir = (Raises e, self).
Proof.
  intros Hls. unfold SEOWorkflow.run_audit, load_files. cbn [export_dir init].
  rewrite Hls. cbn [negb].
  match goal with
  | |- context [run_analysis ?today ?audit] =>
      destruct (run_analysis today audit) as [[u|e] audit']
  end; [|eauto].
  destruct (generate_report os _ _ audit'); [|eauto].
  destruct (generate_charts os _ _ audit'); [|eauto].
  destruct (generate_html_report_raises os (html_stamp clock)
              (SEOWorkflow.reports_path self) audit') as [e ->].
  eauto.
Qed.

Lemma run_audit_self os clock self exports_dir :
  snd (SEOWorkflow.run_audit os clock self exports_dir) = self.
Proof.
  destruct (listdir (file_system os) exports_dir) as [names|e0] eqn:Hls.
  - destruct (run_audit_listed os clock self exports_dir names Hls) as [e ->].
    reflexivity.
  - rewrite (run_audit_unlisted os clock self exports_dir e0 Hls). reflexivity.
Qed.


Lemma run_workflow_self os clock self send_email config :
  snd (SEOWorkflow.run_workflow os clock self send_email config) = self.
Proof.
  unfold SEOWorkflow.run_workflow.
  destruct (SEOWorkflow.copy_exports os self) as [exports_dir|e]; [|reflexivity].
  destruct (listdir (file_system os) exports_dir) as [names|e0] eqn:Hls.
  - destruct (run_audit_listed os clock self exports_dir names Hls) as [e ->].
    reflexivity.
  - rewrite (run_audit_unlisted os clock self exports_dir e0 Hls). reflexivity.
Qed.


(** X14.  No call of a method ever stores a report file in a workflow made by
    [SEOWorkflow(...)]: [report_files] is empty in every instance reached
    from the constructor through [run_audit], [generate_excel_report] and
    [run_workflow].  On such an instance [generate_excel_report] and
    [send_email_report] raise [KeyError] for [json] before they read or
    write anything. *)
Theorem report_files_stay_empty (self : SEOWorkflow.workflow) :
  reached self ->
  SEOWorkflow.report_files self = [] /\
  (forall os,
     SEOWorkflow.generate_excel_report os self = (Raises (Exn (KeyError "json")), self)) /\
  (forall os recipients smtp_server smtp_port smtp_user smtp_password,
     SEOWorkflow.send_email_report os self recipients smtp_server smtp_port
       smtp_user smtp_password
     = Raises (Exn (KeyError "json"))).
Proof.
  intros Hreached.
  assert (Hempty : SEOWorkflow.report_files self = []).
  { induction Hreached as [os now domain exports_path output_path self Hinit
                          |os clock self exports_dir _ IH
                          |os self _ IH
                          |os clock self send_email config _ IH].
    - unfold SEOWorkflow.__init__ in Hinit.
      destruct (os_makedirs os _); [|discriminate]. cbn [obind] in Hinit.
      destruct (os_makedirs os _); [|discriminate]. cbn [obind] in Hinit.
      inversion Hinit. reflexivity.
    - rewrite run_audit_self. exact IH.
    - unfold SEOWorkflow.generate_excel_report. rewrite IH. exact IH.
    - rewrite run_workflow_self. exact IH. }
  split; [exact Hempty|]. split.
  - intros os. unfold SEOWorkflow.generate_excel_report. rewrite Hempty. reflexivity.
  - intros os recipients smtp_server smtp_port smtp_user smtp_password.
    unfold SEOWorkflow.send_email_report. rewrite Hempty. reflexivity.
Qed.

(** ** The end-to-end workflow *)

Lemma run_seo_audit_outcome os clock self :
  snd (EndToEndSEOWorkflow.run_seo_audit os clock self) = self /\
  match listdir (file_system os) (EndToEndSEOWorkflow.exports_dir self) with
  | Err _ =>
      fst (EndToEndSEOWorkflow.run_seo_audit os clock self)
      = Returns SEOWorkflow.AuditFalse
  | Ok _ =>
      exists e, fst (EndToEndSEOWorkflow.run_seo_audit os clock self) = Raises e
  end.
Proof.
  unfold EndToEndSEOWorkflow.run_seo_audit, load_files. cbn [export_dir init].
  destruct (listdir (file_system os) (EndToEndSEOWorkflow.exports_dir self))
    as [names|e0]; cbn [negb]; [|split; reflexivity].
  match goal with
  | |- context [run_analysis ?today ?audit] =>
      destruct (run_analysis today audit) as [[u|e] audit']
  end; [|split; [reflexivity | eauto]].
  destruct (generate_report os _ _ audit'); [|split; [reflexivity | eauto]].
  destruct (generate_charts os _ _ audit'); [|split; [reflexivity | eauto]].
  destruct (generate_html_report_raises os (html_stamp clock)
              (EndToEndSEOWorkflow.reports_dir self) audit') as [e ->].
  split; [reflexivity | eauto].
Qed.


(** ** The command-line crawler *)

Lemma exports_found_spec os output_dir names export_tabs : forall created,
  listdir (file_system os) output_dir = Ok names ->
  ScreamingFrogAutomation.exports_found os output_dir export_tabs created
  = Some (created ||
          existsb (fun tab =>
                     existsb (fun file =>
                                contains (lower (replace ":" "_" tab)) (lower file)
                                && endswith file ".csv") names)
                  export_tabs).
Proof.
  intros created Hls. revert created.
  induction export_tabs as [|tab l IH]; intros created;
    cbn [ScreamingFrogAutomation.exports_found existsb].
  - rewrite orb_false_r. reflexivity.
  - rewrite Hls, IH. f_equal.
    rewrite (orb_comm _ created), orb_assoc. reflexivity.
Qed.

(** X16.  Once the output directory is made, no exception leaves
    [run_crawl_with_exports]: a failure to start the crawler or to list the
    directory makes it return [False].  It returns [True] exactly when the
    crawler exits with code 0, the directory can be listed and, for at least
    one of the tabs asked for, holds a [.csv] file whose lower-cased name
    contains the tab's name, lower-cased with [:] replaced by [_].  With an
    empty list of tabs it returns [False] whatever the crawl has
    exported. *)
Theorem run_crawl_with_exports_answers (os : Platform)
    (self : ScreamingFrogAutomation.automation) (url output_dir : string)
    (export_tabs : option (list string)) (config_file : option string) :
  let asked :=
    match export_tabs with
    | Some l => l
    | None => ScreamingFrogAutomation.default_export_tabs
    end in
  let cmd :=
    ([ScreamingFrogAutomation.sf_path self; "--headless"; "--crawl"; url;
      "--output-folder"; output_dir]
     ++ ScreamingFrogAutomation.config_option os config_file
     ++ flat_map (fun tab => ["--export-tabs"; tab]) asked)%list in
  (forall e, os_makedirs os output_dir = Raises e ->
     ScreamingFrogAutomation.run_crawl_with_exports os self url output_dir
       export_tabs config_file = Raises e) /\
  (os_makedirs os output_dir = Returns tt ->
   exists answer,
     ScreamingFrogAutomation.run_crawl_with_exports os self url output_dir
       export_tabs config_file = Returns answer /\
     (answer = true <->
      subprocess_run os cmd = Returns 0%Z /\
      exists names tab file,
        listdir (file_system os) output_dir = Ok names /\
        In tab asked /\ In file names /\
        contains (lower (replace ":" "_" tab)) (lower file) = true /\
        endswith file ".csv" = true) /\
     (export_tabs = Some [] -> answer = false)).
Proof.
  cbv zeta. unfold ScreamingFrogAutomation.run_crawl_with_exports.
  split; [intros e ->; reflexivity|].
  intros ->. cbn [obind].
  set (asked := match export_tabs with
                | Some l => l
                | None => ScreamingFrogAutomation.default_export_tabs
                end).
  set (cmd := ([ScreamingFrogAutomation.sf_path self; "--headless"; "--crawl"; url;
                "--output-folder"; output_dir]
               ++ ScreamingFrogAutomation.config_option os config_file
               ++ flat_map (fun tab => ["--export-tabs"; tab]) asked)%list).
  unfold ScreamingFrogAutomation.crawl_failed.
  destruct (subprocess_run os cmd) as [code|e] eqn:Hrun.
  - destruct (Z.eqb_spec code 0) as [->|Hcode]; cbn [negb].
    + destruct (listdir (file_system os) output_dir) as [names|e] eqn:Hls.
      * rewrite (exports_found_spec os output_dir names asked false Hls).
        cbn [orb]. eexists. split; [reflexivity|]. split.
        -- rewrite existsb_exists. split.
           ++ intros (tab & Htab & Hfile). apply existsb_exists in Hfile.
              destruct Hfile as (file & Hfile & Hmatch).
              apply andb_true_iff in Hmatch as [Hc He].
              split; [reflexivity|]. exists names, tab, file. auto.
           ++ intros (_ & names' & tab & file & Hn & Htab & Hfile & Hc & He).
              inversion Hn; subst names'. exists tab. split; [exact Htab|].
              apply existsb_exists. exists file. split; [exact Hfile|].
              rewrite Hc, He. reflexivity.
        -- intros ->. reflexivity.
      * assert (Hnone : ScreamingFrogAutomation.exports_found os output_dir asked false
                        = match asked with [] => Some false | _ => None end).
        { destruct asked; cbn [ScreamingFrogAutomation.exports_found];
            [reflexivity | rewrite Hls; reflexivity]. }
        rewrite Hnone. exists false.
        split; [destruct asked; reflexivity|]. split; [|reflexivity].
        split; [discriminate|].
        intros (_ & names & tab & file & Hn & _). discriminate.
    + exists false. split; [reflexivity|]. split; [|reflexivity].
      split; [discriminate|]. intros (H & _). inversion H. congruence.
  - exists false. split; [reflexivity|]. split; [|reflexivity].
    split; [discriminate|]. intros (H & _). discriminate.
Qed.

(** ** The crawler's check and the loader's names *)

Lemma existsb_swap {A B} (f : A -> B -> bool) (la : list A) (lb : list B) :
  existsb (fun a => existsb (f a) lb) la
  = existsb (fun b => existsb (fun a => f a b) la) lb.
Proof.
  induction la as [|a la IH]; cbn [existsb].
  - induction lb as [|b lb IHb]; [reflexivity | cbn [existsb]; exact IHb].
  - rewrite IH. clear IH.
    induction lb as [|b lb IHb]; cbn [existsb]; [reflexivity|].
    rewrite <- IHb.
    destruct (f a b), (existsb (f a) lb), (existsb (fun a0 => f a0 b) la);
      reflexivity.
Qed.

(** Of the files the loader looks for, the check of the crawl finds four. *)
Lemma tab_check_of_expected file :
  In file expected_files ->
  existsb (fun tab =>
             contains (lower (replace ":" "_" tab)) (lower file)
             && endswith file ".csv")
          EndToEndSEOWorkflow.default_export_tabs
  = existsb (String.eqb file) ["internal_all.csv"; "internal_html.csv"; "h1.csv"; "images.csv"].
Proof.
  intros Hin. cbn [In expected_files] in Hin.
  repeat (destruct Hin as [<-|Hin]; [vm_compute; reflexivity|]).
  destruct Hin.
Qed.

(** X17.  The check that ends [EndToEndSEOWorkflow.run_crawl] and the loader
    do not agree on file names: the check lower-cases a tab's name and
    replaces [:] only, so [Response Codes] is looked for as
    [response codes], while the loader looks for [response_codes.csv].
    When the crawler exits with code 0 and the exports directory holds
    files named as the loader expects them, the crawl is reported as done
    exactly when one of [internal_all.csv], [internal_html.csv], [h1.csv]
    and [images.csv] is among them; the six other exports do not count. *)
Theorem crawl_check_misses_spaced_tabs (os : Platform)
    (self : EndToEndSEOWorkflow.workflow) (url : string) (max_urls : option Z)
    (config_file : option string) (names : list string) :
  os_makedirs os (EndToEndSEOWorkflow.exports_dir self) = Returns tt ->
  (forall cmd, subprocess_run os cmd = Returns 0%Z) ->
  listdir (file_system os) (EndToEndSEOWorkflow.exports_dir self) = Ok names ->
  Forall (fun file => In file expected_files) names ->
  EndToEndSEOWorkflow.run_crawl os self url max_urls config_file None
  = Returns (existsb (fun file =>
                        existsb (String.eqb file)
                          ["internal_all.csv"; "internal_html.csv"; "h1.csv";
                           "images.csv"])
                     names).
Proof.
  intros Hmk Hrun Hls Hnames.
  unfold EndToEndSEOWorkflow.run_crawl,
    ScreamingFrogAutomation.run_crawl_with_exports,
    ScreamingFrogAutomation.crawl_failed.
  rewrite Hmk, Hrun. cbn [obind Z.eqb negb].
  rewrite (exports_found_spec os _ names _ false Hls). cbn [orb obind].
  rewrite (existsb_swap
             (fun tab file =>
                contains (lower (replace ":" "_" tab)) (lower file)
                && endswith file ".csv")).
  match goal with
  | |- (if negb ?b then _ else _) = Returns ?c =>
      assert (Heq : b = c); [|rewrite Heq; destruct c; reflexivity]
  end.
  clear Hls. induction Hnames as [|file names Hfile _ IH]; cbn [existsb];
    [reflexivity|].
  rewrite IH. f_equal. apply (tab_check_of_expected file Hfile).
Qed.

(** ** The plain crawl *)

(** X18.  Once the output directory is made, no exception leaves
    [ScreamingFrogAutomation.run_crawl].  It returns [True] exactly when the
    crawler exits with code 0 and the directory lists a name that ends in
    [.csv], whether this crawl wrote the file or not.  A limit
    [max_urls=0] is taken as no limit: the command is the one built
    without [max_urls]. *)
Theorem run_crawl_answers (os : Platform)
    (self : ScreamingFrogAutomation.automation) (url output_dir : string)
    (config_file : option string) (max_urls : option Z)
    (crawl_settings : list (string * pyvalue)) :
  let limit :=
    match max_urls with
    | Some 0%Z | None => []
    | Some n => ["--bulk-max-urls"; str_int n]
    end in
  let cmd :=
    ([ScreamingFrogAutomation.sf_path self; "--headless"; "--crawl"; url;
      "--output-folder"; output_dir]
     ++ ScreamingFrogAutomation.config_option os config_file
     ++ limit
     ++ flat_map (fun item => [String.append "--" (fst item); py_str (snd item)])
          crawl_settings)%list in
  (forall e, os_makedirs os output_dir = Raises e ->
     ScreamingFrogAutomation.run_crawl os self url output_dir config_file
       max_urls crawl_settings = Raises e) /\
  (os_makedirs os output_dir = Returns tt ->
   exists answer,
     ScreamingFrogAutomation.run_crawl os self url output_dir config_file
       max_urls crawl_settings = Returns answer /\
     (answer = true <->
      subprocess_run os cmd = Returns 0%Z /\
      exists names file,
        listdir (file_system os) output_dir = Ok names /\
        In file names /\ endswith file ".csv" = true)) /\
  ScreamingFrogAutomation.run_crawl os self url output_dir config_file
    (Some 0%Z) crawl_settings
  = ScreamingFrogAutomation.run_crawl os self url output_dir config_file
      None crawl_settings.
Proof.
  cbv zeta. unfold ScreamingFrogAutomation.run_crawl.
  split; [intros e ->; reflexivity|]. split; [|reflexivity].
  intros ->. cbn [obind].
  assert (Hlimit :
    match max_urls with
    | Some n => if (n =? 0)%Z then [] else ["--bulk-max-urls"; str_int n]
    | None => []
    end
    = match max_urls with
      | Some 0%Z | None => []
      | Some n => ["--bulk-max-urls"; str_int n]
      end).
  { destruct max_urls as [[|p|p]|]; reflexivity. }
  rewrite Hlimit. clear Hlimit.
  unfold ScreamingFrogAutomation.crawl_failed.
  match goal with
  | |- context [subprocess_run os ?c] =>
      destruct (subprocess_run os c) as [code|e] eqn:Hrun
  end.
  - destruct (Z.eqb_spec code 0) as [->|Hcode]; cbn [negb].
    + destruct (listdir (file_system os) output_dir) as [names|e] eqn:Hls.
      * eexists. split; [reflexivity|]. rewrite existsb_exists. split.
        -- intros (file & Hin & Hcsv). split; [reflexivity|].
           exists names, file. auto.
        -- intros (_ & names' & file & Hn & Hin & Hcsv).
           inversion Hn; subst names'. exists file. auto.
      * exists false. split; [reflexivity|]. split; [discriminate|].
        intros (_ & names & file & Hn & _). discriminate.
    + exists false. split; [reflexivity|]. split; [discriminate|].
      intros (H & _). inversion H. congruence.
  - exists false. split; [reflexivity|]. split; [discriminate|].
    intros (H & _). discriminate.
Qed.

(** ** The layout of the workbook *)

Lemma issue_data_empty l :
  (length (issue_data l) =? 0)%nat
  = negb (existsb (fun i => negb (length (examples i) =? 0)%nat) l).
Proof.
  unfold issue_data. induction l as [|i l IH]; [reflexivity|].
  cbn [flat_map existsb]. rewrite List.length_app, List.length_map.
  destruct (examples i) as [|example rest]; cbn [length Nat.eqb negb orb Nat.add];
    [exact IH | reflexivity].
Qed.

Lemma category_sheets_spec b c :
  category_sheets b c
  = if with_examples b c
    then [ {| sheet_name := capitalize (category_name c);
              header := issue_header; body := issue_data (bucket c b) |} ]
    else [].
Proof.
  unfold category_sheets, with_examples. rewrite issue_data_empty, negb_involutive.
  destruct (bucket c b) as [|i l]; reflexivity.
Qed.

Lemma category_sheets_rows b c :
  list_sum (map (fun sh => length (body sh)) (category_sheets b c))
  = list_sum (map (fun i => length (examples i)) (bucket c b)).
Proof.
  rewrite <- length_issue_data, category_sheets_spec. unfold with_examples.
  pose proof (issue_data_empty (bucket c b)) as H.
  destruct (existsb _ (bucket c b)); cbn [negb] in H.
  - cbn. lia.
  - apply Nat.eqb_eq in H. rewrite H. reflexivity.
Qed.

(** X19.  The workbook [generate_excel_report] writes starts with the sheet
    [Summary]; after it come the sheets [Critical], [High], [Medium] and
    [Low], in this order, one for each bucket that has an issue with at
    least one example and none for the others.  No two sheets have the same
    name, and the rows of the category sheets are as many as the examples
    of all the issues. *)
Theorem workbook_layout (domain : string) (s : summary_dict) (b : buckets) :
  let book := generate_excel_report domain s b in
  map sheet_name book
  = "Summary" :: map (fun c => capitalize (category_name c))
                     (List.filter (with_examples b) categories) /\
  List.NoDup (map sheet_name book) /\
  (1 <= length book <= 5)%nat /\
  list_sum (map (fun sh => length (body sh)) (tl book))
  = list_sum (map (fun i => length (examples i)) (all_issues b)).
Proof.
  cbv zeta. unfold generate_excel_report, categories.
  cbn [flat_map map tl List.filter]. rewrite !app_nil_r.
  split; [|split; [|split]].
  - rewrite !category_sheets_spec.
    destruct (with_examples b Critical), (with_examples b High),
      (with_examples b Medium), (with_examples b Low); reflexivity.
  - rewrite !category_sheets_spec.
    apply NoDup_ListNoDup, (bool_decide_unpack _).
    destruct (with_examples b Critical), (with_examples b High),
      (with_examples b Medium), (with_examples b Low); vm_compute; reflexivity.
  - rewrite !category_sheets_spec.
    destruct (with_examples b Critical), (with_examples b High),
      (with_examples b Medium), (with_examples b Low); cbn; lia.
  - rewrite !List.map_app, !list_sum_app, !category_sheets_rows.
    unfold all_issues, categories. cbn [flat_map]. rewrite app_nil_r.
    rewrite !List.map_app, !list_sum_app. lia.
Qed.

(** * The theorems at the sample inputs *)

Lemma missing_column_asymmetry_witness :
  data Sample.bare !! "h1" = Some Sample.bare_h1 /\
  in_columns "H1-2" Sample.bare_h1 = false /\
  in_columns "H1-1" Sample.bare_h1 = false /\
  analyze_multiple_h1 Sample.bare = (Ok tt, Sample.bare) /\
  analyze_missing_h1 Sample.bare = (Err (KeyError "H1-1"), Sample.bare).
Proof.
  assert (Hdf : data Sample.bare !! "h1" = Some Sample.bare_h1) by reflexivity.
  assert (H2 : in_columns "H1-2" Sample.bare_h1 = false) by reflexivity.
  assert (H1 : in_columns "H1-1" Sample.bare_h1 = false) by reflexivity.
  split; [exact Hdf|]. split; [exact H2|]. split; [exact H1|]. split.
  - apply (missing_column_asymmetry Sample.bare Sample.bare_h1 "h1" "H1-2"
             analyze_multiple_h1 Hdf H2).
    simpl. right. right. left. reflexivity.
  - apply (missing_column_asymmetry Sample.bare Sample.bare_h1 "h1" "H1-1"
             analyze_missing_h1 Hdf H1).
    simpl. do 3 right. left. reflexivity.
Defined.

Lemma sample_run :
  issues Sample.loaded = no_issues /\
  run_analysis Sample.today Sample.loaded = (Ok tt, Sample.analysed) /\
  run_analysis Sample.today Sample.analysed = (Ok tt, Sample.analysed_twice).
Proof.
  split; [reflexivity|]. split.
  - vm_compute. reflexivity.
  - vm_compute. reflexivity.
Qed.

Lemma priority_order_is_stable_witness :
  (forall c, Forall valid_scores (bucket c (issues Sample.loaded))) /\
  run_analysis Sample.today Sample.loaded = (Ok tt, Sample.analysed) /\
  exists mid,
    run_checks Sample.loaded = (Ok tt, mid) /\
    Permutation (bucket High (issues Sample.analysed)) (bucket High (issues mid)) /\
    StronglySorted priority_ge (bucket High (issues Sample.analysed)).
Proof.
  assert (H1 : forall c, Forall valid_scores (bucket c (issues Sample.loaded)))
    by (intros c; destruct c; constructor).
  destruct sample_run as (_ & H2 & _).
  split; [exact H1|]. split; [exact H2|].
  destruct (priority_order_is_stable _ _ _ H1 H2) as (mid & Hmid & H).
  exists mid. split; [exact Hmid|].
  destruct (H High) as (_ & _ & _ & Hb & Hc & _). auto.
Defined.

Lemma highest_impact_summary_witness :
  run_analysis Sample.today Sample.loaded = (Ok tt, Sample.analysed) /\
  exists s,
    summary Sample.analysed = Some s /\
    length (highest_impact_issues s) = Nat.min 3 (total_issues s) /\
    StronglySorted impact_ge (highest_impact_issues s).
Proof.
  destruct sample_run as (_ & H2 & _).
  split; [exact H2|].
  destruct (highest_impact_summary _ _ _ H2) as (s & mid & Hs & _ & _ & H).
  exists s. split; [exact Hs|].
  cbv zeta in H. destruct H as (_ & _ & Hlen & _ & _ & _ & Hsorted). auto.
Defined.

Lemma duplicate_titles_occur_twice_witness :
  exists df' col,
    dropna Sample.page_titles "Title 1" = Ok df' /\
    getitem df' "Title 1" = Ok col /\
    duplicated (value_counts col) = [Str "Home"] /\
    Forall (fun t => t <> NaN) col /\
    forall t, In t (duplicated (value_counts col)) <-> (2 <= occurrences t col)%nat.
Proof.
  destruct (dropna Sample.page_titles "Title 1") as [df'|e] eqn:Hdrop;
    [|vm_compute in Hdrop; discriminate].
  destruct (getitem df' "Title 1") as [col|e] eqn:Hcol;
    [|vm_compute in Hdrop; inversion Hdrop; subst df';
      vm_compute in Hcol; discriminate].
  exists df', col. split; [reflexivity|]. split; [exact Hcol|].
  split.
  - vm_compute in Hdrop. inversion Hdrop; subst df'.
    vm_compute in Hcol. inversion Hcol; subst col. vm_compute. reflexivity.
  - destruct (duplicate_titles_occur_twice _ _ _ Hdrop Hcol)
      as (_ & Hpresent & _ & Hiff & _).
    split; [exact Hpresent | exact Hiff].
Defined.

Lemma created_records_are_sound_witness :
  issues Sample.loaded = no_issues /\
  run_analysis Sample.today Sample.loaded = (Ok tt, Sample.analysed) /\
  forall c i, In i (bucket c (issues Sample.analysed)) ->
    (1 <= count i)%nat /\ (length (examples i) <= 5)%nat.
Proof.
  destruct sample_run as (H1 & H2 & _).
  split; [exact H1|]. split; [exact H2|].
  intros c i Hi.
  destruct (created_records_are_sound _ _ _ _ H1 H2 c i Hi) as (Hc & Hl & _).
  split; assumption.
Defined.

Lemma second_run_doubles_witness :
  issues Sample.loaded = no_issues /\
  map (fun c => length (bucket c (issues Sample.analysed))) categories
  = [4; 3; 1; 1]%nat /\
  exists self2,
    run_analysis Sample.today Sample.analysed = (Ok tt, self2) /\
    map (fun c => length (bucket c (issues self2))) categories = [8; 6; 2; 2]%nat /\
    self2 <> Sample.analysed /\
    exists s1 s2,
      summary Sample.analysed = Some s1 /\ summary self2 = Some s2 /\
      total_issues s1 = 9%nat /\ total_issues s2 = 18%nat.
Proof.
  destruct sample_run as (H1 & H2 & _).
  destruct (second_run_doubles Sample.today Sample.today _ _ _ H1 H2)
    as (self2 & Hrun & Hb & Hs & _ & Hfound).
  assert (Hdf : data Sample.loaded !! "response_codes" = Some Sample.response_codes)
    by (vm_compute; reflexivity).
  assert (Hrows : matching_rows Sample.response_codes "Status Code" (status_in 400 499)
                  <> []) by (vm_compute; discriminate).
  destruct (Hfound eq_refl Sample.response_codes Hdf Hrows) as (_ & _ & Hdiff).
  destruct (Hs eq_refl) as (s1 & s2 & Hs1 & Hs2 & Htotal).
  assert (Hc : length (bucket Critical (issues Sample.analysed)) = 4%nat)
    by (vm_compute; reflexivity).
  assert (Hh : length (bucket High (issues Sample.analysed)) = 3%nat)
    by (vm_compute; reflexivity).
  assert (Hm : length (bucket Medium (issues Sample.analysed)) = 1%nat)
    by (vm_compute; reflexivity).
  assert (Hl : length (bucket Low (issues Sample.analysed)) = 1%nat)
    by (vm_compute; reflexivity).
  assert (Hsum : option_map total_issues (summary Sample.analysed) = Some 9%nat)
    by (vm_compute; reflexivity).
  assert (H9 : total_issues s1 = 9%nat).
  { rewrite Hs1 in Hsum. cbn [option_map] in Hsum. congruence. }
  split; [exact H1|].
  split; [unfold categories; cbn [map]; rewrite Hc, Hh, Hm, Hl; reflexivity|].
  exists self2. split; [exact Hrun|].
  split.
  { unfold categories. cbn [map].
    rewrite (proj2 (Hb Critical)), (proj2 (Hb High)), (proj2 (Hb Medium)),
      (proj2 (Hb Low)), Hc, Hh, Hm, Hl. reflexivity. }
  split; [exact Hdiff|].
  exists s1, s2. split; [exact Hs1|]. split; [exact Hs2|].
  split; [exact H9 | rewrite Htotal, H9; reflexivity].
Defined.


(** An exception does leave [wait_for_crawl_completion]: [AttributeError]
    when the remote tool answers a status request with a list, and
    [ValueError] when the interval is negative and the first poll reports
    a status that is not terminal. *)
Lemma wait_lets_exceptions_out :
  wait_for_crawl_completion Sample.api Sample.listing "42"
    default_check_interval default_timeout 5 1000
  = Some (Raises AttributeError, 1%nat) /\
  wait_for_crawl_completion Sample.api Sample.crawl "42"
    (-5) default_timeout 5 1000
  = Some (Raises (ValueError "sleep length must be non-negative"), 1%nat).
Proof. split; vm_compute; reflexivity. Qed.


Lemma excel_sheet_rows_witness :
  exists sh,
    sheets_named "Medium"
      (generate_excel_report "example.com"
         (summary_of Sample.today Sample.one_medium) Sample.one_medium) = [sh] /\
    length (body sh) = 3%nat.
Proof.
  apply (proj2 (excel_sheet_rows "example.com"
                  (summary_of Sample.today Sample.one_medium)
                  Sample.one_medium Medium) Sample.three_examples);
    reflexivity.
Defined.

(** The sample response codes 200, 404, 500, 301, 404: one [broken_links]
    record of count 2 and one [server_errors] record of count 1. *)
Example response_codes_sample :
  map (fun i => (type i, count i))
      (bucket Critical
         (issues (snd (analyze_broken_links
            {| export_dir := ""; files := [];
               data := <["response_codes" := Sample.response_codes]> ∅;
               issues := no_issues; summary := None |}))))
  = [("broken_links", 2%nat); ("server_errors", 1%nat)].
Proof. vm_compute. reflexivity. Qed.

(** Two rows titled Home and one titled About: one [duplicate_titles]
    record, of count 1, whose examples are the two Home addresses. *)
Example duplicate_titles_sample :
  map (fun i => (type i, count i, examples i))
      (bucket Critical (issues (snd (analyze_duplicate_titles Sample.loaded))))
  = [("duplicate_titles", 1%nat,
      [Str "https://example.com/"; Str "https://example.com/index"])].
Proof. vm_compute. reflexivity. Qed.

Lemma issues_follow_the_catalog_witness :
  issues Sample.loaded = no_issues /\
  run_analysis Sample.today Sample.loaded = (Ok tt, Sample.analysed) /\
  Forall (of_catalog Critical) (bucket Critical (issues Sample.analysed)) /\
  List.NoDup (map type (bucket Critical (issues Sample.analysed))) /\
  (length (bucket Critical (issues Sample.analysed)) <= 4)%nat.
Proof.
  destruct sample_run as (H1 & H2 & _).
  split; [exact H1|]. split; [exact H2|].
  destruct (issues_follow_the_catalog _ _ _ _ H1 H2 Critical)
    as (Hc & Hn & Hl & Hq).
  split; [exact Hc|]. split; [exact Hn|]. rewrite <- Hq. exact Hl.
Defined.

Lemma half_run :
  text_where_measured (data Sample.half) = true /\
  run_analysis Sample.today Sample.half
  = (Err (KeyError "H1-1"), snd (run_analysis Sample.today Sample.half)) /\
  map type (critical (issues (snd (run_analysis Sample.today Sample.half))))
  = ["broken_links"; "server_errors"; "duplicate_titles"].
Proof.
  split; [vm_compute; reflexivity|]. split; vm_compute; reflexivity.
Qed.

Lemma run_analysis_failure_is_partial_witness :
  run_analysis Sample.today Sample.half
  = (Err (KeyError "H1-1"), snd (run_analysis Sample.today Sample.half)) /\
  run_checks Sample.half
  = (Err (KeyError "H1-1"), snd (run_analysis Sample.today Sample.half)) /\
  summary (snd (run_analysis Sample.today Sample.half)) = None /\
  exists emitted,
    critical (issues (snd (run_analysis Sample.today Sample.half))) = emitted /\
    map type emitted = ["broken_links"; "server_errors"; "duplicate_titles"].
Proof.
  destruct half_run as (_ & Hrun & Htypes).
  destruct (run_analysis_failure_is_partial Sample.today Sample.half
              (snd (run_analysis Sample.today Sample.half))
              (KeyError "H1-1")) as [Hiff Hpartial].
  split; [exact Hrun|]. split; [apply Hiff, Hrun|].
  destruct (Hpartial Hrun) as [Hsummary Hbuckets].
  split; [exact Hsummary|].
  destruct (Hbuckets Critical) as (emitted & Heq & _).
  exists emitted. cbn [bucket] in Heq. split; [exact Heq|].
  rewrite Heq in Htypes. exact Htypes.
Defined.

Lemma failures_are_diagnosed_witness :
  text_where_measured (data Sample.half) = true /\
  run_analysis Sample.today Sample.half
  = (Err (KeyError "H1-1"), snd (run_analysis Sample.today Sample.half)) /\
  (column_missing (data Sample.half) (KeyError "H1-1") \/
   text_among_numbers (data Sample.half) (KeyError "H1-1")).
Proof.
  destruct half_run as (Htext & Hrun & _).
  split; [exact Htext|]. split; [exact Hrun|].
  exact (failures_are_diagnosed _ _ _ _ Htext Hrun).
Defined.

Lemma complete_exports_are_analysed_witness :
  has_required_columns (data Sample.loaded) = true /\
  numbers_where_compared (data Sample.loaded) = true /\
  text_where_measured (data Sample.loaded) = true /\
  exists self', run_analysis Sample.today Sample.loaded = (Ok tt, self').
Proof.
  assert (H1 : has_required_columns (data Sample.loaded) = true)
    by (vm_compute; reflexivity).
  assert (H2 : numbers_where_compared (data Sample.loaded) = true)
    by (vm_compute; reflexivity).
  assert (H3 : text_where_measured (data Sample.loaded) = true)
    by (vm_compute; reflexivity).
  split; [exact H1|]. split; [exact H2|]. split; [exact H3|].
  exact (complete_exports_are_analysed Sample.today Sample.loaded H1 H2 H3).
Defined.


Lemma polls_are_bounded_witness :
  wait_for_crawl_completion Sample.api Sample.crawl "42" 10 3600 5 0
  = Some (Returns true, 3%nat) /\ (3 <= 361)%nat.
Proof.
  assert (H : wait_for_crawl_completion Sample.api Sample.crawl "42" 10 3600 5 0
              = Some (Returns true, 3%nat)) by (vm_compute; reflexivity).
  split; [exact H|].
  assert (Hlat : forall k, (0 <= latency Sample.crawl k)%Z)
    by (intros k; simpl; lia).
  destruct (polls_are_bounded Sample.api Sample.crawl "42" 10 3600 0 5
              (Returns true) 3 ltac:(lia) Hlat H) as [_ Hb].
  apply Hb; reflexivity.
Defined.

(** The client's whole run against the sample server: fourteen requests. *)
Example run_full_sample :
  run_full_crawl_and_export Sample.makedirs Sample.api Sample.server 5 0
    "https://example.com" "exports" None "csv"
  = Some (Returns true, 14%nat).
Proof. vm_compute. reflexivity. Qed.

(** On the sample machine the workflow copies the exports, analyses them,
    writes the JSON report and the charts, and stops at the HTML report. *)
Example run_workflow_sample :
  SEOWorkflow.__init__ Sample.machine "20240501_120000" "example.com" "exports" None
  = Returns Sample.started /\
  SEOWorkflow.run_workflow Sample.machine Sample.stamps Sample.started false None
  = (Raises (Exn (KeyError " font-family")), Sample.started).
Proof. split; vm_compute; reflexivity. Qed.

Lemma report_files_stay_empty_witness :
  SEOWorkflow.report_files
    (snd (SEOWorkflow.run_workflow Sample.machine Sample.stamps Sample.started
            false None)) = [] /\
  SEOWorkflow.generate_excel_report Sample.machine
    (snd (SEOWorkflow.run_workflow Sample.machine Sample.stamps Sample.started
            false None))
  = (Raises (Exn (KeyError "json")),
     snd (SEOWorkflow.run_workflow Sample.machine Sample.stamps Sample.started
            false None)).
Proof.
  assert (Hreached :
    reached (snd (SEOWorkflow.run_workflow Sample.machine Sample.stamps
                    Sample.started false None))).
  { apply reached_run_workflow.
    apply (reached_init Sample.machine "20240501_120000" "example.com" "exports" None).
    reflexivity. }
  destruct (report_files_stay_empty _ Hreached) as (Hempty & Hexcel & _).
  split; [exact Hempty | apply Hexcel].
Defined.

(** On the sample machine the end-to-end workflow accepts the crawl, for
    [h1.csv], and stops at the HTML report as well. *)
Example run_full_workflow_sample :
  EndToEndSEOWorkflow.__init__ Sample.machine "20240501_120000" "example.com" None
  = Returns Sample.crawling /\
  EndToEndSEOWorkflow.run_crawl Sample.machine Sample.crawling
    "https://example.com" None None None = Returns true /\
  EndToEndSEOWorkflow.run_full_workflow Sample.machine Sample.stamps
    "20240501_120004" Sample.crawling "https://example.com" None None false None
  = (Raises (Exn (KeyError " font-family")), Sample.crawling).
Proof. split; [|split]; vm_compute; reflexivity. Qed.

Lemma crawl_check_misses_spaced_tabs_witness :
  EndToEndSEOWorkflow.run_crawl (Sample.machine_on Sample.spaced) Sample.crawling
    "https://example.com" None None None = Returns false.
Proof.
  apply (crawl_check_misses_spaced_tabs (Sample.machine_on Sample.spaced)
           Sample.crawling "https://example.com" None None
           ["response_codes.csv"; "page_titles.csv"; "meta_description.csv"]).
  - reflexivity.
  - intros cmd. reflexivity.
  - reflexivity.
  - repeat (constructor; [cbn; tauto|]). constructor.
Defined.
